(** * Parallax: a shallow embedding of [src/parallax.js]

    The star field of [class Parallax] and the helper namespace [_] are
    embedded as functions over an explicit program state.

    Modelling conventions.
    - JavaScript numbers are rationals ([Q]); the container size, obtained
      with [parseInt], is an integer ([Z]).  [NaN] only appears as the numeric
      reading of [undefined] (see [ToNumber]).  The quotient [1/5000] and the
      products [width * height] and [density * area], which decide how many
      stars a layer receives, are rounded as binary64 arithmetic rounds them
      ([to_double], on finite values: nothing overflows to [Infinity]);
      coordinates and speeds are computed exactly.
    - [Math.random()] reads the next entry of an oracle [rand : nat -> Q];
      the state counts the draws made so far.
    - Layer objects live in a store and [this.layers] holds references to
      them, so a layer object listed twice is one object.  A layer object may
      lack [speed], [density], [colors] and [stars].  The star arrays are only
      ever built by [calculate], which allocates every star and every array
      afresh; they are kept by value inside their layer object, and [update]
      rewrites them star by star.
    - A JavaScript exception is an outcome [Throw] carrying the state
      reached when it was raised. *)

From Stdlib Require Import ZArith QArith Qround Qabs Qpower String Ascii List Lia
  Bool.
From stdpp Require Import base list.
From Equations Require Import Equations.
Import ListNotations.

Local Open Scope Q_scope.

(** ** Numbers *)

(** [a < b] on numbers, as a boolean. *)
Definition Qlt_bool (a b : Q) : bool := negb (Qle_bool b a).

(** Rounding to the nearest integer, a tie going to the even one. *)
Definition round_half_even (q : Q) : Z :=
  let f := Qfloor q in
  match Qcompare (q - inject_Z f) (1 # 2) with
  | Lt => f
  | Gt => (f + 1)%Z
  | Eq => if Z.even f then f else (f + 1)%Z
  end.

(** The exponent [e] with [2 ^ e <= a < 2 ^ (e + 1)], for [a > 0]. *)
Definition binade (a : Q) : Z :=
  let e := (Z.log2 (Qnum a) - Z.log2 (Zpos (Qden a)))%Z in
  if Qle_bool (Qpower 2 e) a then e else (e - 1)%Z.

(** The binary64 number a real result is rounded to: the nearest
    multiple of the unit in the last place of its binade (53 significant
    bits; below [2 ^ -1022] the spacing of the subnormals), ties to even. *)
Definition to_double (q : Q) : Q :=
  let r := Qred q in
  match Qnum r with
  | Z0 => 0
  | _ =>
      let a := Qabs r in
      let ulp := Qpower 2 (Z.max (binade a) (-1022) - 52) in
      let v := inject_Z (round_half_even (a / ulp)) * ulp in
      if (Qnum r <? 0)%Z then - v else v
  end.

(** The values an optional numeric argument takes: [undefined] when it is
    left out, [null] (the initial [previous.x] of [calculate]) or a number. *)
Inductive jsnum : Type :=
| Undefined
| Null
| Num (q : Q).

(** Numeric reading of such a value; [None] stands for [NaN]. *)
Definition ToNumber (v : jsnum) : option Q :=
  match v with
  | Undefined => None
  | Null => Some 0
  | Num q => Some q
  end.

(** [array[k]] for a numeric key: an element at a non-negative integer
    key inside the array, [undefined] ([None]) everywhere else. *)
Definition array_get {A : Type} (array : list A) (k : Q) : option A :=
  let r := Qred k in
  if (Qden r =? 1)%positive && (0 <=? Qnum r)%Z
  then array !! Z.to_nat (Qnum r)
  else None.

(** ** Data *)

Record Vec : Type := mkVec { vec_x : Q; vec_y : Q }.

Record Star : Type := mkStar {
  star_x : Q;
  star_y : Q;
  star_color : option string;   (* [None]: picked from an empty palette *)
  star_speed : Vec
}.

Record Layer : Type := mkLayer {
  layer_size : Q;
  layer_speed : option Vec;     (* [None]: the object has no [speed] *)
  layer_density : option Q;
  layer_colors : option (list string);
  layer_stars : option (list Star)   (* [None] until [calculate] has run *)
}.

(** References to layer objects, and DOM nodes. *)
Abbreviation loc := nat (only parsing).
Abbreviation element := nat (only parsing).

Definition set_stars (stars : list Star) (L : Layer) : Layer :=
  mkLayer (layer_size L) (layer_speed L) (layer_density L) (layer_colors L)
          (Some stars).

(** The fields of a fully constructed instance.  [running] and
    [restarted] are [undefined] after construction and only ever tested for
    truthiness, hence [false]. *)
Record Parallax : Type := mkParallax {
  container : element;
  errors : list string;            (* this.errors.colors *)
  defaultColors : list string;
  colors : list string;
  defaultLayers : list loc;
  layers : list loc;
  width : Z;
  height : Z;
  running : bool;
  restarted : bool
}.

Inductive draw : Type :=
| ClearRect (x y w h : Q)
| FillRect (fillStyle : option string) (x y w h : Q).

(** Program state: the instance, the store of layer objects, the number
    of [Math.random()] draws, the drawing commands sent to the 2D context,
    the callbacks queued by [requestAnimationFrame], the size the host
    currently computes for the container, and a ghost counter of the calls
    of [calculate]. *)
Record State : Type := mkState {
  self : Parallax;
  heap : list Layer;
  tape : nat;
  canvas : list draw;
  raf : nat;
  measured : Z * Z;
  calcs : nat
}.

Definition with_self (p : Parallax) (s : State) : State :=
  mkState p (heap s) (tape s) (canvas s) (raf s) (measured s) (calcs s).
Definition with_heap (h : list Layer) (s : State) : State :=
  mkState (self s) h (tape s) (canvas s) (raf s) (measured s) (calcs s).
Definition with_tape (n : nat) (s : State) : State :=
  mkState (self s) (heap s) n (canvas s) (raf s) (measured s) (calcs s).
Definition with_canvas (c : list draw) (s : State) : State :=
  mkState (self s) (heap s) (tape s) c (raf s) (measured s) (calcs s).
Definition with_raf (n : nat) (s : State) : State :=
  mkState (self s) (heap s) (tape s) (canvas s) n (measured s) (calcs s).
Definition with_calcs (n : nat) (s : State) : State :=
  mkState (self s) (heap s) (tape s) (canvas s) (raf s) (measured s) n.

Definition with_size (w h : Z) (p : Parallax) : Parallax :=
  mkParallax (container p) (errors p) (defaultColors p) (colors p)
             (defaultLayers p) (layers p) w h (running p) (restarted p).
Definition with_running (b : bool) (p : Parallax) : Parallax :=
  mkParallax (container p) (errors p) (defaultColors p) (colors p)
             (defaultLayers p) (layers p) (width p) (height p) b (restarted p).
Definition with_restarted (b : bool) (p : Parallax) : Parallax :=
  mkParallax (container p) (errors p) (defaultColors p) (colors p)
             (defaultLayers p) (layers p) (width p) (height p) (running p) b.

(** ** The state and exception monad *)

Inductive error : Type := TypeError.

Inductive res (A : Type) : Type :=
| Ok (a : A) (s : State)
| Throw (e : error) (s : State).
Arguments Ok {A} a s.
Arguments Throw {A} e s.

Definition M (A : Type) : Type := State -> res A.

Definition ret {A : Type} (a : A) : M A := fun s => Ok a s.

Definition bind {A B : Type} (m : M A) (k : A -> M B) : M B :=
  fun s => match m s with
           | Ok a s' => k a s'
           | Throw e s' => Throw e s'
           end.

Definition throw {A : Type} (e : error) : M A := fun s => Throw e s.

Declare Scope js_scope.
Delimit Scope js_scope with js.
Notation "x <- m ;; k" := (bind m (fun x => k))
  (at level 100, m at next level, right associativity) : js_scope.
Notation "m ;;; k" := (bind m (fun _ => k))
  (at level 100, right associativity) : js_scope.

(** The state an outcome ends in, normal or not. *)
Definition final {A : Type} (r : res A) : State :=
  match r with Ok _ s => s | Throw _ s => s end.

Definition get_self : M Parallax := fun s => Ok (self s) s.
Definition put_self (p : Parallax) : M unit := fun s => Ok tt (with_self p s).

(** [this.layers[o]] followed by a property access: a reference outside
    the store reads as [undefined], whose properties cannot be read. *)
Definition deref (l : loc) : M Layer :=
  fun s => match heap s !! l with
           | Some L => Ok L s
           | None => Throw TypeError s
           end.

Definition store (l : loc) (L : Layer) : M unit :=
  fun s => Ok tt (with_heap (<[l := L]> (heap s)) s).

(** [forM_] for the loops that walk an array. *)
Fixpoint forM_ {A : Type} (f : A -> M unit) (l : list A) : M unit :=
  match l with
  | [] => ret tt
  | a :: l' => (f a ;;; forM_ f l')%js
  end.

(** ** The helper namespace [_] *)

(** [_.get]: [querySelectorAll] and then the node list itself when it has
    more than one node, its first entry otherwise ([undefined] when the list
    is empty). *)
Inductive dom_result : Type :=
| NotFound
| Element (e : element)
| NodeList (es : list element).

Definition get (document : string -> list element) (selector : string)
  : dom_result :=
  let found := document selector in
  if (1 <? length found)%nat then NodeList found
  else match found with
       | e :: _ => Element e
       | [] => NotFound
       end.

(** One character of the class [[0-9A-F]] under the flag [i]. *)
Definition is_hex_digit (c : ascii) : bool :=
  let n := nat_of_ascii c in
  ((48 <=? n) && (n <=? 57) || (65 <=? n) && (n <=? 70)
   || (97 <=? n) && (n <=? 102))%nat.

(** The pattern [/(^#[0-9A-F]{6}$)|(^#[0-9A-F]{3}$)/i]. *)
Definition hex_pattern (color : string) : bool :=
  match color with
  | String "#"%char digits =>
      forallb is_hex_digit (list_ascii_of_string digits)
      && ((String.length digits =? 6) || (String.length digits =? 3))%nat
  | _ => false
  end.

(** [_.isHex]: the verdict, and the console extended with one line for a
    rejected token. *)
Definition isHex (color : string) (console : list string)
  : bool * list string :=
  if negb (hex_pattern color)
  then (false, console ++ ["The hex color '" ++ color ++ "' is not valid."]%string)
  else (true, console).

(** [spread ? spread : 25.0]. *)
Definition spread_or_default (spread : option Q) : Q :=
  match spread with
  | Some sp => if Qeq_bool sp 0 then 25 else sp
  | None => 25
  end.

Section Oracle.

(** The sequence of values [Math.random()] returns. *)
Variable rand : nat -> Q.

Definition Math_random : M Q :=
  fun s => Ok (rand (tape s)) (with_tape (S (tape s)) s).

(** [_.random (min, max, previous, spread)]. *)
Definition random (min max : Z) (previous : jsnum) (spread : option Q)
  : M Q :=
  let spread := spread_or_default spread in
  (r <- Math_random ;;
   let value :=
     inject_Z (Qfloor (r * inject_Z (max - min + 1))) + inject_Z min in
   match ToNumber previous with
   | Some p =>
       if Qle_bool spread (Qabs (value - p))
       then (j <- Math_random ;; ret (value + j * 20))
       else ret value
   | None => ret value
   end)%js.

(** [_.pick (array)]. *)
Definition pick {A : Type} (array : list A) : M (option A) :=
  (k <- random 0 (Z.of_nat (length array) - 1) Undefined None ;;
   ret (array_get array k))%js.

(** ** The methods of [Parallax] *)

Definition fadeDistance : Q := 10.

Definition isInside (p : Parallax) (x y : Q) : bool :=
  (Qlt_bool 0 x && Qlt_bool x (inject_Z (width p) + fadeDistance))
  && (Qlt_bool 0 y && Qlt_bool y (inject_Z (height p) + fadeDistance)).

Definition area (p : Parallax) : Q :=
  to_double (inject_Z (width p * height p)).

(** [this.layers[o].density || 1/5000]. *)
Definition density_or_default (L : Layer) : Q :=
  match layer_density L with
  | Some d => if Qeq_bool d 0 then to_double (1 # 5000) else d
  | None => to_double (1 # 5000)
  end.

(** [this.layers[o].colors ? this.layers[o].colors : this.colors]. *)
Definition palette (p : Parallax) (L : Layer) : list string :=
  match layer_colors L with
  | Some cs => cs
  | None => colors p
  end.

(** The object literal in the inner loop of [calculate]. *)
Definition new_star (l : loc) (previous : jsnum * jsnum) : M Star :=
  (p <- get_self ;;
   x <- random (-10) (width p) (fst previous) None ;;
   y <- random (-10) (height p) (snd previous) None ;;
   L <- deref l ;;
   color <- pick (palette p L) ;;
   r <- Math_random ;;
   ret (mkStar x y color (mkVec 0 (r * (5 # 100)))))%js.

(** The loop [for (let i = 0; i < density * this.area; i++)] from the
    index [i] on, with the local array [stars] and the object [previous]. *)
Equations? star_loop (l : loc) (bound : Q) (i : Z) (stars : list Star)
    (previous : jsnum * jsnum) (s : State)
  : res (list Star * (jsnum * jsnum))
  by wf (Z.to_nat (Qceiling bound - i)) lt :=
  star_loop l bound i stars previous s with Qlt_le_dec (inject_Z i) bound := {
    | left _ with new_star l previous s := {
        | Ok star s' :=
            star_loop l bound (i + 1) (stars ++ [star])
                      (Num (star_x star), Num (star_y star)) s'
        | Throw e s' := Throw e s' }
    | right _ := Ok (stars, previous) s }.
Proof.
  assert (i < Qceiling bound)%Z; [|lia].
  apply Z.lt_nge. intros H. apply (Qlt_not_le _ _ q).
  eapply Qle_trans; [apply Qle_ceiling|]. rewrite <- Zle_Qle. exact H.
Qed.

(** One turn of the outer loop of [calculate]. *)
Definition calculate_layer (previous : jsnum * jsnum) (l : loc)
  : M (jsnum * jsnum) :=
  (p <- get_self ;;
   L <- deref l ;;
   let density := density_or_default L in
   r <- star_loop l (to_double (density * area p)) 0 [] previous ;;
   L' <- deref l ;;
   store l (set_stars (fst r) L') ;;;
   ret (snd r))%js.

Fixpoint calculate_layers (previous : jsnum * jsnum) (ls : list loc)
  : M (jsnum * jsnum) :=
  match ls with
  | [] => ret previous
  | l :: ls' =>
      (previous' <- calculate_layer previous l ;;
       calculate_layers previous' ls')%js
  end.

(** [calculate]; its first step only counts the call in the ghost field
    [calcs]. *)
Definition calculate : M (list loc) :=
  ((fun s => Ok tt (with_calcs (S (calcs s)) s)) ;;;
   p <- get_self ;;
   calculate_layers (Null, Null) (layers p) ;;;
   ret (layers p))%js.

(** The body of the inner loop of [update] for one star: its new
    fields.  Reading [speed.x] of a layer without [speed] throws before
    anything is assigned. *)
Definition update_star (p : Parallax) (L : Layer) (star : Star) : M Star :=
  if isInside p (star_x star) (star_y star)
  then match layer_speed L with
       | Some speed =>
           ret (mkStar (star_x star + (vec_x speed + vec_x (star_speed star)))
                       (star_y star + (vec_y speed + vec_y (star_speed star)))
                       (star_color star) (star_speed star))
       | None => throw TypeError
       end
  else (x <- random 0 (width p) Undefined None ;;
        ret (mkStar x 1 (star_color star) (star_speed star)))%js.

(** [this.layers[o].stars.length]: no length on [undefined]. *)
Definition stars_of (L : Layer) : M (list Star) :=
  match layer_stars L with
  | Some stars => ret stars
  | None => throw TypeError
  end.

(** One turn of the inner loop of [update]: the star at index [i] of
    the layer object at [l] is rewritten in place. *)
Definition update_at (l : loc) (i : nat) : M unit :=
  (p <- get_self ;;
   L <- deref l ;;
   stars <- stars_of L ;;
   match stars !! i with
   | Some star =>
       star' <- update_star p L star ;;
       store l (set_stars (<[i := star']> stars) L)
   | None => throw TypeError
   end)%js.

(** One turn of the outer loop of [update]: the indices below
    [stars.length], in order. *)
Definition update_layer (l : loc) : M unit :=
  (L <- deref l ;;
   stars <- stars_of L ;;
   forM_ (update_at l) (seq 0 (length stars)))%js.

Definition update : M unit :=
  (p <- get_self ;; forM_ update_layer (layers p))%js.

Definition paint (d : draw) : M unit :=
  fun s => Ok tt (with_canvas (canvas s ++ [d]) s).

Definition clear : M unit :=
  (p <- get_self ;;
   paint (ClearRect 0 0 (inject_Z (width p)) (inject_Z (height p))))%js.

Definition render_layer (l : loc) : M unit :=
  (L <- deref l ;;
   stars <- stars_of L ;;
   forM_ (fun star =>
            paint (FillRect (star_color star) (star_x star) (star_y star)
                            (layer_size L) (layer_size L)))
         stars)%js.

Definition render : M unit :=
  (p <- get_self ;; forM_ render_layer (layers p))%js.

(** [resize]: the size is read again from the host, and the value of
    [calculate] is dropped. *)
Definition resize : M unit :=
  ((fun s => Ok tt (with_self (with_size (fst (measured s)) (snd (measured s))
                                         (self s)) s)) ;;;
   calculate ;;;
   ret tt)%js.

(** The closure [loop] of [start]: one frame, which queues the next
    one first. *)
Definition loop : M unit :=
  (p <- get_self ;;
   if running p
   then ((fun s => Ok tt (with_raf (S (raf s)) s)) ;;;
         clear ;;; update ;;; render)
   else ret tt)%js.

Definition start : M unit :=
  (p <- get_self ;;
   put_self (with_running true p) ;;;
   (if negb (restarted p)
    then (calculate ;;;
          p' <- get_self ;; put_self (with_restarted false p'))
    else ret tt) ;;;
   loop)%js.

Definition pause : M unit :=
  (p <- get_self ;;
   put_self (with_restarted true (with_running false p)))%js.

(** The host runs one queued animation callback. *)
Definition frame : M unit :=
  fun s => match raf s with
           | O => Ok tt s
           | S n => loop (with_raf n s)
           end.

End Oracle.

(** ** The constructor *)

(** The argument [colors]: left out, one token, or an array of tokens. *)
Inductive colors_arg : Type :=
| NoColors
| OneColor (c : string)
| ColorArray (cs : list string).

(** The object [this] while the constructor runs: a field is [None] as
    long as no assignment has defined it. *)
Record this_obj : Type := mkThis {
  this_container : dom_result;
  this_errors : list string;
  this_defaultColors : option (list string);
  this_colors : option (list string);
  this_defaultLayers : option (list loc);
  this_layers : option (list loc);
  this_width : option Z;
  this_height : option Z
}.

Inductive value : Type :=
| Prim (b : bool)
| Object (o : this_obj).

(** How the body of the constructor ends: by reaching its end, by a
    [return] statement, or by an exception. *)
Inductive completion : Type :=
| Normal
| Return (v : value)
| Abrupt (e : error).

Record constructed : Type := mkConstructed {
  ctor_this : this_obj;
  ctor_completion : completion;
  ctor_heap : list Layer;
  ctor_console : list string
}.

(** The loop [for (let color in colors)]: the rejected tokens, pushed in
    the order met, and the console lines of [_.isHex]. *)
Fixpoint check_colors (colors : list string) (errors console : list string)
  : list string * list string :=
  match colors with
  | [] => (errors, console)
  | color :: rest =>
      let (valid, console') := isHex color console in
      check_colors rest (if negb valid then errors ++ [color] else errors)
                   console'
  end.

(** [Array.isArray(colors) ? colors : [].concat(colors)]. *)
Definition as_array (colors : colors_arg) : option (list string) :=
  match colors with
  | NoColors => None
  | OneColor c => Some [c]
  | ColorArray cs => Some cs
  end.

Definition default_palette : list string :=
  ["#ffffff"; "#6420e5"; "#79e865"; "#e81e6b"]%string.

Definition default_layers (colors : list string) : list Layer :=
  [ mkLayer 3 (Some (mkVec 0 (5 # 10))) None (Some colors) None;
    mkLayer 2 (Some (mkVec 0 (3 # 10))) None (Some colors) None;
    mkLayer 1 (Some (mkVec 0 (2 # 10))) None (Some colors) None ].

(** The body of [constructor (containerSelector, colors, layers,
    mergeLayers)], run on a fresh [this].  [document] answers
    [querySelectorAll], [computed] gives the parsed computed width and height
    of an element, [h] is the store holding the caller's layer objects. *)
Definition constructor (document : string -> list element)
    (computed : element -> Z * Z) (containerSelector : string)
    (colors : colors_arg) (layers : option (list loc)) (mergeLayers : bool)
    (h : list Layer) : constructed :=
  let this := mkThis (get document containerSelector) []
                     None None None None None None in
  match this_container this with
  | NotFound =>
      mkConstructed this (Return (Prim false)) h
        ["No container found with the selector '" ++ containerSelector ++ "'."]%string
  | _ =>
      let this := mkThis (this_container this) (this_errors this)
                         (Some default_palette) None None None None None in
      let checked :=
        match as_array colors with
        | Some cs =>
            let (errs, console) := check_colors cs (this_errors this) [] in
            (errs, console, if (0 <? length errs)%nat then None else Some cs)
        | None => (this_errors this, [], Some default_palette)
        end in
      match checked with
      | (errs, console, None) =>
          mkConstructed
            (mkThis (this_container this) errs (this_defaultColors this)
                    None None None None None)
            (Return (Prim false)) h
            (console ++ ["The following colors are incorrect :"%string]
                     ++ map (fun e => ("- " ++ e)%string) errs)
      | (errs, console, Some cs) =>
          let fresh := length h in
          let h' := h ++ default_layers cs in
          let defaults := [fresh; S fresh; S (S fresh)] in
          let resolved :=
            match layers with
            | None => defaults
            | Some ls => if mergeLayers then defaults ++ ls else ls
            end in
          let this := mkThis (this_container this) errs
                             (this_defaultColors this) (Some cs)
                             (Some defaults) (Some resolved) None None in
          match this_container this with
          | Element e =>
              mkConstructed
                (mkThis (this_container this) errs (this_defaultColors this)
                        (Some cs) (Some defaults) (Some resolved)
                        (Some (fst (computed e))) (Some (snd (computed e))))
                Normal h' console
          | _ =>
              (* [_.style] on a node list: it has no [style] to assign to *)
              mkConstructed this (Abrupt TypeError) h' console
          end
      end
  end.

(** [new Parallax (...)]: a value returned by the body replaces [this]
    only when it is an object; an exception propagates. *)
Definition new_Parallax (document : string -> list element)
    (computed : element -> Z * Z) (containerSelector : string)
    (colors : colors_arg) (layers : option (list loc)) (mergeLayers : bool)
    (h : list Layer) : value + error :=
  let c := constructor document computed containerSelector colors layers
                       mergeLayers h in
  match ctor_completion c with
  | Return (Object o) => inl (Object o)
  | Return (Prim _) | Normal => inl (Object (ctor_this c))
  | Abrupt e => inr e
  end.

(** The instance a constructed object amounts to, when every field the
    methods read has been defined. *)
Definition instance_of (o : this_obj) : option Parallax :=
  match this_container o, this_defaultColors o, this_colors o,
        this_defaultLayers o, this_layers o, this_width o, this_height o with
  | Element e, Some dc, Some cs, Some dl, Some ls, Some w, Some ht =>
      Some (mkParallax e (this_errors o) dc cs dl ls w ht false false)
  | _, _, _, _, _, _, _ => None
  end.

(** ** Driving the instance *)

(** The calls a page makes on a running star field, [resize] and
    [calculate] apart, and the animation frames of the host. *)
Inductive call : Type :=
| CallStart
| CallPause
| CallFrame
| CallUpdate
| CallRender
| CallClear.

(** [k] times [pause ()] then [start ()]. *)
Fixpoint cycles (k : nat) : list call :=
  match k with
  | O => []
  | S k' => CallPause :: CallStart :: cycles k'
  end.

Section Driver.

Variable rand : nat -> Q.

Definition perform (c : call) : M unit :=
  match c with
  | CallStart => start rand
  | CallPause => pause
  | CallFrame => frame rand
  | CallUpdate => update rand
  | CallRender => render
  | CallClear => clear
  end.

(** Each call is a task of its own: an exception ends the task, and
    the next one starts from the state reached. *)
Fixpoint drive (cs : list call) (s : State) : State :=
  match cs with
  | [] => s
  | c :: cs' => drive cs' (final (perform c s))
  end.

End Driver.

(** ** Properties of states and concrete inputs used below *)

(** Every value of the oracle lies in [[0, 1)], as [Math.random()] promises. *)
Definition unit_interval (rand : nat -> Q) : Prop :=
  forall n : nat, 0 <= rand n /\ rand n < 1.

(** The integer [_.random] draws first, from the oracle entry [n]. *)
Definition base_draw (rand : nat -> Q) (min max : Z) (n : nat) : Z :=
  (Qfloor (rand n * inject_Z (max - min + 1)) + min)%Z.

(** Every supplied token is accepted by the pattern. *)
Definition colors_ok (colors : colors_arg) : Prop :=
  match as_array colors with
  | Some cs => forallb hex_pattern cs = true
  | None => True
  end.

Definition resolved_palette (colors : colors_arg) : list string :=
  match as_array colors with
  | Some cs => cs
  | None => default_palette
  end.

(** The console line of [_.isHex] for a rejected token. *)
Definition rejected_line (c : string) : string :=
  ("The hex color '" ++ c ++ "' is not valid.")%string.

Definition invalid_tokens (cs : list string) : list string :=
  List.filter (fun c => negb (hex_pattern c)) cs.

(** Two layer objects with the same settings: they differ at most in
    their stars. *)
Definition same_settings (L L' : Layer) : Prop :=
  layer_size L' = layer_size L /\ layer_speed L' = layer_speed L
  /\ layer_density L' = layer_density L /\ layer_colors L' = layer_colors L.

(** A result of [_.random (min, max, ...)], read off the oracle: the
    integer drawn from some entry [n], alone or with the jitter the next
    entry gives. *)
Definition drawn (rand : nat -> Q) (min max : Z) (v : Q) : Prop :=
  exists n : nat,
    v == inject_Z (base_draw rand min max n)
    \/ v == inject_Z (base_draw rand min max n) + rand (S n) * 20.

(** Where [calculate] places a star, jitter included. *)
Definition spawned (rand : nat -> Q) (p : Parallax) (star : Star) : Prop :=
  drawn rand (-10) (width p) (star_x star)
  /\ drawn rand (-10) (height p) (star_y star).

(** The number of turns of the loop [for (i = 0; i < density * area; i++)]. *)
Definition star_count (p : Parallax) (L : Layer) : nat :=
  Z.to_nat (Qceiling (to_double (density_or_default L * area p))).

(** The layer object at [l] holds a star array as [calculate] builds it. *)
Definition seeded (rand : nat -> Q) (p : Parallax) (h : list Layer)
    (l : loc) : Prop :=
  exists L stars, h !! l = Some L /\ layer_stars L = Some stars
                  /\ length stars = star_count p L
                  /\ Forall (spawned rand p) stars.

(** An outcome with its store replaced. *)
Definition on_heap {A : Type} (h : list Layer) (r : res A) : res A :=
  match r with
  | Ok a s => Ok a (with_heap h s)
  | Throw e s => Throw e (with_heap h s)
  end.

(** What [update] keeps of a star. *)
Definition same_look (a b : Star) : Prop :=
  star_color b = star_color a /\ star_speed b = star_speed a.

(** One pass of the body of [update] over the star [a] of a layer [L]:
    moved by the two speeds when inside, sent back to the top otherwise, with
    the abscissa [_.random (0, width)] computes from some oracle entry. *)
Definition star_step (rand : nat -> Q) (p : Parallax) (speed : Vec)
    (a b : Star) : Prop :=
  if isInside p (star_x a) (star_y a)
  then star_x b = star_x a + (vec_x speed + vec_x (star_speed a))
       /\ star_y b = star_y a + (vec_y speed + vec_y (star_speed a))
  else star_y b = 1
       /\ exists n, star_x b
                    = inject_Z (base_draw rand 0 (width p) n - 0) + inject_Z 0.

(** What [update] keeps of a layer object: its settings, and the number,
    colours and speeds of its stars. *)
Definition stars_frame (o o' : option (list Star)) : Prop :=
  match o, o' with
  | Some a, Some b => Forall2 same_look a b
  | None, None => True
  | _, _ => False
  end.

Definition layer_frame (L L' : Layer) : Prop :=
  same_settings L L' /\ stars_frame (layer_stars L) (layer_stars L').

(** A computation that never assigns a field of [this] and never calls
    [calculate], however it ends. *)
Definition quiet {A : Type} (m : M A) : Prop :=
  forall s, self (final (m s)) = self s /\ calcs (final (m s)) = calcs s.

(** A computation that, started after a [pause], does not call
    [calculate] and leaves [restarted] set. *)
Definition calm {A : Type} (m : M A) : Prop :=
  forall s, restarted (self s) = true ->
            restarted (self (final (m s))) = true
            /\ calcs (final (m s)) = calcs s.

(** A computation that, however it ends, keeps in every layer object
    the settings and the number, colours and speeds of the stars. *)
Definition framed {A : Type} (m : M A) : Prop :=
  forall s, Forall2 layer_frame (heap s) (heap (final (m s))).

Definition mid_oracle : nat -> Q := fun _ => 1 # 2.
Definition high_oracle : nat -> Q := fun _ => 999 # 1000.

(** A page whose only container is node [7], matched by [#sky]. *)
Definition one_container (selector : string) : list element :=
  if String.eqb selector "#sky" then [7%nat] else [].
Definition sized_100_101 (e : element) : Z * Z := (100%Z, 101%Z).

(** The instance [new Parallax ('#sky')] builds on that page when the
    container measures 100 by 101 pixels, and the state it starts in. *)
Definition sky : Parallax :=
  mkParallax 7%nat [] default_palette default_palette [0; 1; 2]%nat [0; 1; 2]%nat
             100 101 false false.
Definition sky_state : State :=
  mkState sky (default_layers default_palette) 0 [] 0 (100%Z, 101%Z) 0.

(** [sky] once [calculate] has run with every draw equal to 1/2. *)
Definition sky_seeded : State :=
  Eval vm_compute in final (calculate mid_oracle sky_state).

(** [new Parallax ('#sky', undefined, [L, L])]: one caller layer object,
    at reference 0, listed twice; the unused defaults sit at 1, 2, 3. *)
Definition twin_layer : Layer :=
  mkLayer 1 (Some (mkVec 0 (1 # 2))) None None None.
Definition twin : Parallax :=
  mkParallax 7%nat [] default_palette default_palette [1; 2; 3]%nat
             [0; 0]%nat 100 101 false false.
Definition twin_state : State :=
  mkState twin (twin_layer :: default_layers default_palette) 0 [] 0
          (100%Z, 101%Z) 0.

(** ** Further helpers and the properties stated about them *)

(** ASCII case folding, as the flag [i] of a pattern sees letters. *)
Definition to_upper (c : ascii) : ascii :=
  let n := nat_of_ascii c in
  if ((97 <=? n) && (n <=? 122))%nat then ascii_of_nat (n - 32) else c.

Definition to_lower (c : ascii) : ascii :=
  let n := nat_of_ascii c in
  if ((65 <=? n) && (n <=? 90))%nat then ascii_of_nat (n + 32) else c.

Fixpoint string_map (f : ascii -> ascii) (s : string) : string :=
  match s with
  | EmptyString => EmptyString
  | String c rest => String (f c) (string_map f rest)
  end.

(** Every layer of [this.layers] is an object holding a star array. *)
Definition ready (s : State) : Prop :=
  forall l, In l (layers (self s)) ->
            exists L stars, heap s !! l = Some L /\ layer_stars L = Some stars.

(** Every layer of [this.layers] is an object with a [speed]. *)
Definition moving (s : State) : Prop :=
  forall l, In l (layers (self s)) ->
            exists L speed, heap s !! l = Some L /\ layer_speed L = Some speed.

(** The rectangles [render] paints for the layer object at [l]. *)
Definition layer_fills (h : list Layer) (l : nat) : list draw :=
  match h !! l with
  | Some L =>
      match layer_stars L with
      | Some stars =>
          map (fun star => FillRect (star_color star) (star_x star)
                                    (star_y star) (layer_size L) (layer_size L))
              stars
      | None => []
      end
  | None => []
  end.

(** The colour and the speed [calculate] gives a star of the layer [L]. *)
Definition dressed (p : Parallax) (L : Layer) (star : Star) : Prop :=
  (palette p L = [] -> star_color star = None)
  /\ (palette p L <> [] ->
      exists c, star_color star = Some c /\ In c (palette p L))
  /\ vec_x (star_speed star) = 0
  /\ 0 <= vec_y (star_speed star) /\ vec_y (star_speed star) < 5 # 100.

(** The value of [previous] after the stars [news] have been generated. *)
Definition previous_after (previous : jsnum * jsnum) (news : list Star)
  : jsnum * jsnum :=
  match last news with
  | Some star => (Num (star_x star), Num (star_y star))
  | None => previous
  end.

(** A page on which every selector matches the two nodes 7 and 8. *)
Definition two_containers (selector : string) : list nat := [7%nat; 8%nat].

(** [sky] on a container that has collapsed to width 0. *)
Definition flat_state : State :=
  mkState (with_size 0 101 sky) (default_layers default_palette) 0 [] 0
          (0%Z, 101%Z) 0.

(** [sky] on a container of 50 by 100, and an instance of 10 by 10 whose
    only layer has density [0.07]. *)
Definition sky_50_100 : State :=
  mkState (with_size 50 100 sky) (default_layers default_palette) 0 [] 0
          (50%Z, 100%Z) 0.
Definition dense_state : State :=
  mkState (mkParallax 7%nat [] default_palette default_palette [1; 2; 3]%nat
                      [0]%nat 10 10 false false)
          (mkLayer 1 (Some (mkVec 0 (1 # 2))) (Some (to_double (7 # 100)))
                   None None
           :: default_layers default_palette)
          0 [] 0 (10%Z, 10%Z) 0.

(** The seeded [sky] with the [speed] of its first layer removed. *)
Definition sky_slow : State :=
  with_heap
    (match heap sky_seeded with
     | L :: rest =>
         mkLayer (layer_size L) None (layer_density L) (layer_colors L)
                 (layer_stars L) :: rest
     | [] => []
     end)
    sky_seeded.

(** The seeded [sky] after the host has shrunk the container to 50 by 40. *)
Definition sky_shrunk : State :=
  mkState (self sky_seeded) (heap sky_seeded) (tape sky_seeded) [] 0
          (50%Z, 40%Z) 1.

Section Runs.

Variable rand : nat -> Q.

(** Every call of the sequence returns normally. *)
Fixpoint runs (cs : list call) (s : State) : Prop :=
  match cs with
  | [] => True
  | c :: cs' => exists s', perform rand c s = Ok tt s' /\ runs cs' s'
  end.

End Runs.

(** ** Numbers and the helpers *)

Lemma Qlt_bool_iff (a b : Q) : Qlt_bool a b = true <-> a < b.
Proof.
  unfold Qlt_bool. rewrite negb_true_iff. split.
  - intros H. apply Qnot_le_lt. intros Hle.
    apply Qle_bool_iff in Hle. congruence.
  - intros H. destruct (Qle_bool b a) eqn:E; [|reflexivity].
    apply Qle_bool_iff in E. exfalso. exact (Qlt_not_le _ _ H E).
Qed.

Lemma Qlt_bool_irrefl (a b : Q) : a == b -> Qlt_bool a b = false.
Proof.
  intros E. destruct (Qlt_bool a b) eqn:H; [|reflexivity].
  apply Qlt_bool_iff in H. rewrite E in H. exfalso. exact (Qlt_irrefl _ H).
Qed.

(** Scaling a draw from [[0, 1)] by a positive integer [n] and rounding
    down gives one of [0 .. n - 1]. *)
Lemma floor_scale (r : Q) (n : Z) :
  0 <= r -> r < 1 -> (0 < n)%Z -> (0 <= Qfloor (r * inject_Z n) < n)%Z.
Proof.
  intros H0 H1 Hn.
  assert (Hq : inject_Z 0 < inject_Z n) by (rewrite <- Zlt_Qlt; exact Hn).
  split.
  - change 0%Z with (Qfloor 0). apply Qfloor_resp_le.
    apply Qmult_le_0_compat; [exact H0 | apply Qlt_le_weak; exact Hq].
  - rewrite Zlt_Qlt. eapply Qle_lt_trans; [apply Qfloor_le|].
    apply Qlt_le_trans with (1 * inject_Z n).
    + apply Qmult_lt_compat_r; assumption.
    + rewrite Qmult_1_l. apply Qle_refl.
Qed.

(** Rounding to a double depends on the value, not on the fraction that
    denotes it. *)
Lemma to_double_wd (q1 q2 : Q) : q1 == q2 -> to_double q1 = to_double q2.
Proof.
  intros E. unfold to_double. rewrite (Qred_complete _ _ E). reflexivity.
Qed.

Lemma round_half_even_nonneg (q : Q) : 0 <= q -> (0 <= round_half_even q)%Z.
Proof.
  intros H. unfold round_half_even.
  assert (0 <= Qfloor q)%Z.
  { change 0%Z with (Qfloor 0). apply Qfloor_resp_le. exact H. }
  destruct (Qcompare _ _); [destruct (Z.even _)| |]; lia.
Qed.

(** The magnitude of a double: a multiple of a positive unit. *)
Lemma to_double_magnitude (a : Q) (e : Z) :
  0 <= a -> 0 <= inject_Z (round_half_even (a / Qpower 2 e)) * Qpower 2 e.
Proof.
  intros Ha.
  assert (Hu : 0 < Qpower 2 e) by (apply Qpower_0_lt; reflexivity).
  apply Qmult_le_0_compat; [|apply Qlt_le_weak; exact Hu].
  change 0 with (inject_Z 0). rewrite <- Zle_Qle.
  apply round_half_even_nonneg.
  apply Qle_shift_div_l; [exact Hu|]. rewrite Qmult_0_l. exact Ha.
Qed.

(** Rounding keeps the sign. *)
Lemma to_double_nonneg (q : Q) : 0 <= q -> 0 <= to_double q.
Proof.
  intros H. unfold to_double.
  assert (Hr : 0 <= Qred q) by (rewrite Qred_correct; exact H).
  destruct (Qnum (Qred q)) eqn:En; [apply Qle_refl| |].
  - cbn [Z.ltb Z.compare]. apply to_double_magnitude. apply Qabs_nonneg.
  - exfalso. unfold Qle in Hr. rewrite En in Hr. cbn in Hr. lia.
Qed.

Lemma to_double_nonpos (q : Q) : q <= 0 -> to_double q <= 0.
Proof.
  intros H. unfold to_double.
  assert (Hr : Qred q <= 0) by (rewrite Qred_correct; exact H).
  destruct (Qnum (Qred q)) eqn:En; [apply Qle_refl| |].
  - exfalso. unfold Qle in Hr. rewrite En in Hr. cbn in Hr. lia.
  - cbn [Z.ltb Z.compare].
    apply (Qopp_le_compat 0). apply to_double_magnitude. apply Qabs_nonneg.
Qed.

(** The literals and products met below, as doubles: [0.07 * 100] is
    not [7], and [0.0002 * 5000] is [1] although the double [0.0002] exceeds
    1/5000. *)
Example to_double_samples :
  Qred (to_double (1 # 10)) = 3602879701896397 # 36028797018963968
  /\ to_double (inject_Z 10100) == 10100
  /\ 7 < to_double (to_double (7 # 100) * 100)
  /\ 1 # 5000 < to_double (1 # 5000)
  /\ to_double (to_double (1 # 5000) * 5000) == 1.
Proof. vm_compute. repeat split. Qed.

(** [density || 1/5000], case by case. *)
Lemma density_cases (L : Layer) :
  (layer_density L = None -> density_or_default L = to_double (1 # 5000))
  /\ (forall d, layer_density L = Some d -> d == 0 ->
        density_or_default L = to_double (1 # 5000))
  /\ (forall d, layer_density L = Some d -> ~ d == 0 ->
        density_or_default L = d).
Proof.
  unfold density_or_default. split; [|split].
  - intros ->. reflexivity.
  - intros d -> E. apply Qeq_bool_iff in E. rewrite E. reflexivity.
  - intros d -> E. destruct (Qeq_bool d 0) eqn:B; [|reflexivity].
    apply Qeq_bool_iff in B. contradiction.
Qed.

(** C4. [isInside (x, y)] is true exactly when [0 < x < width + 10] and
    [0 < y < height + 10]; it is false on each of the four boundary
    equalities [x = 0], [x = width + 10], [y = 0] and [y = height + 10]. *)
Theorem isInside_open_box (p : Parallax) (x y : Q) :
  (isInside p x y = true <->
   (0 < x /\ x < inject_Z (width p) + 10) /\
   (0 < y /\ y < inject_Z (height p) + 10))
  /\ isInside p 0 y = false
  /\ isInside p (inject_Z (width p) + 10) y = false
  /\ isInside p x 0 = false
  /\ isInside p x (inject_Z (height p) + 10) = false.
Proof.
  unfold isInside, fadeDistance. split; [|split; [|split; [|split]]].
  - rewrite !andb_true_iff, !Qlt_bool_iff. tauto.
  - rewrite (Qlt_bool_irrefl 0 0) by reflexivity. reflexivity.
  - rewrite (Qlt_bool_irrefl (inject_Z (width p) + 10) _) by reflexivity.
    rewrite andb_false_r. reflexivity.
  - rewrite (Qlt_bool_irrefl 0 0) by reflexivity.
    rewrite andb_false_r. reflexivity.
  - rewrite (Qlt_bool_irrefl (inject_Z (height p) + 10) _) by reflexivity.
    rewrite !andb_false_r. reflexivity.
Qed.

(** On [sky] (100 by 101): the point (109, 110) is inside, and (110, 5),
    on the right boundary, is not. *)
Lemma isInside_open_box_witness :
  isInside sky 109 110 = true /\ isInside sky (inject_Z (width sky) + 10) 5 = false.
Proof.
  pose proof (isInside_open_box sky 109 110) as [W _].
  pose proof (isInside_open_box sky 109 5) as (_ & _ & B & _).
  split; [|exact B].
  apply W. repeat split.
Defined.

Section RandomFacts.

Variable rand : nat -> Q.
Hypothesis rand_unit : unit_interval rand.

Lemma base_draw_range (min max : Z) (n : nat) :
  (min <= max)%Z -> (min <= base_draw rand min max n <= max)%Z.
Proof.
  intros Hle. unfold base_draw.
  destruct (rand_unit n) as [H0 H1].
  pose proof (floor_scale (rand n) (max - min + 1) H0 H1) as F.
  lia.
Qed.

(** What one call of [_.random] computes, and the draws it makes. *)
Lemma random_run (min max : Z) (previous : jsnum) (spread : option Q)
    (s : State) :
  random rand min max previous spread s =
  let value := inject_Z (base_draw rand min max (tape s) - min) + inject_Z min in
  match ToNumber previous with
  | Some p =>
      if Qle_bool (spread_or_default spread) (Qabs (value - p))
      then Ok (value + rand (S (tape s)) * 20) (with_tape (S (S (tape s))) s)
      else Ok value (with_tape (S (tape s)) s)
  | None => Ok value (with_tape (S (tape s)) s)
  end.
Proof.
  unfold random, base_draw, bind, Math_random, ret.
  replace (Qfloor (rand (tape s) * inject_Z (max - min + 1)) + min - min)%Z
    with (Qfloor (rand (tape s) * inject_Z (max - min + 1))) by lia.
  cbn beta zeta.
  destruct (ToNumber previous) as [p|]; [|reflexivity].
  destruct (Qle_bool _ _); reflexivity.
Qed.

Lemma split_base (b min : Z) :
  inject_Z (b - min) + inject_Z min == inject_Z b.
Proof. rewrite <- inject_Z_plus. replace (b - min + min)%Z with b by lia. reflexivity. Qed.

Lemma jitter_range (n : nat) : 0 <= rand n * 20 /\ rand n * 20 < 20.
Proof.
  destruct (rand_unit n) as [H0 H1]. split.
  - apply Qmult_le_0_compat; [exact H0 | discriminate].
  - apply Qlt_le_trans with (1 * 20).
    + apply Qmult_lt_compat_r; [reflexivity | exact H1].
    + apply Qle_refl.
Qed.

(** The result of [_.random] is the integer drawn from the current
    oracle entry, alone or with the jitter of the next one, whatever
    [previous] is; the call only draws. *)
Lemma random_bounds (min max : Z) (previous : jsnum) (spread : option Q)
    (s : State) :
  exists v n, random rand min max previous spread s = Ok v (with_tape n s)
              /\ drawn rand min max v.
Proof.
  rewrite random_run. cbn zeta.
  pose proof (split_base (base_draw rand min max (tape s)) min) as E.
  destruct (ToNumber previous) as [p|]; [destruct (Qle_bool _ _)|];
    eexists _, _; (split; [reflexivity|]); exists (tape s).
  - right. rewrite E. reflexivity.
  - left. exact E.
  - left. exact E.
Qed.

Lemma drawn_range (min max : Z) (v : Q) :
  (min <= max)%Z -> drawn rand min max v ->
  inject_Z min <= v /\ v < inject_Z max + 20.
Proof.
  intros Hle [n Hv].
  destruct (base_draw_range min max n Hle) as [Hlo Hhi].
  destruct (jitter_range (S n)) as [J0 J1].
  rewrite Zle_Qle in Hlo, Hhi.
  assert (H20 : inject_Z max + 0 < inject_Z max + 20).
  { rewrite Qplus_lt_r. reflexivity. }
  rewrite Qplus_0_r in H20.
  destruct Hv as [Hv|Hv]; rewrite Hv; split.
  - exact Hlo.
  - eapply Qle_lt_trans; [exact Hhi | exact H20].
  - apply Qle_trans with (inject_Z (base_draw rand min max n) + 0).
    + rewrite Qplus_0_r. exact Hlo.
    + apply Qplus_le_r. exact J0.
  - apply Qle_lt_trans with (inject_Z max + rand (S n) * 20).
    + apply Qplus_le_l. exact Hhi.
    + apply Qplus_lt_r. exact J1.
Qed.

End RandomFacts.

Lemma mid_oracle_unit : unit_interval mid_oracle.
Proof. intros n. split; [discriminate | reflexivity]. Qed.

Lemma high_oracle_unit : unit_interval high_oracle.
Proof. intros n. split; [discriminate | reflexivity]. Qed.

(** C8, as stated, fails when the caller passes [spread = 0]: the code
    replaces it by 25.  With every draw equal to 1/2, [_.random (0, 10, 0, 0)]
    draws 5, at distance [5 >= 0] from [previous], and returns 5 after one
    draw, not 5 plus the jitter [0.5 * 20]. *)
Lemma random_zero_spread_fails :
  ~ (forall (rand : nat -> Q) (min max : Z) (previous spread : Q) (s : State),
        unit_interval rand -> (min <= max)%Z ->
        let base :=
          (Qfloor (rand (tape s) * inject_Z (max - min + 1)) + min)%Z in
        spread <= Qabs (inject_Z base - previous) ->
        exists v,
          random rand min max (Num previous) (Some spread) s
          = Ok v (with_tape (S (S (tape s))) s)
          /\ v == inject_Z base + rand (S (tape s)) * 20).
Proof.
  intros claim.
  destruct (claim mid_oracle 0%Z 10%Z 0 0 sky_state mid_oracle_unit
                  ltac:(lia) ltac:(vm_compute; discriminate)) as (v & E & _).
  vm_compute in E. discriminate E.
Qed.

(** C8, amended.  [_.random (min, max, previous, spread)] first draws an
    integer [base] of [[min, max]].  The threshold is [spread] when the caller
    passes a number other than 0, and 25 when [spread] is left out or is 0.
    With [previous] a number ([null] counting as 0) at distance at least the
    threshold from [base], the jitter [Math.random () * 20], of [[0, 20)], is
    added and nothing is clamped; closer than that, or with [previous]
    undefined, the result is [base] itself.  The jitter does take the result
    out of [[min, max]]: some draws give more than [max]. *)
Theorem random_spec (rand : nat -> Q) (min max : Z) (previous : jsnum)
    (spread : option Q) (s : State) :
  unit_interval rand -> (min <= max)%Z ->
  let base := (Qfloor (rand (tape s) * inject_Z (max - min + 1)) + min)%Z in
  let jitter := rand (S (tape s)) * 20 in
  let with_threshold := fun threshold : Q =>
    forall p, ToNumber previous = Some p ->
      (threshold <= Qabs (inject_Z base - p) ->
       exists v, random rand min max previous spread s
                 = Ok v (with_tape (S (S (tape s))) s)
                 /\ v == inject_Z base + jitter)
      /\ (Qabs (inject_Z base - p) < threshold ->
          exists v, random rand min max previous spread s
                    = Ok v (with_tape (S (tape s)) s)
                    /\ v == inject_Z base) in
  (min <= base <= max)%Z
  /\ 0 <= jitter /\ jitter < 20
  /\ (previous = Undefined ->
      exists v, random rand min max previous spread s
                = Ok v (with_tape (S (tape s)) s)
                /\ v == inject_Z base)
  /\ (spread = None -> with_threshold 25)
  /\ (forall sp, spread = Some sp -> sp == 0 -> with_threshold 25)
  /\ (forall sp, spread = Some sp -> ~ sp == 0 -> with_threshold sp)
  /\ (forall s0, exists v s', random high_oracle 0 100 (Num 0) None s0 = Ok v s'
                              /\ inject_Z 100 < v).
Proof.
  intros Hr Hle base jitter with_threshold.
  change base with (base_draw rand min max (tape s)) in *.
  set (b := base_draw rand min max (tape s)) in *.
  pose proof (split_base b min) as E.
  destruct (jitter_range rand Hr (S (tape s))) as [J0 J1].
  assert (Hcases : forall threshold,
             spread_or_default spread = threshold -> with_threshold threshold).
  { intros threshold Ht p Hp. split.
    - intros Hfar. rewrite random_run. cbn zeta. rewrite Hp, Ht. fold b.
      assert (Hb : Qle_bool threshold
                     (Qabs (inject_Z (b - min) + inject_Z min - p)) = true).
      { apply Qle_bool_iff. rewrite E. exact Hfar. }
      rewrite Hb. eexists. split; [reflexivity|].
      unfold jitter. rewrite E. reflexivity.
    - intros Hnear. rewrite random_run. cbn zeta. rewrite Hp, Ht. fold b.
      assert (Hb : Qle_bool threshold
                     (Qabs (inject_Z (b - min) + inject_Z min - p)) = false).
      { destruct (Qle_bool _ _) eqn:B; [|reflexivity].
        apply Qle_bool_iff in B. rewrite E in B.
        exfalso. exact (Qlt_not_le _ _ Hnear B). }
      rewrite Hb. eexists. split; [reflexivity | exact E]. }
  split; [apply base_draw_range; assumption|].
  split; [exact J0|]. split; [exact J1|].
  split; [|split; [|split; [|split]]].
  - intros ->. eexists. rewrite random_run. cbn. split; [reflexivity|exact E].
  - intros ->. apply Hcases. reflexivity.
  - intros sp -> E0. apply Hcases. cbn [spread_or_default].
    apply Qeq_bool_iff in E0. rewrite E0. reflexivity.
  - intros sp -> E0. apply Hcases. cbn [spread_or_default].
    destruct (Qeq_bool sp 0) eqn:B; [|reflexivity].
    apply Qeq_bool_iff in B. contradiction.
  - intros s0.
    exists (inject_Z (100 - 0) + inject_Z 0 + (999 # 1000) * 20),
           (with_tape (S (S (tape s0))) s0).
    split; [rewrite random_run|]; reflexivity.
Qed.

(** [_.random (0, 10, 0, 3)] with every draw equal to 1/2: the integer 5
    is at distance [5 >= 3] from [previous], and [5 + 10] is returned after
    two draws. *)
Lemma random_spec_witness :
  exists v, random mid_oracle 0 10 (Num 0) (Some 3) sky_state
            = Ok v (with_tape 2 sky_state)
            /\ v == 15.
Proof.
  pose proof (random_spec mid_oracle 0 10 (Num 0) (Some 3) sky_state
                mid_oracle_unit ltac:(lia)) as W.
  cbv zeta in W. destruct W as (_ & _ & _ & _ & _ & _ & W & _).
  destruct (W 3 eq_refl ltac:(discriminate) 0 eq_refl) as [Wfar _].
  destruct (Wfar ltac:(vm_compute; discriminate)) as (v & E & Hv).
  exists v. split; [exact E|]. rewrite Hv. reflexivity.
Defined.

(** ** The constructor *)

Lemma check_colors_spec (cs errs console : list string) :
  check_colors cs errs console
  = (errs ++ invalid_tokens cs,
     console ++ map rejected_line (invalid_tokens cs)).
Proof.
  revert errs console.
  induction cs as [|c cs IH]; intros errs console; simpl.
  - rewrite !app_nil_r. reflexivity.
  - unfold isHex. destruct (hex_pattern c); simpl; rewrite IH.
    + reflexivity.
    + rewrite <- !app_assoc. reflexivity.
Qed.

Lemma invalid_tokens_nil (cs : list string) :
  invalid_tokens cs = [] <-> forallb hex_pattern cs = true.
Proof.
  unfold invalid_tokens. induction cs as [|c cs IH]; simpl.
  - tauto.
  - destruct (hex_pattern c); simpl; [exact IH|].
    split; discriminate.
Qed.

Lemma positive_length {A : Type} (l : list A) :
  l <> [] -> (0 <? length l)%nat = true.
Proof. destruct l; [congruence | reflexivity]. Qed.

(** C6. When some supplied token is not a valid hex colour, the loop
    still tests every token: [this.errors.colors] ends up holding all the
    rejected tokens, in order, each of them was logged by [_.isHex], and only
    then the body lists them and returns [false] with no palette and no
    layers set.  A token is reported exactly when it was supplied and fails
    the pattern. *)
Theorem invalid_colors_all_reported (document : string -> list element)
    (computed : element -> Z * Z) (sel : string) (colors : colors_arg)
    (cs : list string) (layers : option (list loc)) (merge : bool)
    (h : list Layer) :
  get document sel <> NotFound ->
  as_array colors = Some cs ->
  invalid_tokens cs <> [] ->
  let c := constructor document computed sel colors layers merge h in
  ctor_completion c = Return (Prim false)
  /\ this_errors (ctor_this c) = invalid_tokens cs
  /\ ctor_console c
     = (map rejected_line (invalid_tokens cs)
        ++ ["The following colors are incorrect :"%string]
        ++ map (fun e => ("- " ++ e)%string) (invalid_tokens cs))
  /\ this_colors (ctor_this c) = None
  /\ this_layers (ctor_this c) = None
  /\ (forall t, In t (invalid_tokens cs) <-> In t cs /\ hex_pattern t = false).
Proof.
  intros Hfound Harr Hbad c.
  assert (Hc : c = mkConstructed
                     (mkThis (get document sel) (invalid_tokens cs)
                             (Some default_palette) None None None None None)
                     (Return (Prim false)) h
                     (map rejected_line (invalid_tokens cs)
                      ++ ["The following colors are incorrect :"%string]
                      ++ map (fun e => ("- " ++ e)%string) (invalid_tokens cs))).
  { subst c. unfold constructor. cbn [this_container this_errors this_defaultColors].
    rewrite Harr, check_colors_spec. cbn [app].
    rewrite (positive_length _ Hbad).
    destruct (get document sel); [congruence | reflexivity | reflexivity]. }
  rewrite Hc. cbn. repeat split; try reflexivity.
  - apply filter_In in H. tauto.
  - apply filter_In in H. apply negb_true_iff. tauto.
  - intros [Hin Hf]. apply filter_In. split; [exact Hin|].
    rewrite Hf. reflexivity.
Qed.

Lemma sky_found : get one_container "#sky" <> NotFound.
Proof. discriminate. Qed.

(** The scenario [colors = ["#ff0000", "notacolor"]]: exactly
    ["notacolor"] is reported. *)
Lemma invalid_colors_all_reported_witness :
  let c := constructor one_container sized_100_101 "#sky"
             (ColorArray ["#ff0000"; "notacolor"]%string) None false [] in
  ctor_completion c = Return (Prim false)
  /\ this_errors (ctor_this c) = ["notacolor"%string].
Proof.
  pose proof (invalid_colors_all_reported one_container sized_100_101 "#sky"
                (ColorArray ["#ff0000"; "notacolor"]%string)
                ["#ff0000"; "notacolor"]%string None false []
                sky_found eq_refl ltac:(discriminate)) as W.
  cbv zeta in W. destruct W as (W1 & W2 & _).
  split; [exact W1 | exact W2].
Defined.

(** C7. With a container and accepted colours the constructor allocates
    the three default layers (sizes 3, 2, 1; speeds (0, 0.5), (0, 0.3),
    (0, 0.2); the resolved palette; no density, no stars) after the caller's
    objects, and [this.layers] is: those three when no layers are supplied;
    those three followed by the supplied ones, in order, when [mergeLayers]
    holds; the supplied ones alone otherwise. *)
Theorem layers_resolved (document : string -> list element)
    (computed : element -> Z * Z) (sel : string) (colors : colors_arg)
    (layers : option (list loc)) (merge : bool) (h : list Layer)
    (e : element) :
  get document sel = Element e ->
  colors_ok colors ->
  let c := constructor document computed sel colors layers merge h in
  let n := length h in
  let pal := resolved_palette colors in
  ctor_completion c = Normal
  /\ this_colors (ctor_this c) = Some pal
  /\ ctor_heap c
     = h ++ [ mkLayer 3 (Some (mkVec 0 (5 # 10))) None (Some pal) None;
              mkLayer 2 (Some (mkVec 0 (3 # 10))) None (Some pal) None;
              mkLayer 1 (Some (mkVec 0 (2 # 10))) None (Some pal) None ]
  /\ this_defaultLayers (ctor_this c) = Some [n; S n; S (S n)]
  /\ (layers = None ->
      this_layers (ctor_this c) = Some [n; S n; S (S n)])
  /\ (forall ls, layers = Some ls -> merge = true ->
      this_layers (ctor_this c) = Some ([n; S n; S (S n)] ++ ls))
  /\ (forall ls, layers = Some ls -> merge = false ->
      this_layers (ctor_this c) = Some ls).
Proof.
  intros Hfound Hok c n pal. subst c. unfold constructor.
  cbn [this_container this_errors this_defaultColors]. rewrite Hfound.
  unfold colors_ok in Hok. unfold resolved_palette in pal. subst pal.
  destruct (as_array colors) as [cs|].
  - rewrite check_colors_spec.
    apply invalid_tokens_nil in Hok. rewrite Hok. cbn.
    repeat split; try reflexivity.
    + intros ->. reflexivity.
    + intros ls -> ->. reflexivity.
    + intros ls -> ->. reflexivity.
  - cbn. repeat split; try reflexivity.
    + intros ->. reflexivity.
    + intros ls -> ->. reflexivity.
    + intros ls -> ->. reflexivity.
Qed.

(** Custom layers [[L]] merged on the page of [sky]: the caller's one
    layer object sits at reference 0, the defaults at 1, 2, 3. *)
Lemma layers_resolved_witness :
  this_layers
    (ctor_this (constructor one_container sized_100_101 "#sky" NoColors
                  (Some [0%nat]) true
                  [mkLayer 5 (Some (mkVec 1 1)) None None None]))
  = Some [1; 2; 3; 0]%nat.
Proof.
  pose proof (layers_resolved one_container sized_100_101 "#sky" NoColors
                (Some [0%nat]) true
                [mkLayer 5 (Some (mkVec 1 1)) None None None]
                7%nat eq_refl I) as W.
  cbv zeta in W. destruct W as (_ & _ & _ & _ & _ & W & _).
  exact (W [0%nat] eq_refl eq_refl).
Defined.

(** The instance [sky] is what the constructor builds on its page. *)
Lemma sky_constructed :
  exists o, new_Parallax one_container sized_100_101 "#sky" NoColors None
                         false [] = inl (Object o)
            /\ instance_of o = Some sky
            /\ ctor_heap (constructor one_container sized_100_101 "#sky"
                            NoColors None false []) = heap sky_state.
Proof. eexists. repeat split. Qed.

(** C3, evaluated.  [new] never yields a primitive: a [return false] of
    the body is discarded and the object under construction is the result.
    With a selector matching nothing the caller receives an object holding
    only [container] (undefined) and [errors]; with a rejected colour, one
    holding [container], [errors] and [defaultColors].  Neither is a usable
    instance, and neither is the value [false]. *)
Theorem construction_failure_yields_object :
  (forall document computed sel colors layers merge h b,
      new_Parallax document computed sel colors layers merge h
      <> inl (Prim b))
  /\ ctor_completion (constructor one_container sized_100_101 "#nowhere"
                        NoColors None false []) = Return (Prim false)
  /\ new_Parallax one_container sized_100_101 "#nowhere" NoColors None false []
     = inl (Object (mkThis NotFound [] None None None None None None))
  /\ ctor_completion (constructor one_container sized_100_101 "#sky"
                        (ColorArray ["#ff0000"; "notacolor"]%string)
                        None false []) = Return (Prim false)
  /\ new_Parallax one_container sized_100_101 "#sky"
                  (ColorArray ["#ff0000"; "notacolor"]%string) None false []
     = inl (Object (mkThis (Element 7%nat) ["notacolor"%string]
                           (Some default_palette) None None None None None))
  /\ instance_of (mkThis NotFound [] None None None None None None) = None
  /\ instance_of (mkThis (Element 7%nat) ["notacolor"%string]
                         (Some default_palette) None None None None None)
     = None.
Proof.
  split; [|repeat split].
  intros document computed sel colors layers merge h b.
  unfold new_Parallax.
  destruct (ctor_completion _) as [|[b'|o]|err]; discriminate.
Qed.

(** ** [calculate] *)

Lemma ceiling_le (b : Q) (i : Z) : b <= inject_Z i -> (Qceiling b <= i)%Z.
Proof.
  intros H. rewrite <- (Qceiling_Z i). apply Qceiling_resp_le. exact H.
Qed.

Lemma ceiling_gt (b : Q) (i : Z) : inject_Z i < b -> (i < Qceiling b)%Z.
Proof.
  intros H. apply Z.lt_nge. intros Hc. apply (Qlt_not_le _ _ H).
  eapply Qle_trans; [apply Qle_ceiling|]. rewrite <- Zle_Qle. exact Hc.
Qed.

Lemma with_tape_self (s : State) : with_tape (tape s) s = s.
Proof. destruct s; reflexivity. Qed.

Section CalculateFacts.

Variable rand : nat -> Q.

(** [_.random] always returns, and only draws from the oracle. *)
Lemma random_total (min max : Z) (previous : jsnum) (spread : option Q)
    (s : State) :
  exists v n, random rand min max previous spread s = Ok v (with_tape n s)
              /\ drawn rand min max v.
Proof. apply random_bounds. Qed.

Lemma pick_total {A : Type} (array : list A) (s : State) :
  exists a n, pick rand array s = Ok a (with_tape n s).
Proof.
  unfold pick, bind.
  destruct (random_total 0 (Z.of_nat (length array) - 1) Undefined None s)
    as (v & n & E & _).
  rewrite E. eexists _, _. reflexivity.
Qed.

Lemma new_star_run (l : loc) (previous : jsnum * jsnum) (s : State)
    (L : Layer) :
  heap s !! l = Some L ->
  exists star n, new_star rand l previous s = Ok star (with_tape n s)
                 /\ spawned rand (self s) star.
Proof.
  intros HL. unfold new_star, bind, get_self.
  destruct (random_total (-10) (width (self s)) (fst previous) None s)
    as (x & n1 & Ex & Bx).
  rewrite Ex.
  destruct (random_total (-10) (height (self s)) (snd previous) None
                         (with_tape n1 s)) as (y & n2 & Ey & By).
  rewrite Ey. unfold deref. cbn [heap with_tape]. rewrite HL.
  destruct (pick_total (palette (self s) L) (with_tape n2 (with_tape n1 s)))
    as (c & n3 & Ec).
  rewrite Ec. unfold Math_random, ret.
  eexists _, _. split; [reflexivity|].
  split; cbn [star_x star_y]; assumption.
Qed.

(** The inner loop of [calculate] always ends; from index [i] it adds
    one star for every integer of [[i, bound)]. *)
Lemma star_loop_run (l : loc) (bound : Q) (i : Z) (stars : list Star)
    (previous : jsnum * jsnum) (s : State) :
  forall (s0 : State) (m : nat) (L : Layer),
    s = with_tape m s0 ->
    heap s0 !! l = Some L ->
    Forall (spawned rand (self s0)) stars ->
    exists stars' prev' n,
      star_loop rand l bound i stars previous s
      = Ok (stars', prev') (with_tape n s0)
      /\ length stars' = (length stars + Z.to_nat (Qceiling bound - i))%nat
      /\ Forall (spawned rand (self s0)) stars'.
Proof.
  funelim (star_loop rand l bound i stars previous s);
    intros s0 m L Hs HL Hstars.
  - exists stars, previous, m. subst s. split; [reflexivity|].
    split; [|exact Hstars].
    pose proof (ceiling_le _ _ q0). lia.
  - subst s.
    destruct (new_star_run l previous (with_tape m s0) L HL)
      as (star' & n & E & Hsp).
    rewrite E in Heq. injection Heq as <- <-.
    destruct (H s0 n L eq_refl HL) as (stars' & prev' & n' & E' & Hlen & HP).
    { apply Forall_app. split; [exact Hstars|].
      constructor; [exact Hsp | constructor]. }
    exists stars', prev', n'. split; [exact E'|]. split; [|exact HP].
    rewrite Hlen, length_app. cbn [length].
    pose proof (ceiling_gt _ _ q). lia.
  - subst s.
    destruct (new_star_run l previous (with_tape m s0) L HL)
      as (star' & n & E & _).
    rewrite E in Heq. discriminate.
Qed.

Lemma same_settings_refl (L : Layer) : same_settings L L.
Proof. repeat split. Qed.

Lemma same_settings_set_stars (stars : list Star) (L : Layer) :
  same_settings L (set_stars stars L).
Proof. repeat split. Qed.

Lemma same_settings_insert (h : list Layer) (l : loc) (L L' : Layer) :
  h !! l = Some L -> same_settings L L' ->
  Forall2 same_settings h (<[l := L']> h).
Proof.
  intros HL HS. apply Forall2_same_length_lookup_2.
  - rewrite length_insert. reflexivity.
  - intros i a b Ha Hb.
    destruct (decide (l = i)) as [->|Hne].
    + rewrite list_lookup_insert_eq in Hb by (eapply lookup_lt_Some; eauto).
      replace a with L by congruence. replace b with L' by congruence.
      exact HS.
    + rewrite list_lookup_insert_ne in Hb by exact Hne.
      replace b with a by congruence. apply same_settings_refl.
Qed.

Lemma same_settings_trans (L1 L2 L3 : Layer) :
  same_settings L1 L2 -> same_settings L2 L3 -> same_settings L1 L3.
Proof. unfold same_settings. intros (?&?&?&?) (?&?&?&?). repeat split; congruence. Qed.

(** One turn of the outer loop: the layer object at [l] receives a
    fresh array of [star_count] stars; nothing else changes but the number
    of draws. *)
Lemma calculate_layer_run (previous : jsnum * jsnum) (l : loc) (s : State)
    (L : Layer) :
  heap s !! l = Some L ->
  exists stars prev' n,
    calculate_layer rand previous l s
    = Ok prev' (with_heap (<[l := set_stars stars L]> (heap s))
                          (with_tape n s))
    /\ length stars = star_count (self s) L
    /\ Forall (spawned rand (self s)) stars.
Proof.
  intros HL. unfold calculate_layer, bind, get_self, deref. rewrite HL.
  destruct (star_loop_run l (to_double (density_or_default L * area (self s)))
              0 [] previous s s (tape s) L
              (eq_sym (with_tape_self s)) HL (List.Forall_nil _))
    as (stars & prev' & n & E & Hlen & HP).
  rewrite E. cbn [heap with_tape]. rewrite HL. unfold store, ret.
  exists stars, prev', n. split; [reflexivity|]. split; [|exact HP].
  rewrite Hlen. unfold star_count. cbn [length].
  rewrite Z.sub_0_r. reflexivity.
Qed.

Lemma seeded_insert (p : Parallax) (h : list Layer) (l : loc) (L : Layer)
    (stars : list Star) :
  h !! l = Some L -> length stars = star_count p L ->
  Forall (spawned rand p) stars ->
  seeded rand p (<[l := set_stars stars L]> h) l.
Proof.
  intros HL Hlen HP. exists (set_stars stars L), stars.
  rewrite list_lookup_insert_eq by (eapply lookup_lt_Some; eauto).
  repeat split; assumption.
Qed.

(** The outer loop of [calculate] over the references [ls]: it ends
    normally when they all point into the store, leaves the settings of every
    layer object alone, does not touch the objects outside [ls], and seeds
    every object of [ls]. *)
Lemma calculate_layers_run (ls : list loc) :
  forall (previous : jsnum * jsnum) (s : State),
    Forall (fun l => (l < length (heap s))%nat) ls ->
    exists prev' h' n,
      calculate_layers rand previous ls s
      = Ok prev' (with_heap h' (with_tape n s))
      /\ Forall2 same_settings (heap s) h'
      /\ (forall l, ~ In l ls -> h' !! l = heap s !! l)
      /\ (forall l, In l ls -> seeded rand (self s) h' l).
Proof.
  induction ls as [|l ls IH]; intros previous s Hin.
  - exists previous, (heap s), (tape s). cbn.
    unfold ret. split; [destruct s; reflexivity|].
    split; [apply Forall2_same_length_lookup_2; [reflexivity|]|].
    + intros i a b Ha Hb. replace b with a by congruence.
      apply same_settings_refl.
    + split; [reflexivity | intros l []].
  - inversion Hin as [|? ? Hl Hls]; subst.
    destruct (lookup_lt_is_Some_2 _ _ Hl) as [L HL].
    destruct (calculate_layer_run previous l s L HL)
      as (stars & prev1 & n1 & E1 & Hlen & HP).
    cbn [calculate_layers]. unfold bind at 1. rewrite E1.
    set (s1 := with_heap (<[l := set_stars stars L]> (heap s))
                         (with_tape n1 s)) in *.
    destruct (IH prev1 s1) as (prev' & h' & n & E & HS & Hout & Hseed).
    { cbn [s1 heap with_heap with_tape]. rewrite length_insert. exact Hls. }
    exists prev', h', n. split; [rewrite E; reflexivity|].
    cbn [s1 heap with_heap with_tape self] in HS, Hout, Hseed.
    split; [|split].
    + apply Forall2_same_length_lookup_2.
      * rewrite <- (Forall2_length _ _ _ HS), length_insert. reflexivity.
      * intros i a b Ha Hb.
        pose proof (same_settings_insert (heap s) l L (set_stars stars L) HL
                      (same_settings_set_stars stars L)) as HS0.
        destruct (Forall2_lookup_l _ _ _ _ _ HS0 Ha) as (c & Hc & Hac).
        destruct (Forall2_lookup_l _ _ _ _ _ HS Hc) as (b' & Hb' & Hcb).
        replace b with b' by congruence.
        eapply same_settings_trans; eassumption.
    + intros l' Hl'. rewrite Hout by (intros H; apply Hl'; right; exact H).
      apply list_lookup_insert_ne. intros ->. apply Hl'. left. reflexivity.
    + intros l' [<-|Hl'].
      * destruct (in_dec Nat.eq_dec l ls) as [Hi|Hni]; [apply Hseed; exact Hi|].
        destruct (seeded_insert (self s) (heap s) l L stars HL Hlen HP)
          as (L' & st' & HL' & Hrest).
        exists L', st'. rewrite Hout by exact Hni. split; [exact HL'|exact Hrest].
      * apply Hseed. exact Hl'.
Qed.

(** [calculate], when every reference of [this.layers] points into
    the store. *)
Lemma calculate_run (s : State) :
  Forall (fun l => (l < length (heap s))%nat) (layers (self s)) ->
  exists s', calculate rand s = Ok (layers (self s)) s'
             /\ self s' = self s
             /\ calcs s' = S (calcs s)
             /\ Forall2 same_settings (heap s) (heap s')
             /\ (forall l, ~ In l (layers (self s)) ->
                           heap s' !! l = heap s !! l)
             /\ (forall l, In l (layers (self s)) ->
                           seeded rand (self s) (heap s') l).
Proof.
  intros Hin. unfold calculate, bind, get_self. cbn [self with_calcs].
  destruct (calculate_layers_run (layers (self s)) (Null, Null)
              (with_calcs (S (calcs s)) s) Hin)
    as (prev' & h' & n & E & HS & Hout & Hseed).
  rewrite E. unfold ret. eexists. split; [reflexivity|].
  cbn. repeat split; assumption.
Qed.

End CalculateFacts.

(** ** [calculate] does not read the star arrays *)

Section Replacement.

Variable rand : nat -> Q.

Lemma random_heap (h : list Layer) (min max : Z) (previous : jsnum)
    (spread : option Q) (s : State) :
  random rand min max previous spread (with_heap h s)
  = on_heap h (random rand min max previous spread s).
Proof.
  rewrite !random_run. cbn zeta.
  cbn [tape with_heap].
  destruct (ToNumber previous) as [p|]; [destruct (Qle_bool _ _)|];
    reflexivity.
Qed.

Lemma pick_heap {A : Type} (h : list Layer) (array : list A) (s : State) :
  pick rand array (with_heap h s) = on_heap h (pick rand array s).
Proof.
  unfold pick, bind. rewrite random_heap.
  destruct (random rand _ _ _ _ s); reflexivity.
Qed.

(** A star is generated from the instance, the oracle and the palette
    of its layer only. *)
Lemma new_star_heap (h : list Layer) (l : nat) (previous : jsnum * jsnum)
    (s : State) (L1 L2 : Layer) :
  heap s !! l = Some L1 -> h !! l = Some L2 ->
  layer_colors L2 = layer_colors L1 ->
  new_star rand l previous (with_heap h s)
  = on_heap h (new_star rand l previous s).
Proof.
  intros H1 H2 Hc. unfold new_star, bind, get_self. cbn [self with_heap].
  rewrite random_heap.
  destruct (random_total rand (-10) (width (self s))
              (fst previous) None s) as (x & n1 & -> & _).
  cbn [on_heap]. rewrite random_heap.
  destruct (random_total rand (-10) (height (self s))
              (snd previous) None (with_tape n1 s)) as (y & n2 & -> & _).
  cbn [on_heap]. unfold deref. cbn [heap with_heap with_tape].
  rewrite H1, H2. unfold palette. rewrite Hc.
  cbn [self with_heap with_tape]. rewrite pick_heap.
  destruct (pick rand _ _) as [c s3|e s3]; reflexivity.
Qed.

Lemma star_loop_step (l : nat) (bound : Q) (i : Z) (stars : list Star)
    (previous : jsnum * jsnum) (s : State) :
  star_loop rand l bound i stars previous s
  = if Qlt_le_dec (inject_Z i) bound
    then match new_star rand l previous s with
         | Ok star s' =>
             star_loop rand l bound (i + 1) (stars ++ [star])
                       (Num (star_x star), Num (star_y star)) s'
         | Throw e s' => Throw e s'
         end
    else Ok (stars, previous) s.
Proof.
  simp star_loop. destruct (Qlt_le_dec (inject_Z i) bound); cbn.
  - destruct (new_star rand l previous s); reflexivity.
  - reflexivity.
Qed.

Lemma star_loop_heap (h : list Layer) (l : nat) (bound : Q) (s0 : State)
    (L1 L2 : Layer) :
  heap s0 !! l = Some L1 -> h !! l = Some L2 ->
  layer_colors L2 = layer_colors L1 ->
  forall (k : nat) (i : Z) (stars : list Star) (previous : jsnum * jsnum)
         (m : nat),
    Z.to_nat (Qceiling bound - i) = k ->
    star_loop rand l bound i stars previous (with_heap h (with_tape m s0))
    = on_heap h (star_loop rand l bound i stars previous (with_tape m s0)).
Proof.
  intros H1 H2 Hc k.
  induction k as [|k IH]; intros i stars previous m Hk;
    rewrite (star_loop_step l bound i stars previous (with_heap h _)),
            (star_loop_step l bound i stars previous (with_tape m s0));
    destruct (Qlt_le_dec (inject_Z i) bound) as [Hlt|Hge];
    try reflexivity.
  - pose proof (ceiling_gt _ _ Hlt). lia.
  - rewrite (new_star_heap h l previous (with_tape m s0) L1 L2 H1 H2 Hc).
    destruct (new_star_run rand l previous (with_tape m s0) L1 H1)
      as (star & n & -> & _).
    cbn [on_heap].
    apply (IH (i + 1)%Z (stars ++ [star]) _ n).
    pose proof (ceiling_gt _ _ Hlt). lia.
Qed.

Lemma set_stars_same (stars : list Star) (L1 L2 : Layer) :
  same_settings L1 L2 -> set_stars stars L2 = set_stars stars L1.
Proof.
  intros (H1 & H2 & H3 & H4). unfold set_stars. congruence.
Qed.

Lemma density_same (L1 L2 : Layer) :
  same_settings L1 L2 -> density_or_default L2 = density_or_default L1.
Proof. intros (_ & _ & H & _). unfold density_or_default. rewrite H. reflexivity. Qed.

(** One turn of the outer loop, run on two stores that hold layer
    objects of the same settings at [l]: the same stars are written. *)
Lemma calculate_layer_heap (h : list Layer) (previous : jsnum * jsnum)
    (l : nat) (s : State) (L1 L2 : Layer) :
  heap s !! l = Some L1 -> h !! l = Some L2 -> same_settings L1 L2 ->
  exists stars prev' n,
    calculate_layer rand previous l s
    = Ok prev' (with_heap (<[l := set_stars stars L1]> (heap s))
                          (with_tape n s))
    /\ calculate_layer rand previous l (with_heap h s)
       = Ok prev' (with_heap (<[l := set_stars stars L1]> h) (with_tape n s)).
Proof.
  intros H1 H2 HS.
  pose proof (star_loop_heap h l
                (to_double (density_or_default L1 * area (self s))) s L1 L2
                H1 H2 (proj2 (proj2 (proj2 HS))) _ 0 [] previous (tape s)
                eq_refl) as Hsim.
  rewrite with_tape_self in Hsim.
  destruct (star_loop_run rand l
              (to_double (density_or_default L1 * area (self s)))
              0 [] previous s s (tape s) L1
              (eq_sym (with_tape_self s)) H1 (List.Forall_nil _))
    as (stars & prev' & n & E & _).
  rewrite E in Hsim. cbn [on_heap] in Hsim.
  exists stars, prev', n. split.
  - unfold calculate_layer, bind, get_self, deref. rewrite H1, E.
    cbn [heap with_tape]. rewrite H1. reflexivity.
  - unfold calculate_layer, bind, get_self, deref.
    cbn [heap self with_heap]. rewrite H2, (density_same L1 L2 HS), Hsim.
    cbn [heap with_heap with_tape]. rewrite H2.
    cbn [fst snd]. rewrite (set_stars_same stars L1 L2 HS). reflexivity.
Qed.

Lemma calculate_layers_heap (ls : list nat) :
  forall (previous : jsnum * jsnum) (s : State) (h : list Layer),
    Forall2 same_settings (heap s) h ->
    Forall (fun l => (l < length (heap s))%nat) ls ->
    exists prev' h1 h2 n,
      calculate_layers rand previous ls s
      = Ok prev' (with_heap h1 (with_tape n s))
      /\ calculate_layers rand previous ls (with_heap h s)
         = Ok prev' (with_heap h2 (with_tape n s))
      /\ Forall2 same_settings h1 h2
      /\ (forall l, h !! l = heap s !! l -> h2 !! l = h1 !! l)
      /\ (forall l, In l ls -> h2 !! l = h1 !! l).
Proof.
  induction ls as [|l ls IH]; intros previous s h HS Hin.
  - exists previous, (heap s), h, (tape s). cbn. unfold ret.
    split; [destruct s; reflexivity|].
    split; [destruct s; reflexivity|].
    split; [exact HS|]. split; [tauto | intros l []].
  - inversion Hin as [|? ? Hl Hls]; subst.
    destruct (lookup_lt_is_Some_2 _ _ Hl) as [L1 H1].
    destruct (Forall2_lookup_l _ _ _ _ _ HS H1) as (L2 & H2 & HL).
    destruct (calculate_layer_heap h previous l s L1 L2 H1 H2 HL)
      as (stars & prev1 & n1 & E1 & E2).
    set (X := set_stars stars L1) in *.
    assert (HS1 : Forall2 same_settings (<[l := X]> (heap s)) (<[l := X]> h)).
    { apply Forall2_same_length_lookup_2.
      - rewrite !length_insert. exact (Forall2_length _ _ _ HS).
      - intros i a b Ha Hb. destruct (decide (l = i)) as [->|Hne].
        + rewrite list_lookup_insert_eq in Ha by exact Hl.
          rewrite list_lookup_insert_eq in Hb
            by (rewrite <- (Forall2_length _ _ _ HS); exact Hl).
          replace b with a by congruence. repeat split.
        + rewrite list_lookup_insert_ne in Ha, Hb by exact Hne.
          destruct (Forall2_lookup_l _ _ _ _ _ HS Ha) as (b' & Hb' & Hab).
          replace b with b' by congruence. exact Hab. }
    destruct (IH prev1 (with_heap (<[l := X]> (heap s)) (with_tape n1 s))
                 (<[l := X]> h) HS1)
      as (prev' & h1 & h2 & n & F1 & F2 & HS2 & Hkeep & Hls').
    { cbn [heap with_heap with_tape]. rewrite length_insert. exact Hls. }
    exists prev', h1, h2, n.
    split; [cbn [calculate_layers]; unfold bind at 1; rewrite E1; exact F1|].
    split; [cbn [calculate_layers]; unfold bind at 1; rewrite E2; exact F2|].
    split; [exact HS2|].
    cbn [heap with_heap with_tape] in Hkeep.
    assert (Hl' : h2 !! l = h1 !! l).
    { apply Hkeep. rewrite !list_lookup_insert_eq; [reflexivity|exact Hl|].
      rewrite <- (Forall2_length _ _ _ HS). exact Hl. }
    split.
    + intros l' Heq. destruct (decide (l = l')) as [<-|Hne]; [exact Hl'|].
      apply Hkeep. rewrite !list_lookup_insert_ne by exact Hne. exact Heq.
    + intros l' [<-|Hi]; [exact Hl' | apply Hls'; exact Hi].
Qed.

(** [calculate] on a store that differs from the current one in the
    star arrays only: same draws, and the same layer objects at every
    reference of [this.layers] afterwards. *)
Lemma calculate_forgets (s : State) (h : list Layer) :
  Forall2 same_settings (heap s) h ->
  Forall (fun l => (l < length (heap s))%nat) (layers (self s)) ->
  exists s1 s2,
    calculate rand s = Ok (layers (self s)) s1
    /\ calculate rand (with_heap h s) = Ok (layers (self s)) s2
    /\ tape s2 = tape s1
    /\ (forall l, In l (layers (self s)) -> heap s2 !! l = heap s1 !! l).
Proof.
  intros HS Hin.
  destruct (calculate_layers_heap (layers (self s)) (Null, Null)
              (with_calcs (S (calcs s)) s) h HS Hin)
    as (prev' & h1 & h2 & n & F1 & F2 & _ & _ & Hls).
  unfold calculate, bind, get_self. cbn [self with_calcs with_heap calcs].
  rewrite F1.
  change (with_calcs (S (calcs s)) (with_heap h s))
    with (with_heap h (with_calcs (S (calcs s)) s)).
  rewrite F2. unfold ret. eexists _, _.
  split; [reflexivity|]. split; [reflexivity|].
  split; [reflexivity | exact Hls].
Qed.

End Replacement.

Lemma sky_refs : Forall (fun l => (l < length (heap sky_state))%nat)
                        (layers (self sky_state)).
Proof. repeat constructor. Qed.

(** C1, as stated, fails: on the 100 by 101 container the default
    density gives [density * area = 2.02]; the loop runs for [i = 0, 1, 2]
    and stores 3 stars, not [floor 2.02 = 2]. *)
Lemma floor_star_count_fails :
  ~ (forall (rand : nat -> Q) (s s' : State) (ls : list nat) (l : nat)
            (L L' : Layer) (stars : list Star),
        unit_interval rand ->
        calculate rand s = Ok ls s' ->
        In l (layers (self s)) ->
        heap s !! l = Some L ->
        heap s' !! l = Some L' -> layer_stars L' = Some stars ->
        Z.of_nat (length stars)
        = Qfloor (density_or_default L
                  * inject_Z (width (self s) * height (self s)))).
Proof.
  intros claim.
  assert (E : exists s' L L' stars,
             calculate mid_oracle sky_state = Ok [0; 1; 2]%nat s'
             /\ heap sky_state !! 0%nat = Some L
             /\ heap s' !! 0%nat = Some L'
             /\ layer_stars L' = Some stars
             /\ length stars = 3%nat
             /\ Qfloor (density_or_default L
                        * inject_Z (width (self sky_state)
                                    * height (self sky_state))) = 2%Z).
  { vm_compute. eexists _, _, _, _. repeat split. }
  destruct E as (s' & L & L' & stars & E & HL & HL' & Hst & Hlen & Hfl).
  pose proof (claim mid_oracle sky_state s' _ 0%nat L L' stars
                    mid_oracle_unit E (or_introl eq_refl) HL HL' Hst) as C.
  rewrite Hlen, Hfl in C. discriminate C.
Qed.

(** C1, amended.  [calculate] returns; in every layer of [this.layers]
    it leaves an array of exactly [ceiling (density * width * height)] stars,
    the two products being those of double arithmetic; [density] is the
    layer's own when it is a number other than 0, and 1/5000 when the layer
    specifies none or 0.  Nothing else changes in the layer object.  The
    array is replaced wholesale: whatever star arrays the layer objects held
    before, the same layer objects result. *)
Theorem calculate_star_count (rand : nat -> Q) (s : State) :
  Forall (fun l => (l < length (heap s))%nat) (layers (self s)) ->
  let area := to_double (inject_Z (width (self s) * height (self s))) in
  let turns :=
    fun density : Q => Z.to_nat (Qceiling (to_double (density * area))) in
  exists s',
    calculate rand s = Ok (layers (self s)) s'
    /\ (forall l L, In l (layers (self s)) -> heap s !! l = Some L ->
          exists L' stars,
            heap s' !! l = Some L' /\ same_settings L L'
            /\ layer_stars L' = Some stars
            /\ (layer_density L = None ->
                length stars = turns (to_double (1 # 5000)))
            /\ (forall d, layer_density L = Some d -> d == 0 ->
                length stars = turns (to_double (1 # 5000)))
            /\ (forall d, layer_density L = Some d -> ~ d == 0 ->
                length stars = turns d))
    /\ (forall h, Forall2 same_settings (heap s) h ->
          exists s2,
            calculate rand (with_heap h s) = Ok (layers (self s)) s2
            /\ forall l, In l (layers (self s)) ->
                         heap s2 !! l = heap s' !! l).
Proof.
  intros Hrefs area0 turns.
  destruct (calculate_run rand s Hrefs)
    as (s' & E & _ & _ & HS & _ & Hseed).
  exists s'. split; [exact E|]. split.
  - intros l L Hl HL.
    destruct (Hseed l Hl) as (L' & stars & HL' & Hst & Hlen & _).
    destruct (Forall2_lookup_l _ _ _ _ _ HS HL) as (L2 & HL2 & HLL).
    replace L2 with L' in HLL by congruence.
    exists L', stars. split; [exact HL'|]. split; [exact HLL|].
    split; [exact Hst|].
    unfold star_count in Hlen. rewrite (density_same L L' HLL) in Hlen.
    destruct (density_cases L) as (D1 & D2 & D3).
    split; [|split].
    + intros Hd. rewrite Hlen, (D1 Hd). reflexivity.
    + intros d Hd E0. rewrite Hlen, (D2 d Hd E0). reflexivity.
    + intros d Hd E0. rewrite Hlen, (D3 d Hd E0). reflexivity.
  - intros h Hh.
    destruct (calculate_forgets rand s h Hh Hrefs)
      as (s1 & s2 & E1 & E2 & _ & Hsame).
    exists s2. split; [exact E2|].
    replace s' with s1 by congruence. exact Hsame.
Qed.

(** On [sky], 100 by 101 with the default density: 3 stars in the first
    layer. *)
Lemma calculate_star_count_witness :
  exists s', calculate mid_oracle sky_state = Ok [0; 1; 2]%nat s'
             /\ exists L' stars,
                  heap s' !! 0%nat = Some L' /\ layer_stars L' = Some stars
                  /\ length stars = 3%nat.
Proof.
  destruct (calculate_star_count mid_oracle sky_state sky_refs)
    as (s' & E & W & _).
  exists s'. split; [exact E|].
  destruct (W 0%nat _ (or_introl eq_refl) eq_refl)
    as (L' & stars & HL & _ & Hst & Hlen & _).
  exists L', stars. split; [exact HL|]. split; [exact Hst|].
  rewrite (Hlen eq_refl). reflexivity.
Defined.

(** The products are those of doubles.  With the default density an
    area of 5000 gives one star, although the double [1/5000] times 5000
    exceeds 1; the density [0.07] on an area of 100 gives 8 stars, [0.07 * 100]
    being [7.000000000000001]. *)
Example calculate_rounds_the_products :
  (exists s' L' stars,
      calculate mid_oracle sky_50_100 = Ok [0; 1; 2]%nat s'
      /\ heap s' !! 0%nat = Some L' /\ layer_stars L' = Some stars
      /\ length stars = 1%nat)
  /\ Qceiling (to_double (1 # 5000) * 5000) = 2%Z
  /\ (exists s' L' stars,
         calculate mid_oracle dense_state = Ok [0]%nat s'
         /\ heap s' !! 0%nat = Some L' /\ layer_stars L' = Some stars
         /\ length stars = 8%nat).
Proof.
  split; [|split].
  - vm_compute. eexists _, _, _. repeat split.
  - reflexivity.
  - vm_compute. eexists _, _, _. repeat split.
Qed.

(** C5, as stated, fails: on the 100 by 101 container with every draw
    equal to 0.999 the first star of [calculate] is stored at
    [x = 119.98 > width]. *)
Lemma spawn_within_width_fails :
  ~ (forall (rand : nat -> Q) (s s' : State) (ls : list nat) (l : nat)
            (L' : Layer) (stars : list Star) (star : Star),
        unit_interval rand ->
        calculate rand s = Ok ls s' ->
        In l (layers (self s)) ->
        heap s' !! l = Some L' -> layer_stars L' = Some stars ->
        In star stars ->
        (inject_Z (-10) <= star_x star /\ star_x star <= inject_Z (width (self s)))
        /\ (inject_Z (-10) <= star_y star
            /\ star_y star <= inject_Z (height (self s)))).
Proof.
  intros claim.
  assert (E : exists s' L' star stars,
             calculate high_oracle sky_state = Ok [0; 1; 2]%nat s'
             /\ heap s' !! 0%nat = Some L'
             /\ layer_stars L' = Some (star :: stars)
             /\ inject_Z 100 < star_x star).
  { vm_compute. eexists _, _, _, _. repeat split. }
  destruct E as (s' & L' & star & stars & E & HL & Hst & Hx).
  destruct (claim high_oracle sky_state s' _ 0%nat L' (star :: stars) star
                  high_oracle_unit E (or_introl eq_refl) HL Hst
                  (or_introl eq_refl)) as [[_ Hle] _].
  exact (Qlt_not_le _ _ Hx Hle).
Qed.

(** C5, amended.  [calculate] returns, and every star of every layer of
    [this.layers] is stored with each coordinate equal to the integer
    [Math.floor (Math.random () * (max + 11)) - 10] drawn from some oracle
    entry, alone or with the jitter [Math.random () * 20] of the next entry,
    [max] being the width (resp. the height).  The integer lies in
    [[-10, width]] (resp. [[-10, height]]); the stored coordinate in
    [[-10, width + 20]] (resp. [[-10, height + 20]]). *)
Theorem spawn_within_jitter (rand : nat -> Q) (s : State) :
  unit_interval rand ->
  (0 <= width (self s))%Z -> (0 <= height (self s))%Z ->
  Forall (fun l => (l < length (heap s))%nat) (layers (self s)) ->
  let placed := fun (max : Z) (v : Q) =>
    exists n : nat,
      let base := (Qfloor (rand n * inject_Z (max - -10 + 1)) + -10)%Z in
      (-10 <= base <= max)%Z
      /\ (v == inject_Z base \/ v == inject_Z base + rand (S n) * 20)
      /\ inject_Z (-10) <= v /\ v <= inject_Z max + 20 in
  exists s',
    calculate rand s = Ok (layers (self s)) s'
    /\ forall l, In l (layers (self s)) ->
         exists L' stars,
           heap s' !! l = Some L' /\ layer_stars L' = Some stars
           /\ forall star, In star stars ->
                placed (width (self s)) (star_x star)
                /\ placed (height (self s)) (star_y star).
Proof.
  intros Hr Hw Hh Hrefs placed.
  assert (Hplaced : forall max v, (0 <= max)%Z ->
                                  drawn rand (-10) max v -> placed max v).
  { intros max v Hmax Hd.
    destruct (drawn_range rand Hr (-10) max v ltac:(lia) Hd) as [Hlo Hhi].
    destruct Hd as [n Hv]. exists n. cbv zeta.
    split; [apply (base_draw_range rand Hr (-10) max n); lia|].
    split; [exact Hv|]. split; [exact Hlo|].
    apply Qlt_le_weak. exact Hhi. }
  destruct (calculate_run rand s Hrefs)
    as (s' & E & _ & _ & _ & _ & Hseed).
  exists s'. split; [exact E|].
  intros l Hl. destruct (Hseed l Hl) as (L' & stars & HL' & Hst & _ & HP).
  exists L', stars. split; [exact HL'|]. split; [exact Hst|].
  intros star Hin. rewrite List.Forall_forall in HP.
  destruct (HP star Hin) as [Hx Hy].
  split; apply Hplaced; assumption.
Qed.

(** On [sky] with every draw equal to 1/2: every star of the first
    layer is stored with [-10 <= x <= 120]. *)
Lemma spawn_within_jitter_witness :
  exists s', calculate mid_oracle sky_state = Ok [0; 1; 2]%nat s'
             /\ exists L' stars,
                  heap s' !! 0%nat = Some L' /\ layer_stars L' = Some stars
                  /\ forall star, In star stars ->
                       inject_Z (-10) <= star_x star
                       /\ star_x star <= inject_Z 100 + 20.
Proof.
  destruct (spawn_within_jitter mid_oracle sky_state mid_oracle_unit
              ltac:(vm_compute; discriminate) ltac:(vm_compute; discriminate)
              sky_refs) as (s' & E & W).
  exists s'. split; [exact E|].
  destruct (W 0%nat (or_introl eq_refl)) as (L' & stars & HL & Hst & B).
  exists L', stars. split; [exact HL|]. split; [exact Hst|].
  intros star Hin.
  destruct (B star Hin) as [(n & _ & _ & Hlo & Hhi) _].
  split; [exact Hlo | exact Hhi].
Defined.

(** ** [update] *)

Section UpdateFacts.

Variable rand : nat -> Q.

(** [_.random] returns and only draws, whatever the oracle holds. *)
Lemma random_ok (min max : Z) (previous : jsnum) (spread : option Q)
    (s : State) :
  exists v n, random rand min max previous spread s = Ok v (with_tape n s).
Proof.
  rewrite random_run. cbn zeta.
  destruct (ToNumber previous) as [p|]; [destruct (Qle_bool _ _)|];
    eexists _, _; reflexivity.
Qed.

(** The new fields of a star whose layer has a [speed]. *)
Lemma update_star_run (p : Parallax) (L : Layer) (speed : Vec) (a : Star)
    (s : State) :
  layer_speed L = Some speed ->
  exists b n, update_star rand p L a s = Ok b (with_tape n s)
              /\ same_look a b /\ star_step rand p speed a b.
Proof.
  intros Hsp. unfold update_star, star_step. rewrite Hsp.
  destruct (isInside p (star_x a) (star_y a)).
  - exists (mkStar (star_x a + (vec_x speed + vec_x (star_speed a)))
                   (star_y a + (vec_y speed + vec_y (star_speed a)))
                   (star_color a) (star_speed a)), (tape s).
    unfold ret. rewrite with_tape_self. repeat split.
  - unfold bind. rewrite random_run. cbn.
    eexists _, _. split; [reflexivity|]. repeat split.
    cbn. exists (tape s). reflexivity.
Qed.

(** However the body ends for a star, only draws have been made; when
    it returns, the star keeps its colour and its speed. *)
Lemma update_star_cases (p : Parallax) (L : Layer) (a : Star) (s : State) :
  match update_star rand p L a s with
  | Ok b s' => (exists n, s' = with_tape n s) /\ same_look a b
  | Throw _ s' => s' = s
  end.
Proof.
  unfold update_star.
  destruct (isInside p (star_x a) (star_y a)).
  - destruct (layer_speed L) as [speed|]; [|reflexivity].
    cbn. split; [|split; reflexivity].
    exists (tape s). symmetry. apply with_tape_self.
  - unfold bind.
    destruct (random_ok 0 (width p) Undefined None s) as (x & n & ->).
    cbn. split; [exists n; reflexivity | split; reflexivity].
Qed.

Lemma set_stars_id (L : Layer) (stars : list Star) :
  layer_stars L = Some stars -> set_stars stars L = L.
Proof. destruct L. cbn. intros ->. reflexivity. Qed.

(** One turn of the inner loop of [update] on a layer that has a
    [speed]: the star at [i] is replaced by its successor. *)
Lemma update_at_run (l i : nat) (s : State) (L : Layer) (speed : Vec)
    (stars : list Star) (a : Star) :
  heap s !! l = Some L -> layer_speed L = Some speed ->
  layer_stars L = Some stars -> stars !! i = Some a ->
  exists b n,
    update_at rand l i s
    = Ok tt (with_heap (<[l := set_stars (<[i := b]> stars) L]> (heap s))
                       (with_tape n s))
    /\ same_look a b /\ star_step rand (self s) speed a b.
Proof.
  intros HL Hsp Hst Ha.
  destruct (update_star_run (self s) L speed a s Hsp) as (b & n & E & Hab).
  exists b, n. split; [|exact Hab].
  unfold update_at, bind, get_self, deref, stars_of. rewrite HL, Hst.
  unfold ret. rewrite Ha, E. reflexivity.
Qed.

(** The inner loop of [update] from the index [length done] on, the
    stars of [done] having been rewritten already. *)
Lemma update_from_run (l : nat) (todo : list Star) :
  forall (done : list Star) (s : State) (L : Layer) (speed : Vec),
    heap s !! l = Some L -> layer_speed L = Some speed ->
    layer_stars L = Some (done ++ todo) ->
    exists todo' n,
      forM_ (update_at rand l) (seq (length done) (length todo)) s
      = Ok tt (with_heap (<[l := set_stars (done ++ todo') L]> (heap s))
                         (with_tape n s))
      /\ Forall2 (fun a b => same_look a b
                             /\ star_step rand (self s) speed a b)
                 todo todo'.
Proof.
  induction todo as [|a todo IH]; intros done s L speed HL Hsp Hst.
  - exists [], (tape s). split; [|constructor].
    cbn. unfold ret. rewrite (set_stars_id L _ Hst), (list_insert_id _ _ _ HL).
    destruct s; reflexivity.
  - assert (Ha : (done ++ a :: todo) !! length done = Some a)
      by (apply list_lookup_middle; reflexivity).
    destruct (update_at_run l (length done) s L speed _ a HL Hsp Hst Ha)
      as (b & n1 & E1 & Hab).
    rewrite insert_app_r_alt, Nat.sub_diag in E1 by lia.
    cbn [insert list_insert] in E1.
    set (L1 := set_stars (done ++ b :: todo) L) in *.
    set (s1 := with_heap (<[l := L1]> (heap s)) (with_tape n1 s)) in *.
    destruct (IH (done ++ [b]) s1 L1 speed) as (todo' & n & E & HF).
    { cbn [s1 heap with_heap with_tape].
      apply list_lookup_insert_eq. eapply lookup_lt_Some. exact HL. }
    { exact Hsp. }
    { cbn [L1 layer_stars set_stars]. rewrite <- app_assoc. reflexivity. }
    exists (b :: todo'), n. split; [|constructor; assumption].
    cbn [length seq forM_]. unfold bind. rewrite E1.
    rewrite length_app, Nat.add_1_r in E. cbn [length] in E. rewrite E.
    cbn [s1 heap with_heap with_tape]. rewrite list_insert_insert_eq.
    rewrite <- app_assoc. reflexivity.
Qed.

Lemma update_layer_run (l : nat) (s : State) (L : Layer) (speed : Vec)
    (stars : list Star) :
  heap s !! l = Some L -> layer_speed L = Some speed ->
  layer_stars L = Some stars ->
  exists stars' n,
    update_layer rand l s
    = Ok tt (with_heap (<[l := set_stars stars' L]> (heap s))
                       (with_tape n s))
    /\ Forall2 (fun a b => same_look a b
                           /\ star_step rand (self s) speed a b)
               stars stars'.
Proof.
  intros HL Hsp Hst.
  destruct (update_from_run l stars [] s L speed HL Hsp Hst)
    as (stars' & n & E & HF).
  exists stars', n. split; [|exact HF].
  unfold update_layer, bind, deref, stars_of. rewrite HL, Hst.
  unfold ret. exact E.
Qed.

(** The outer loop of [update] over references that are pairwise
    distinct: each layer object is visited once, and its stars make one
    step. *)
Lemma update_layers_run (ls : list nat) :
  forall s : State,
    NoDup ls ->
    (forall l, In l ls -> exists L speed stars,
          heap s !! l = Some L /\ layer_speed L = Some speed
          /\ layer_stars L = Some stars) ->
    exists h' n,
      forM_ (update_layer rand) ls s = Ok tt (with_heap h' (with_tape n s))
      /\ (forall l, ~ In l ls -> h' !! l = heap s !! l)
      /\ (forall l L speed stars,
             In l ls -> heap s !! l = Some L -> layer_speed L = Some speed ->
             layer_stars L = Some stars ->
             exists stars',
               h' !! l = Some (set_stars stars' L)
               /\ Forall2 (fun a b => same_look a b
                                      /\ star_step rand (self s) speed a b)
                          stars stars').
Proof.
  induction ls as [|l ls IH]; intros s Hnd Hready.
  - exists (heap s), (tape s). cbn. unfold ret.
    split; [destruct s; reflexivity|].
    split; [reflexivity | intros l L speed stars []].
  - apply NoDup_cons in Hnd as [Hnotin Hnd].
    destruct (Hready l (or_introl eq_refl))
      as (L & speed & stars & HL & Hsp & Hst).
    destruct (update_layer_run l s L speed stars HL Hsp Hst)
      as (stars' & n1 & E1 & HF).
    set (s1 := with_heap (<[l := set_stars stars' L]> (heap s))
                         (with_tape n1 s)) in *.
    assert (Hne : forall l', In l' ls -> l <> l').
    { intros l' Hin ->. apply Hnotin. apply list_elem_of_In. exact Hin. }
    destruct (IH s1) as (h' & n & E & Hout & Hin).
    { exact Hnd. }
    { intros l' Hl'. cbn [s1 heap with_heap with_tape].
      rewrite list_lookup_insert_ne by (apply Hne; exact Hl').
      apply Hready. right. exact Hl'. }
    exists h', n. cbn [forM_]. unfold bind. rewrite E1.
    split; [exact E|].
    cbn [s1 heap with_heap with_tape self] in Hout, Hin.
    split.
    + intros l' Hl'. rewrite Hout by (intros H; apply Hl'; right; exact H).
      apply list_lookup_insert_ne. intros ->. apply Hl'. left. reflexivity.
    + intros l' L' speed0 stars0 [<-|Hl'] HL' Hsp' Hst'.
      * replace L' with L in * by congruence.
        replace stars0 with stars by congruence.
        replace speed0 with speed by congruence.
        exists stars'. split; [|exact HF].
        rewrite Hout by (intros H; apply Hnotin; apply list_elem_of_In; exact H).
        apply list_lookup_insert_eq. eapply lookup_lt_Some. exact HL.
      * apply (Hin l' L' speed0 stars0 Hl'); [|exact Hsp'|exact Hst'].
        rewrite list_lookup_insert_ne by (apply Hne; exact Hl'). exact HL'.
Qed.

Lemma same_look_refl (a : Star) : same_look a a.
Proof. split; reflexivity. Qed.

Lemma layer_frame_refl (L : Layer) : layer_frame L L.
Proof.
  split; [repeat split|]. unfold stars_frame.
  destruct (layer_stars L) as [stars|]; [|exact I].
  induction stars; constructor; [apply same_look_refl | assumption].
Qed.

Lemma layer_frame_trans (L1 L2 L3 : Layer) :
  layer_frame L1 L2 -> layer_frame L2 L3 -> layer_frame L1 L3.
Proof.
  intros [S12 F12] [S23 F23]. split.
  - destruct S12 as (?&?&?&?), S23 as (?&?&?&?). repeat split; congruence.
  - unfold stars_frame in *.
    destruct (layer_stars L1), (layer_stars L2), (layer_stars L3);
      try tauto.
    eapply Forall2_trans; [|exact F12|exact F23].
    intros a b c [? ?] [? ?]. split; congruence.
Qed.

Lemma heap_frame_refl (h : list Layer) : Forall2 layer_frame h h.
Proof. induction h; constructor; [apply layer_frame_refl | assumption]. Qed.

Lemma heap_frame_trans (h1 h2 h3 : list Layer) :
  Forall2 layer_frame h1 h2 -> Forall2 layer_frame h2 h3 ->
  Forall2 layer_frame h1 h3.
Proof.
  intros H12 H23. eapply Forall2_trans; [|exact H12|exact H23].
  intros a b c. apply layer_frame_trans.
Qed.

Lemma heap_frame_insert (h : list Layer) (l : nat) (L L' : Layer) :
  h !! l = Some L -> layer_frame L L' ->
  Forall2 layer_frame h (<[l := L']> h).
Proof.
  intros HL HF. apply Forall2_same_length_lookup_2.
  - rewrite length_insert. reflexivity.
  - intros i a b Ha Hb. destruct (decide (l = i)) as [->|Hne].
    + rewrite list_lookup_insert_eq in Hb by (eapply lookup_lt_Some; eauto).
      replace a with L by congruence. replace b with L' by congruence.
      exact HF.
    + rewrite list_lookup_insert_ne in Hb by exact Hne.
      replace b with a by congruence. apply layer_frame_refl.
Qed.

(** Rewriting one star that keeps its colour and speed. *)
Lemma stars_frame_insert (stars : list Star) (i : nat) (a b : Star) :
  stars !! i = Some a -> same_look a b ->
  Forall2 same_look stars (<[i := b]> stars).
Proof.
  intros Ha Hab. apply Forall2_same_length_lookup_2.
  - rewrite length_insert. reflexivity.
  - intros j x y Hx Hy. destruct (decide (i = j)) as [->|Hne].
    + rewrite list_lookup_insert_eq in Hy by (eapply lookup_lt_Some; eauto).
      replace x with a by congruence. replace y with b by congruence.
      exact Hab.
    + rewrite list_lookup_insert_ne in Hy by exact Hne.
      replace y with x by congruence. apply same_look_refl.
Qed.

(** One turn of the inner loop of [update], however it ends: the
    instance is untouched and every layer object keeps its settings and the
    number, colours and speeds of its stars. *)
Lemma update_at_frame (l i : nat) (s : State) :
  self (final (update_at rand l i s)) = self s
  /\ Forall2 layer_frame (heap s) (heap (final (update_at rand l i s))).
Proof.
  unfold update_at, bind, get_self, deref.
  destruct (heap s !! l) as [L|] eqn:HL;
    [|cbn; split; [reflexivity | apply heap_frame_refl]].
  unfold stars_of.
  destruct (layer_stars L) as [stars|] eqn:Hst;
    [|cbn; split; [reflexivity | apply heap_frame_refl]].
  unfold ret.
  destruct (stars !! i) as [a|] eqn:Ha;
    [|cbn; split; [reflexivity | apply heap_frame_refl]].
  pose proof (update_star_cases (self s) L a s) as Hc.
  destruct (update_star rand (self s) L a s) as [b s1|e s1].
  - destruct Hc as [[n ->] Hab]. cbn. split; [reflexivity|].
    apply (heap_frame_insert _ _ L); [exact HL|].
    split; [apply same_settings_set_stars|].
    cbn. rewrite Hst. apply (stars_frame_insert stars i a b Ha Hab).
  - subst s1. cbn. split; [reflexivity | apply heap_frame_refl].
Qed.

Lemma forM_frame {A : Type} (f : A -> M unit) (xs : list A) :
  (forall a s, self (final (f a s)) = self s
               /\ Forall2 layer_frame (heap s) (heap (final (f a s)))) ->
  forall s, self (final (forM_ f xs s)) = self s
            /\ Forall2 layer_frame (heap s) (heap (final (forM_ f xs s))).
Proof.
  intros Hf. induction xs as [|a xs IH]; intros s.
  - cbn. split; [reflexivity | apply heap_frame_refl].
  - cbn [forM_]. unfold bind.
    pose proof (Hf a s) as [Hs Hh].
    destruct (f a s) as [[] s1|e s1]; cbn [final] in *.
    + destruct (IH s1) as [Hs1 Hh1]. split; [congruence|].
      eapply heap_frame_trans; eassumption.
    + split; assumption.
Qed.

Lemma update_layer_frame (l : nat) (s : State) :
  self (final (update_layer rand l s)) = self s
  /\ Forall2 layer_frame (heap s) (heap (final (update_layer rand l s))).
Proof.
  unfold update_layer, bind, deref.
  destruct (heap s !! l) as [L|] eqn:HL;
    [|cbn; split; [reflexivity | apply heap_frame_refl]].
  unfold stars_of.
  destruct (layer_stars L) as [stars|] eqn:Hst;
    [|cbn; split; [reflexivity | apply heap_frame_refl]].
  unfold ret. apply forM_frame. intros i s0. apply update_at_frame.
Qed.

Lemma update_layers_frame (ls : list nat) :
  forall s : State,
    self (final (forM_ (update_layer rand) ls s)) = self s
    /\ Forall2 layer_frame (heap s)
               (heap (final (forM_ (update_layer rand) ls s))).
Proof. apply forM_frame. intros l s. apply update_layer_frame. Qed.

End UpdateFacts.

(** The instance [twin] is what the constructor builds when the caller
    passes the same layer object twice. *)
Lemma twin_constructed :
  exists o, new_Parallax one_container sized_100_101 "#sky" NoColors
                         (Some [0; 0]%nat) false [twin_layer]
            = inl (Object o)
            /\ instance_of o = Some twin
            /\ ctor_heap (constructor one_container sized_100_101 "#sky"
                            NoColors (Some [0; 0]%nat) false [twin_layer])
               = heap twin_state.
Proof. eexists. repeat split. Qed.

(** C2, as stated, fails when a layer object occurs twice in
    [this.layers]: [update] then visits its stars twice.  On [twin], after
    [calculate], the first star sits inside at [y = 46] with speeds 1/2 and
    1/40; one [update] leaves it at [y = 47.05], not [46.525]. *)
Lemma update_one_step_fails :
  ~ (forall (rand : nat -> Q) (s s' : State) (l : nat) (L L' : Layer)
            (speed : Vec) (stars stars' : list Star) (i : nat) (a b : Star),
        unit_interval rand ->
        (0 <= width (self s))%Z ->
        update rand s = Ok tt s' ->
        In l (layers (self s)) ->
        heap s !! l = Some L -> layer_speed L = Some speed ->
        layer_stars L = Some stars ->
        stars !! i = Some a ->
        heap s' !! l = Some L' -> layer_stars L' = Some stars' ->
        stars' !! i = Some b ->
        if isInside (self s) (star_x a) (star_y a)
        then star_x b == star_x a + (vec_x speed + vec_x (star_speed a))
             /\ star_y b == star_y a + (vec_y speed + vec_y (star_speed a))
        else star_y b == 1
             /\ 0 <= star_x b /\ star_x b <= inject_Z (width (self s))).
Proof.
  intros claim.
  assert (E : exists s s' L L' speed a b stars stars',
             calculate mid_oracle twin_state = Ok [0; 0]%nat s
             /\ update mid_oracle s = Ok tt s'
             /\ heap s !! 0%nat = Some L
             /\ layer_speed L = Some speed
             /\ layer_stars L = Some (a :: stars)
             /\ heap s' !! 0%nat = Some L'
             /\ layer_stars L' = Some (b :: stars')
             /\ isInside (self s) (star_x a) (star_y a) = true
             /\ ~ star_y b
                  == star_y a + (vec_y speed + vec_y (star_speed a))).
  { vm_compute. eexists _, _, _, _, _, _, _, _, _.
    repeat split. intros H. discriminate H. }
  destruct E as (s & s' & L & L' & speed & a & b & stars & stars'
                 & Ec & Eu & HL & Hsp & Hst & HL' & Hst' & Hin & Hy).
  assert (Hself : self s = twin).
  { vm_compute in Ec. injection Ec as <-. reflexivity. }
  pose proof (claim mid_oracle s s' 0%nat L L' speed (a :: stars)
                    (b :: stars') 0%nat a b mid_oracle_unit) as C.
  rewrite Hin, Hself in C.
  destruct (C ltac:(vm_compute; discriminate) Eu (or_introl eq_refl)
              HL Hsp Hst eq_refl HL' Hst' eq_refl) as [_ C2].
  exact (Hy C2).
Qed.

(** C2, amended.  When no layer object occurs twice in [this.layers]
    and every layer holds a speed and a star array, [update] returns and, for
    every star of every layer: if [isInside] held for it before the call it
    has moved by exactly
    [(layer.speed.x + star.speed.x, layer.speed.y + star.speed.y)];
    otherwise it is at [y = 1] with an integer [x] of [[0, width]]. *)
Theorem update_moves_each_star (rand : nat -> Q) (s : State) :
  unit_interval rand ->
  (0 <= width (self s))%Z ->
  List.NoDup (layers (self s)) ->
  (forall l, In l (layers (self s)) ->
             exists L speed stars, heap s !! l = Some L
                                   /\ layer_speed L = Some speed
                                   /\ layer_stars L = Some stars) ->
  exists s',
    update rand s = Ok tt s'
    /\ forall l L speed stars,
         In l (layers (self s)) ->
         heap s !! l = Some L -> layer_speed L = Some speed ->
         layer_stars L = Some stars ->
         exists L' stars',
           heap s' !! l = Some L' /\ layer_stars L' = Some stars'
           /\ length stars' = length stars
           /\ forall i a, stars !! i = Some a ->
                exists b,
                  stars' !! i = Some b
                  /\ if isInside (self s) (star_x a) (star_y a)
                     then star_x b
                          = star_x a + (vec_x speed + vec_x (star_speed a))
                          /\ star_y b
                             = star_y a + (vec_y speed + vec_y (star_speed a))
                     else star_y b = 1
                          /\ exists k : Z,
                               (0 <= k <= width (self s))%Z
                               /\ star_x b == inject_Z k.
Proof.
  intros Hr Hw Hnd Hready.
  destruct (update_layers_run rand (layers (self s)) s
              (proj2 (NoDup_ListNoDup _) Hnd) Hready)
    as (h' & n & E & _ & Hin).
  exists (with_heap h' (with_tape n s)).
  split; [unfold update, bind, get_self; exact E|].
  intros l L speed stars Hl HL Hsp Hst.
  destruct (Hin l L speed stars Hl HL Hsp Hst) as (stars' & HL' & HF).
  exists (set_stars stars' L), stars'.
  split; [exact HL'|]. split; [reflexivity|].
  split; [symmetry; exact (Forall2_length _ _ _ HF)|].
  intros i a Ha.
  destruct (Forall2_lookup_l _ _ _ _ _ HF Ha) as (b & Hb & _ & Hstep).
  exists b. split; [exact Hb|].
  unfold star_step in Hstep.
  destruct (isInside (self s) (star_x a) (star_y a)); [exact Hstep|].
  destruct Hstep as [Hy [m Hx]]. split; [exact Hy|].
  exists (base_draw rand 0 (width (self s)) m).
  split; [apply base_draw_range; assumption|].
  rewrite Hx. apply split_base.
Qed.

Lemma sky_seeded_ready :
  forall l, In l (layers (self sky_seeded)) ->
            exists L stars, heap sky_seeded !! l = Some L
                            /\ layer_stars L = Some stars.
Proof.
  intros l [<-|[<-|[<-|[]]]]; eexists _, _; split; reflexivity.
Qed.

Lemma sky_seeded_moving :
  forall l, In l (layers (self sky_seeded)) ->
            exists L speed stars, heap sky_seeded !! l = Some L
                                  /\ layer_speed L = Some speed
                                  /\ layer_stars L = Some stars.
Proof.
  intros l [<-|[<-|[<-|[]]]]; eexists _, _, _; repeat split.
Qed.

Lemma sky_seeded_distinct : List.NoDup (layers (self sky_seeded)).
Proof.
  repeat constructor; cbn; intuition discriminate.
Qed.

(** On [sky], seeded: the first star of the first layer is inside at
    [(55, 56)] and moves to [y = 56 + (1/2 + 1/40)]. *)
Lemma update_moves_each_star_witness :
  exists s' L' stars' b,
    update mid_oracle sky_seeded = Ok tt s'
    /\ heap s' !! 0%nat = Some L' /\ layer_stars L' = Some stars'
    /\ stars' !! 0%nat = Some b
    /\ star_y b == 56 + (1 # 2) + (1 # 40).
Proof.
  destruct (update_moves_each_star mid_oracle sky_seeded mid_oracle_unit
              ltac:(vm_compute; discriminate) sky_seeded_distinct
              sky_seeded_moving) as (s' & E & W).
  destruct (W 0%nat _ _ _ (or_introl eq_refl) eq_refl eq_refl eq_refl)
    as (L' & stars' & HL' & Hst' & _ & Wi).
  destruct (Wi 0%nat _ eq_refl) as (b & Hb & Hstep).
  exists s', L', stars', b.
  split; [exact E|]. split; [exact HL'|]. split; [exact Hst'|].
  split; [exact Hb|].
  change (isInside (self sky_seeded) (110 # 2) (112 # 2)) with true in Hstep.
  destruct Hstep as [_ Hy]. rewrite Hy. reflexivity.
Defined.

(** C10.  However [update] ends, it leaves the instance as it is (so
    the number and the order of the layers), the store at its size, and in
    every layer object the size, speed, density and colours; a star array
    keeps its length and every star its colour and its speed vector. *)
Theorem update_changes_positions_only (rand : nat -> Q) (s : State) :
  let s' := final (update rand s) in
  self s' = self s
  /\ length (heap s') = length (heap s)
  /\ forall l L,
       heap s !! l = Some L ->
       exists L',
         heap s' !! l = Some L'
         /\ layer_size L' = layer_size L
         /\ layer_speed L' = layer_speed L
         /\ layer_density L' = layer_density L
         /\ layer_colors L' = layer_colors L
         /\ match layer_stars L, layer_stars L' with
            | Some stars, Some stars' =>
                length stars' = length stars
                /\ forall i a, stars !! i = Some a ->
                     exists b, stars' !! i = Some b
                               /\ star_color b = star_color a
                               /\ star_speed b = star_speed a
            | None, None => True
            | _, _ => False
            end.
Proof.
  intros s'. subst s'. unfold update, bind, get_self.
  destruct (update_layers_frame rand (layers (self s)) s) as [Hself Hheap].
  split; [exact Hself|].
  split; [symmetry; exact (Forall2_length _ _ _ Hheap)|].
  intros l L HL.
  destruct (Forall2_lookup_l _ _ _ _ _ Hheap HL)
    as (L' & HL' & (Hsz & Hsp & Hd & Hc) & Hst).
  exists L'. repeat (split; [assumption|]).
  unfold stars_frame in Hst.
  destruct (layer_stars L) as [stars|], (layer_stars L') as [stars'|];
    try exact Hst.
  split; [symmetry; exact (Forall2_length _ _ _ Hst)|].
  intros i a Ha.
  destruct (Forall2_lookup_l _ _ _ _ _ Hst Ha) as (b & Hb & Hcol & Hspd).
  exists b. repeat split; assumption.
Qed.

(** On the seeded [sky]: the first layer keeps its size and its three
    stars through [update]. *)
Lemma update_changes_positions_only_witness :
  exists L',
    heap (final (update mid_oracle sky_seeded)) !! 0%nat = Some L'
    /\ layer_size L' = 3
    /\ exists stars', layer_stars L' = Some stars' /\ length stars' = 3%nat.
Proof.
  destruct (update_changes_positions_only mid_oracle sky_seeded)
    as (_ & _ & W).
  destruct (W 0%nat _ eq_refl) as (L' & HL' & Hsz & _ & _ & _ & Hst).
  exists L'. split; [exact HL'|]. split; [exact Hsz|].
  cbn [layer_stars] in Hst.
  destruct (layer_stars L') as [stars'|]; [|destruct Hst].
  exists stars'. split; [reflexivity | exact (proj1 Hst)].
Defined.

(** ** The life cycle: [start], [pause], [resize] *)

Section LifeCycle.

Variable rand : nat -> Q.

Lemma quiet_ret {A : Type} (a : A) : quiet (ret a).
Proof. intros s. split; reflexivity. Qed.

Lemma quiet_throw {A : Type} (e : error) : quiet (@throw A e).
Proof. intros s. split; reflexivity. Qed.

Lemma quiet_bind {A B : Type} (m : M A) (k : A -> M B) :
  quiet m -> (forall a, quiet (k a)) -> quiet (bind m k).
Proof.
  intros Hm Hk s. unfold bind. specialize (Hm s).
  destruct (m s) as [a s1|e s1]; cbn [final] in *; [|exact Hm].
  destruct (Hk a s1) as [H1 H2]. destruct Hm as [H3 H4].
  split; congruence.
Qed.

Lemma quiet_get_self : quiet get_self.
Proof. intros s. split; reflexivity. Qed.

Lemma quiet_deref (l : nat) : quiet (deref l).
Proof. intros s. unfold deref. destruct (heap s !! l); split; reflexivity. Qed.

Lemma quiet_store (l : nat) (L : Layer) : quiet (store l L).
Proof. intros s. split; reflexivity. Qed.

Lemma quiet_paint (d : draw) : quiet (paint d).
Proof. intros s. split; reflexivity. Qed.

Lemma quiet_Math_random : quiet (Math_random rand).
Proof. intros s. split; reflexivity. Qed.

Lemma quiet_stars_of (L : Layer) : quiet (stars_of L).
Proof.
  unfold stars_of. destruct (layer_stars L);
    [apply quiet_ret | apply quiet_throw].
Qed.

Lemma quiet_random (min max : Z) (previous : jsnum) (spread : option Q) :
  quiet (random rand min max previous spread).
Proof.
  intros s. destruct (random_ok rand min max previous spread s)
    as (v & n & ->). split; reflexivity.
Qed.

Lemma quiet_pick {A : Type} (array : list A) : quiet (pick rand array).
Proof.
  unfold pick. apply quiet_bind; [apply quiet_random|].
  intros k. apply quiet_ret.
Qed.

Lemma quiet_forM_ {A : Type} (f : A -> M unit) (l : list A) :
  (forall a, quiet (f a)) -> quiet (forM_ f l).
Proof.
  intros Hf. induction l as [|a l IH]; cbn [forM_]; [apply quiet_ret|].
  apply quiet_bind; [apply Hf|]. intros _. exact IH.
Qed.

Lemma quiet_update_star (p : Parallax) (L : Layer) (a : Star) :
  quiet (update_star rand p L a).
Proof.
  unfold update_star. destruct (isInside p (star_x a) (star_y a)).
  - destruct (layer_speed L); [apply quiet_ret | apply quiet_throw].
  - apply quiet_bind; [apply quiet_random|]. intros x. apply quiet_ret.
Qed.

Lemma quiet_update : quiet (update rand).
Proof.
  unfold update. apply quiet_bind; [apply quiet_get_self|]. intros p.
  apply quiet_forM_. intros l. unfold update_layer.
  apply quiet_bind; [apply quiet_deref|]. intros L.
  apply quiet_bind; [apply quiet_stars_of|]. intros stars.
  apply quiet_forM_. intros i. unfold update_at.
  apply quiet_bind; [apply quiet_get_self|]. intros p'.
  apply quiet_bind; [apply quiet_deref|]. intros L'.
  apply quiet_bind; [apply quiet_stars_of|]. intros stars'.
  destruct (stars' !! i) as [a|]; [|apply quiet_throw].
  apply quiet_bind; [apply quiet_update_star|].
  intros b. apply quiet_store.
Qed.

Lemma quiet_clear : quiet clear.
Proof.
  unfold clear. apply quiet_bind; [apply quiet_get_self|].
  intros p. apply quiet_paint.
Qed.

Lemma quiet_render : quiet render.
Proof.
  unfold render. apply quiet_bind; [apply quiet_get_self|]. intros p.
  apply quiet_forM_. intros l. unfold render_layer.
  apply quiet_bind; [apply quiet_deref|]. intros L.
  apply quiet_bind; [apply quiet_stars_of|]. intros stars.
  apply quiet_forM_. intros star. apply quiet_paint.
Qed.

(** One frame neither assigns a field of [this] nor calls [calculate]. *)
Lemma quiet_loop : quiet (loop rand).
Proof.
  unfold loop. apply quiet_bind; [apply quiet_get_self|]. intros p.
  destruct (running p); [|apply quiet_ret].
  apply quiet_bind; [intros s; split; reflexivity|]. intros _.
  apply quiet_bind; [apply quiet_clear|]. intros _.
  apply quiet_bind; [apply quiet_update|]. intros _.
  apply quiet_render.
Qed.

Lemma quiet_frame : quiet (frame rand).
Proof.
  intros s. unfold frame. destruct (raf s) as [|n]; [split; reflexivity|].
  exact (quiet_loop (with_raf n s)).
Qed.

Lemma quiet_new_star (l : nat) (previous : jsnum * jsnum) :
  quiet (new_star rand l previous).
Proof.
  unfold new_star. apply quiet_bind; [apply quiet_get_self|]. intros p.
  apply quiet_bind; [apply quiet_random|]. intros x.
  apply quiet_bind; [apply quiet_random|]. intros y.
  apply quiet_bind; [apply quiet_deref|]. intros L.
  apply quiet_bind; [apply quiet_pick|]. intros c.
  apply quiet_bind; [apply quiet_Math_random|]. intros r.
  apply quiet_ret.
Qed.

Lemma quiet_star_loop (l : nat) (bound : Q) (i : Z) (stars : list Star)
    (previous : jsnum * jsnum) :
  quiet (star_loop rand l bound i stars previous).
Proof.
  intros s. funelim (star_loop rand l bound i stars previous s).
  - split; reflexivity.
  - pose proof (quiet_new_star l previous s) as Q0.
    rewrite Heq in Q0. cbn [final] in Q0.
    destruct H as [H1 H2]. destruct Q0 as [H3 H4]. split; congruence.
  - pose proof (quiet_new_star l previous s) as Q0.
    rewrite Heq in Q0. exact Q0.
Qed.

Lemma quiet_calculate_layers (ls : list nat) :
  forall previous, quiet (calculate_layers rand previous ls).
Proof.
  induction ls as [|l ls IH]; intros previous; cbn [calculate_layers];
    [apply quiet_ret|].
  apply quiet_bind; [|intros prev'; apply IH].
  unfold calculate_layer.
  apply quiet_bind; [apply quiet_get_self|]. intros p.
  apply quiet_bind; [apply quiet_deref|]. intros L.
  apply quiet_bind; [apply quiet_star_loop|]. intros r.
  apply quiet_bind; [apply quiet_deref|]. intros L'.
  apply quiet_bind; [apply quiet_store|]. intros _. apply quiet_ret.
Qed.

(** Every call of [calculate] is counted once, however it ends. *)
Lemma calculate_counted (s : State) :
  self (final (calculate rand s)) = self s
  /\ calcs (final (calculate rand s)) = S (calcs s).
Proof.
  unfold calculate, bind, get_self. cbn [self with_calcs].
  pose proof (quiet_calculate_layers (layers (self s)) (Null, Null)
                (with_calcs (S (calcs s)) s)) as [H1 H2].
  destruct (calculate_layers rand (Null, Null) (layers (self s)) _)
    as [prev s1|e s1]; cbn [final ret] in *; split; assumption.
Qed.

Lemma quiet_calm {A : Type} (m : M A) : quiet m -> calm m.
Proof.
  intros Hq s Hr. destruct (Hq s) as [H1 H2]. rewrite H1. split; assumption.
Qed.

Lemma calm_pause : calm pause.
Proof. intros s _. split; reflexivity. Qed.

(** After a [pause], [start] is the frame alone. *)
Lemma start_after_pause (s : State) :
  restarted (self s) = true ->
  start rand s = loop rand (with_self (with_running true (self s)) s).
Proof.
  intros Hr. unfold start, bind, get_self, put_self. rewrite Hr. reflexivity.
Qed.

Lemma calm_start : calm (start rand).
Proof.
  intros s Hr. rewrite (start_after_pause s Hr).
  destruct (quiet_loop (with_self (with_running true (self s)) s))
    as [H1 H2].
  rewrite H1, H2. split; [exact Hr | reflexivity].
Qed.

Lemma calm_perform (c : call) : calm (perform rand c).
Proof.
  destruct c; cbn [perform].
  - apply calm_start.
  - apply calm_pause.
  - apply quiet_calm, quiet_frame.
  - apply quiet_calm, quiet_update.
  - apply quiet_calm, quiet_render.
  - apply quiet_calm, quiet_clear.
Qed.

Lemma framed_bind {A B : Type} (m : M A) (k : A -> M B) :
  framed m -> (forall a, framed (k a)) -> framed (bind m k).
Proof.
  intros Hm Hk s. unfold bind. specialize (Hm s).
  destruct (m s) as [a s1|e s1]; cbn [final] in *; [|exact Hm].
  eapply heap_frame_trans; [exact Hm | apply Hk].
Qed.

Lemma framed_still {A : Type} (m : M A) :
  (forall s, heap (final (m s)) = heap s) -> framed m.
Proof. intros H s. rewrite H. apply heap_frame_refl. Qed.

Lemma framed_forM_ {A : Type} (f : A -> M unit) (l : list A) :
  (forall a, framed (f a)) -> framed (forM_ f l).
Proof.
  intros Hf. induction l as [|a l IH]; cbn [forM_].
  - apply framed_still. reflexivity.
  - apply framed_bind; [apply Hf | intros _; exact IH].
Qed.

Lemma framed_update : framed (update rand).
Proof.
  intros s. unfold update, bind, get_self.
  exact (proj2 (update_layers_frame rand (layers (self s)) s)).
Qed.

Lemma framed_clear : framed clear.
Proof. apply framed_still. reflexivity. Qed.

Lemma framed_render : framed render.
Proof.
  unfold render. apply framed_bind; [apply framed_still; reflexivity|].
  intros p. apply framed_forM_. intros l. unfold render_layer.
  apply framed_bind.
  { apply framed_still. intros s. unfold deref.
    destruct (heap s !! l); reflexivity. }
  intros L. apply framed_bind.
  { apply framed_still. intros s. unfold stars_of.
    destruct (layer_stars L); reflexivity. }
  intros stars. apply framed_forM_. intros star.
  apply framed_still. reflexivity.
Qed.

Lemma framed_loop : framed (loop rand).
Proof.
  unfold loop. apply framed_bind; [apply framed_still; reflexivity|].
  intros p. destruct (running p); [|apply framed_still; reflexivity].
  apply framed_bind; [apply framed_still; reflexivity|]. intros _.
  apply framed_bind; [apply framed_clear|]. intros _.
  apply framed_bind; [apply framed_update|]. intros _.
  apply framed_render.
Qed.

Lemma framed_frame : framed (frame rand).
Proof.
  intros s. unfold frame. destruct (raf s) as [|n]; [apply heap_frame_refl|].
  exact (framed_loop (with_raf n s)).
Qed.

(** After a [pause], no sequence of calls of [start], [pause],
    [update], [render], [clear] and of animation frames runs [calculate];
    the star arrays are only moved. *)
Lemma drive_after_pause (cs : list call) :
  forall s, restarted (self s) = true ->
            restarted (self (drive rand cs s)) = true
            /\ calcs (drive rand cs s) = calcs s
            /\ Forall2 layer_frame (heap s) (heap (drive rand cs s)).
Proof.
  induction cs as [|c cs IH]; intros s Hr; cbn [drive].
  - split; [exact Hr|]. split; [reflexivity | apply heap_frame_refl].
  - destruct (calm_perform c s Hr) as [H1 H2].
    destruct (IH _ H1) as (H3 & H4 & H5).
    split; [exact H3|]. split; [congruence|].
    eapply heap_frame_trans; [|exact H5].
    destruct c; cbn [perform].
    + rewrite (start_after_pause s Hr).
      exact (framed_loop (with_self (with_running true (self s)) s)).
    + apply heap_frame_refl.
    + apply framed_frame.
    + apply framed_update.
    + apply framed_render.
    + apply framed_clear.
Qed.

End LifeCycle.

Lemma sky_seeded_refs :
  Forall (fun l => (l < length (heap sky_seeded))%nat)
         (layers (self sky_seeded)).
Proof. repeat constructor. Qed.

(** The pattern on the tokens the colour rules name. *)
Example hex_pattern_samples :
  map hex_pattern ["#FFF"; "#ffffff"; "#12"; "red"; "#gggggg"]%string
  = [true; true; false; false; false].
Proof. reflexivity. Qed.

(** ** Further properties: the helpers *)

Lemma Qred_inject_Z (z : Z) : Qred (inject_Z z) = inject_Z z.
Proof.
  unfold Qred, inject_Z.
  pose proof (Z.ggcd_gcd z 1) as Hg.
  pose proof (Z.ggcd_correct_divisors z 1) as Hd.
  destruct (Z.ggcd z 1) as (g & a & b). cbn [fst snd] in *.
  rewrite Z.gcd_1_r in Hg. subst g. destruct Hd as [Ha Hb].
  rewrite Z.mul_1_l in Ha, Hb. subst a b. reflexivity.
Qed.

(** Indexing with a number equal to the integer [k >= 0]. *)
Lemma array_get_integer {A : Type} (array : list A) (v : Q) (k : Z) :
  v == inject_Z k -> (0 <= k)%Z -> array_get array v = array !! Z.to_nat k.
Proof.
  intros E Hk. unfold array_get.
  rewrite (Qred_complete _ _ E), Qred_inject_Z. cbn [Qden Qnum inject_Z].
  replace (0 <=? k)%Z with true by (symmetry; apply Z.leb_le; exact Hk).
  reflexivity.
Qed.

(** [_.pick] on a non-empty array reads it at an index inside it. *)
Lemma pick_run (rand : nat -> Q) {A : Type} (array : list A) (s : State) :
  unit_interval rand ->
  array <> [] ->
  exists k : nat,
    (k < length array)%nat
    /\ pick rand array s = Ok (array !! k) (with_tape (S (tape s)) s).
Proof.
  intros Hr Hne. unfold pick, bind. rewrite random_run. cbn zeta.
  cbn [ToNumber]. unfold ret.
  set (n := Z.of_nat (length array)).
  assert (Hn : (0 <= n - 1)%Z).
  { subst n. destruct array; [congruence | cbn [length]; lia]. }
  pose proof (base_draw_range rand Hr 0 (n - 1) (tape s) Hn) as [Hlo Hhi].
  pose proof (split_base (base_draw rand 0 (n - 1) (tape s)) 0) as E.
  rewrite (array_get_integer array _ _ E Hlo).
  exists (Z.to_nat (base_draw rand 0 (n - 1) (tape s))).
  split; [subst n; lia | reflexivity].
Qed.

(** X1.  [_.pick] on a non-empty array returns one of its elements,
    after exactly one draw; on a one-element array it returns that element. *)
Theorem pick_returns_member (rand : nat -> Q) {A : Type} (array : list A)
    (s : State) :
  unit_interval rand ->
  array <> [] ->
  exists a, pick rand array s = Ok (Some a) (with_tape (S (tape s)) s)
            /\ In a array
            /\ (forall a0, array = [a0] -> a = a0).
Proof.
  intros Hr Hne.
  destruct (pick_run rand array s Hr Hne) as (k & Hk & E).
  destruct (lookup_lt_is_Some_2 array k Hk) as [a Ha].
  exists a. rewrite E, Ha. split; [reflexivity|].
  assert (Hin : In a array).
  { apply list_elem_of_In. eapply list_elem_of_lookup_2. exact Ha. }
  split; [exact Hin|].
  intros a0 ->. destruct Hin as [<-|[]]. reflexivity.
Qed.

Lemma pick_returns_member_witness :
  exists a, pick mid_oracle default_palette sky_state
            = Ok (Some a) (with_tape 1 sky_state)
            /\ In a default_palette.
Proof.
  destruct (pick_returns_member mid_oracle default_palette sky_state
              mid_oracle_unit ltac:(discriminate)) as (a & E & Hin & _).
  exists a. split; [exact E | exact Hin].
Defined.

Lemma pick_empty_run (rand : nat -> Q) {A : Type} (s : State) :
  pick rand (@nil A) s = Ok None (with_tape (S (tape s)) s).
Proof.
  unfold pick, bind. rewrite random_run. cbn zeta. cbn [ToNumber].
  unfold ret, array_get. destruct (_ && _); reflexivity.
Qed.

(** X2.  [_.pick] on an empty array does not fail: it draws once and
    returns [undefined], whatever the draw; and [undefined] is returned for
    an empty array only. *)
Theorem pick_empty_undefined (rand : nat -> Q) {A : Type} (array : list A)
    (s : State) :
  pick rand (@nil A) s = Ok None (with_tape (S (tape s)) s)
  /\ (unit_interval rand ->
      (exists s', pick rand array s = Ok None s') -> array = []).
Proof.
  split; [apply pick_empty_run|].
  intros Hr [s' E]. destruct array as [|a array]; [reflexivity|].
  destruct (pick_run rand (a :: array) s Hr ltac:(discriminate))
    as (k & Hk & E').
  rewrite E' in E. injection E as E _.
  apply lookup_ge_None in E. lia.
Qed.

Lemma pick_empty_undefined_witness :
  pick mid_oracle (@nil string) sky_state = Ok None (with_tape 1 sky_state)
  /\ @nil string = [].
Proof.
  destruct (pick_empty_undefined mid_oracle (@nil string) sky_state)
    as [E W].
  split; [exact E|].
  exact (W mid_oracle_unit (ex_intro _ _ E)).
Defined.

Lemma is_hex_digit_upper (c : ascii) :
  is_hex_digit (to_upper c) = is_hex_digit c.
Proof. destruct c as [[] [] [] [] [] [] [] []]; reflexivity. Qed.

Lemma is_hex_digit_lower (c : ascii) :
  is_hex_digit (to_lower c) = is_hex_digit c.
Proof. destruct c as [[] [] [] [] [] [] [] []]; reflexivity. Qed.

Lemma string_map_length (f : ascii -> ascii) (s : string) :
  String.length (string_map f s) = String.length s.
Proof. induction s as [|c s IH]; cbn; [reflexivity | rewrite IH; reflexivity]. Qed.

Lemma forallb_string_map (f : ascii -> ascii) (s : string) :
  (forall c, is_hex_digit (f c) = is_hex_digit c) ->
  forallb is_hex_digit (list_ascii_of_string (string_map f s))
  = forallb is_hex_digit (list_ascii_of_string s).
Proof.
  intros Hf. induction s as [|c s IH]; cbn; [reflexivity|].
  rewrite Hf, IH. reflexivity.
Qed.

(** X3.  The hex pattern does not look at the case of letters: a token,
    its upper-case and its lower-case form get the same verdict.  An accepted
    token has 4 or 7 characters. *)
Theorem hex_pattern_ignores_case (color : string) :
  hex_pattern (string_map to_upper color) = hex_pattern color
  /\ hex_pattern (string_map to_lower color) = hex_pattern color
  /\ (hex_pattern color = true ->
      String.length color = 4%nat \/ String.length color = 7%nat).
Proof.
  destruct color as [|c digits]; [repeat split; discriminate|].
  split; [|split].
  - cbn [string_map hex_pattern].
    destruct (Ascii.ascii_dec c "#"%char) as [->|Hc].
    + cbn. rewrite string_map_length,
        (forallb_string_map to_upper digits is_hex_digit_upper).
      reflexivity.
    + destruct c as [[] [] [] [] [] [] [] []]; try reflexivity;
        exfalso; apply Hc; reflexivity.
  - cbn [string_map hex_pattern].
    destruct (Ascii.ascii_dec c "#"%char) as [->|Hc].
    + cbn. rewrite string_map_length,
        (forallb_string_map to_lower digits is_hex_digit_lower).
      reflexivity.
    + destruct c as [[] [] [] [] [] [] [] []]; try reflexivity;
        exfalso; apply Hc; reflexivity.
  - cbn [hex_pattern String.length].
    destruct c as [[] [] [] [] [] [] [] []]; try discriminate.
    intros H. apply andb_true_iff in H as [_ H].
    apply orb_true_iff in H as [H|H]; apply Nat.eqb_eq in H; lia.
Qed.

Lemma hex_pattern_ignores_case_witness :
  hex_pattern "#fFf" = true /\ String.length "#fFf" = 4%nat
  /\ hex_pattern "#FFF" = hex_pattern "#fFf".
Proof.
  destruct (hex_pattern_ignores_case "#fFf") as (U & _ & W).
  split; [reflexivity|].
  split; [|exact U].
  destruct (W eq_refl) as [H|H]; [exact H | discriminate H].
Defined.

(** ** Further properties: the constructor *)

Lemma get_many (document : string -> list nat) (sel : string) :
  (1 < length (document sel))%nat ->
  get document sel = NodeList (document sel).
Proof.
  intros H. unfold get.
  replace (1 <? length (document sel))%nat with true
    by (symmetry; apply Nat.ltb_lt; exact H).
  reflexivity.
Qed.

(** X4.  The failure checks of the constructor come in a fixed order.
    A selector matching nothing ends construction before the colours are
    looked at: one console line, no colour reported, whatever [colors] is.
    A selector matching several nodes, with accepted colours, makes [new]
    throw a [TypeError]: the container is then a node list, which has no
    [style] for [_.style] to assign to. *)
Theorem constructor_failure_order (document : string -> list nat)
    (computed : nat -> Z * Z) (sel : string) (colors : colors_arg)
    (layers : option (list nat)) (merge : bool) (h : list Layer) :
  (document sel = [] ->
   let c := constructor document computed sel colors layers merge h in
   ctor_completion c = Return (Prim false)
   /\ this_errors (ctor_this c) = []
   /\ ctor_console c
      = ["No container found with the selector '" ++ sel ++ "'."]%string)
  /\ ((1 < length (document sel))%nat ->
      colors_ok colors ->
      ctor_completion (constructor document computed sel colors layers
                                   merge h) = Abrupt TypeError
      /\ new_Parallax document computed sel colors layers merge h
         = inr TypeError).
Proof.
  split.
  - intros Hnone. unfold constructor, get. rewrite Hnone. cbn.
    repeat split.
  - intros Hmany Hok.
    assert (Hc : ctor_completion (constructor document computed sel colors
                                    layers merge h) = Abrupt TypeError).
    { unfold constructor.
      cbn [this_container this_errors this_defaultColors].
      rewrite (get_many document sel Hmany).
      unfold colors_ok in Hok.
      destruct (as_array colors) as [cs|].
      - rewrite check_colors_spec.
        apply invalid_tokens_nil in Hok. rewrite Hok. reflexivity.
      - reflexivity. }
    split; [exact Hc|]. unfold new_Parallax. rewrite Hc. reflexivity.
Qed.

Lemma constructor_failure_order_witness :
  new_Parallax two_containers sized_100_101 ".sky" NoColors None false []
  = inr TypeError
  /\ this_errors
       (ctor_this (constructor one_container sized_100_101 "#nowhere"
                     (ColorArray ["notacolor"%string]) None false [])) = [].
Proof.
  destruct (constructor_failure_order two_containers sized_100_101 ".sky"
              NoColors None false []) as [_ W].
  destruct (constructor_failure_order one_container sized_100_101 "#nowhere"
              (ColorArray ["notacolor"%string]) None false []) as [V _].
  split.
  - exact (proj2 (W ltac:(cbn; lia) I)).
  - exact (proj1 (proj2 (V eq_refl))).
Defined.

(** X5.  The constructor never touches the caller's layer objects: the
    store it leaves is the store it found, followed by the three default layer
    objects exactly when the body got past the colour check, and by nothing
    when it returned [false]. *)
Theorem constructor_keeps_caller_layers (document : string -> list nat)
    (computed : nat -> Z * Z) (sel : string) (colors : colors_arg)
    (layers : option (list nat)) (merge : bool) (h : list Layer) :
  let c := constructor document computed sel colors layers merge h in
  (forall l L, h !! l = Some L -> ctor_heap c !! l = Some L)
  /\ (ctor_completion c = Return (Prim false) -> ctor_heap c = h)
  /\ (ctor_completion c <> Return (Prim false) ->
      ctor_heap c = h ++ default_layers (resolved_palette colors)).
Proof.
  cbv zeta. unfold constructor, resolved_palette.
  cbn [this_container this_errors this_defaultColors].
  assert (Hpre : forall (l : nat) (L : Layer) (more : list Layer),
             h !! l = Some L -> (h ++ more) !! l = Some L).
  { intros l L more HL. rewrite lookup_app_l; [exact HL|].
    eapply lookup_lt_Some. exact HL. }
  destruct (get document sel) as [|e|es].
  - cbn. split; [tauto|]. split; [reflexivity | congruence].
  - destruct (as_array colors) as [cs|].
    + rewrite check_colors_spec. cbn [app].
      destruct (0 <? length (invalid_tokens cs))%nat; cbn.
      * split; [tauto|]. split; [reflexivity | congruence].
      * split; [intros l L; apply Hpre|]. split; [discriminate | reflexivity].
    + cbn. split; [intros l L; apply Hpre|].
      split; [discriminate | reflexivity].
  - destruct (as_array colors) as [cs|].
    + rewrite check_colors_spec. cbn [app].
      destruct (0 <? length (invalid_tokens cs))%nat; cbn.
      * split; [tauto|]. split; [reflexivity | congruence].
      * split; [intros l L; apply Hpre|]. split; [discriminate | reflexivity].
    + cbn. split; [intros l L; apply Hpre|].
      split; [discriminate | reflexivity].
Qed.

Lemma constructor_keeps_caller_layers_witness :
  ctor_heap (constructor one_container sized_100_101 "#sky" NoColors
               (Some [0; 0]%nat) false [twin_layer]) !! 0%nat
  = Some twin_layer.
Proof.
  destruct (constructor_keeps_caller_layers one_container sized_100_101
              "#sky" NoColors (Some [0; 0]%nat) false [twin_layer])
    as (W & _ & _).
  exact (W 0%nat twin_layer eq_refl).
Defined.

Lemma get_one (document : string -> list nat) (sel : string) (e : nat) :
  get document sel = Element e <-> document sel = [e].
Proof.
  unfold get. destruct (document sel) as [|e0 [|e1 rest]]; cbn.
  - split; discriminate.
  - split; intros H; injection H as ->; reflexivity.
  - split; discriminate.
Qed.

(** When the body of the constructor reaches its end, and what the
    object then holds. *)
Lemma constructor_normal_iff (document : string -> list nat)
    (computed : nat -> Z * Z) (sel : string) (given : colors_arg)
    (layers : option (list nat)) (merge : bool) (h : list Layer) :
  let c := constructor document computed sel given layers merge h in
  (ctor_completion c = Normal
   <-> (exists e, document sel = [e]) /\ colors_ok given)
  /\ (ctor_completion c = Normal
      <-> exists p, instance_of (ctor_this c) = Some p)
  /\ (forall p, instance_of (ctor_this c) = Some p ->
        document sel = [container p]
        /\ (width p, height p) = computed (container p)
        /\ colors p = resolved_palette given
        /\ errors p = []
        /\ running p = false /\ restarted p = false).
Proof.
  cbv zeta. unfold constructor, colors_ok, resolved_palette.
  cbn [this_container this_errors this_defaultColors].
  pose proof (get_one document sel) as Hone.
  destruct (get document sel) as [|e|es] eqn:Hget.
  - cbn. split; [|split].
    + split; [discriminate|]. intros [[e He] _].
      apply Hone in He. discriminate He.
    + split; [discriminate | intros [p Hp]; discriminate Hp].
    + intros p Hp. discriminate Hp.
  - assert (He : document sel = [e]) by (apply Hone; reflexivity).
    destruct (as_array given) as [cs|].
    + rewrite check_colors_spec. cbn [app].
      pose proof (invalid_tokens_nil cs) as Hnil.
      destruct (invalid_tokens cs) as [|bad rest] eqn:Hinv; cbn.
      * split; [|split].
        -- split; [intros _; split; [eauto | apply Hnil; reflexivity]
                  | reflexivity].
        -- split; [eauto | reflexivity].
        -- intros p Hp. injection Hp as <-. cbn.
           destruct (computed e). repeat split. exact He.
      * split; [|split].
        -- split; [discriminate|]. intros [_ Hok].
           apply Hnil in Hok. discriminate Hok.
        -- split; [discriminate | intros [p Hp]; discriminate Hp].
        -- intros p Hp. discriminate Hp.
    + cbn. split; [|split].
      * split; [intros _; split; [eauto | exact I] | reflexivity].
      * split; [eauto | reflexivity].
      * intros p Hp. injection Hp as <-. cbn.
        destruct (computed e). repeat split. exact He.
  - assert (Hno : forall e, document sel <> [e]).
    { intros e He. apply Hone in He. discriminate He. }
    destruct (as_array given) as [cs|].
    + rewrite check_colors_spec. cbn [app].
      destruct (invalid_tokens cs) as [|bad rest]; cbn.
      * split; [|split].
        -- split; [discriminate|]. intros [[e He] _]. destruct (Hno e He).
        -- split; [discriminate | intros [p Hp]; discriminate Hp].
        -- intros p Hp. discriminate Hp.
      * split; [|split].
        -- split; [discriminate|]. intros [[e He] _]. destruct (Hno e He).
        -- split; [discriminate | intros [p Hp]; discriminate Hp].
        -- intros p Hp. discriminate Hp.
    + cbn. split; [|split].
      * split; [discriminate|]. intros [[e He] _]. destruct (Hno e He).
      * split; [discriminate | intros [p Hp]; discriminate Hp].
      * intros p Hp. discriminate Hp.
Qed.

(** X6.  The constructor runs to its end, and leaves a usable instance,
    exactly when the selector matches one single node and every supplied
    colour is accepted by the pattern: nothing to check when [colors] is left
    out, the token itself when one token is passed, every entry when an array
    is passed.  The instance then has that node as container, its computed
    size, no reported colour, and as palette the four default colours, the
    one token in an array, or the array passed. *)
Theorem constructor_succeeds_iff (document : string -> list nat)
    (computed : nat -> Z * Z) (sel : string) (given : colors_arg)
    (layers : option (list nat)) (merge : bool) (h : list Layer) :
  let c := constructor document computed sel given layers merge h in
  (given = NoColors ->
   (ctor_completion c = Normal <-> exists e, document sel = [e]))
  /\ (forall token, given = OneColor token ->
      (ctor_completion c = Normal
       <-> (exists e, document sel = [e]) /\ hex_pattern token = true))
  /\ (forall tokens, given = ColorArray tokens ->
      (ctor_completion c = Normal
       <-> (exists e, document sel = [e])
           /\ forall token, In token tokens -> hex_pattern token = true))
  /\ (ctor_completion c = Normal
      <-> exists p, instance_of (ctor_this c) = Some p)
  /\ (forall p, instance_of (ctor_this c) = Some p ->
        document sel = [container p]
        /\ (width p, height p) = computed (container p)
        /\ errors p = []
        /\ defaultColors p
           = ["#ffffff"; "#6420e5"; "#79e865"; "#e81e6b"]%string
        /\ (given = NoColors ->
            colors p = ["#ffffff"; "#6420e5"; "#79e865"; "#e81e6b"]%string)
        /\ (forall token, given = OneColor token -> colors p = [token])
        /\ (forall tokens, given = ColorArray tokens -> colors p = tokens)).
Proof.
  intros c.
  destruct (constructor_normal_iff document computed sel given layers merge h)
    as (Hn & Hi & Hp).
  fold c in Hn, Hi, Hp.
  split; [|split; [|split; [|split]]].
  - intros ->. rewrite Hn. cbn. tauto.
  - intros token ->. rewrite Hn. unfold colors_ok. cbn.
    rewrite andb_true_r. tauto.
  - intros tokens ->. rewrite Hn. unfold colors_ok. cbn.
    rewrite forallb_forall. tauto.
  - exact Hi.
  - intros p Hinst. destruct (Hp p Hinst) as (H1 & H2 & H3 & H4 & _).
    split; [exact H1|]. split; [exact H2|]. split; [exact H4|].
    split.
    + subst c. unfold instance_of, constructor in Hinst.
      cbn [this_container this_errors this_defaultColors] in Hinst.
      destruct (get document sel) as [|e|es]; [discriminate Hinst| |].
      * destruct (as_array given) as [cs|].
        -- destruct (check_colors cs [] []) as [errs console].
           destruct (0 <? length errs)%nat; [discriminate Hinst|].
           cbn in Hinst. injection Hinst as <-. reflexivity.
        -- cbn in Hinst. injection Hinst as <-. reflexivity.
      * destruct (as_array given) as [cs|].
        -- destruct (check_colors cs [] []) as [errs console].
           destruct (0 <? length errs)%nat; discriminate Hinst.
        -- discriminate Hinst.
    + split; [|split].
      * intros ->. exact H3.
      * intros token ->. exact H3.
      * intros tokens ->. exact H3.
Qed.

(** On the page of [sky]: a lone valid token is accepted and becomes
    the palette; a lone invalid one makes the constructor return early. *)
Lemma constructor_succeeds_iff_witness :
  ctor_completion (constructor one_container sized_100_101 "#sky"
                     (OneColor "#abc") None false []) = Normal
  /\ ctor_completion (constructor one_container sized_100_101 "#sky"
                        (OneColor "abc") None false []) <> Normal
  /\ this_colors (ctor_this (constructor one_container sized_100_101 "#sky"
                               (OneColor "#abc") None false []))
     = Some ["#abc"%string].
Proof.
  destruct (constructor_succeeds_iff one_container sized_100_101 "#sky"
              (OneColor "#abc") None false []) as (_ & W & _ & _ & _).
  destruct (constructor_succeeds_iff one_container sized_100_101 "#sky"
              (OneColor "abc") None false []) as (_ & V & _ & _ & _).
  split; [|split].
  - apply (W "#abc"%string eq_refl). split; [exists 7%nat|]; reflexivity.
  - intros H. apply (V "abc"%string eq_refl) in H. destruct H as [_ H].
    discriminate H.
  - reflexivity.
Defined.

(** ** Further properties: [calculate] *)

Lemma previous_after_cons (previous : jsnum * jsnum) (star : Star)
    (news : list Star) :
  previous_after previous (star :: news)
  = previous_after (Num (star_x star), Num (star_y star)) news.
Proof.
  unfold previous_after. destruct news as [|star' news]; [reflexivity|].
  change (last (star :: star' :: news)) with (last (star' :: news)).
  destruct (last (star' :: news)) eqn:E; [reflexivity|].
  apply last_None in E. discriminate E.
Qed.

Section Dressing.

Variable rand : nat -> Q.
Hypothesis rand_unit : unit_interval rand.

(** A new star takes its colour from the palette of its layer and gets
    a downward speed below 0.05. *)
Lemma new_star_dressed (l : nat) (previous : jsnum * jsnum) (s : State)
    (L : Layer) :
  heap s !! l = Some L ->
  exists star n, new_star rand l previous s = Ok star (with_tape n s)
                 /\ dressed (self s) L star.
Proof.
  intros HL. unfold new_star, bind, get_self.
  destruct (random_ok rand (-10) (width (self s)) (fst previous) None s)
    as (x & n1 & Ex).
  rewrite Ex.
  destruct (random_ok rand (-10) (height (self s)) (snd previous) None
                      (with_tape n1 s)) as (y & n2 & Ey).
  rewrite Ey. unfold deref. cbn [heap with_tape]. rewrite HL.
  cbn [self with_tape].
  destruct (rand_unit (S n2)) as [R0 R1].
  assert (Hspeed : 0 <= rand (S n2) * (5 # 100)
                   /\ rand (S n2) * (5 # 100) < 5 # 100).
  { split.
    - apply Qmult_le_0_compat; [exact R0 | discriminate].
    - apply Qlt_le_trans with (1 * (5 # 100)).
      + apply Qmult_lt_compat_r; [reflexivity | exact R1].
      + apply Qle_refl. }
  destruct (palette (self s) L) as [|c0 pal] eqn:Hpal.
  - rewrite pick_empty_run. unfold Math_random, ret.
    eexists _, _. split; [reflexivity|]. unfold dressed. rewrite Hpal.
    cbn [star_color star_speed vec_x vec_y tape with_tape].
    split; [reflexivity|]. split; [congruence|].
    split; [reflexivity | exact Hspeed].
  - destruct (pick_run rand (c0 :: pal) (with_tape n2 (with_tape n1 s))
                rand_unit ltac:(discriminate)) as (k & Hk & Ep).
    rewrite Ep. unfold Math_random, ret.
    destruct (lookup_lt_is_Some_2 (c0 :: pal) k Hk) as [c Hc].
    eexists _, _. split; [reflexivity|]. unfold dressed. rewrite Hpal.
    cbn [star_color star_speed vec_x vec_y tape with_tape].
    split; [discriminate|]. split; [|split; [reflexivity | exact Hspeed]].
    intros _. exists c. split; [exact Hc|].
    apply list_elem_of_In. eapply list_elem_of_lookup_2. exact Hc.
Qed.

(** The inner loop of [calculate]: the stars it appends, and the
    [previous] it leaves, which is the position of the last of them. *)
Lemma star_loop_news (l : nat) (bound : Q) (i : Z) (stars : list Star)
    (previous : jsnum * jsnum) (s : State) :
  forall (s0 : State) (m : nat) (L : Layer),
    s = with_tape m s0 ->
    heap s0 !! l = Some L ->
    exists news n,
      star_loop rand l bound i stars previous s
      = Ok (stars ++ news, previous_after previous news) (with_tape n s0)
      /\ Forall (dressed (self s0) L) news.
Proof.
  funelim (star_loop rand l bound i stars previous s);
    intros s0 m L Hs HL.
  - exists [], m. subst s. rewrite app_nil_r.
    split; [reflexivity | constructor].
  - subst s.
    destruct (new_star_dressed l previous (with_tape m s0) L HL)
      as (star' & n & E & Hd).
    rewrite E in Heq. injection Heq as <- <-.
    destruct (H s0 n L eq_refl HL) as (news & n' & E' & HP).
    exists (star' :: news), n'.
    rewrite previous_after_cons.
    replace (stars ++ star' :: news) with ((stars ++ [star']) ++ news)
      by (rewrite <- app_assoc; reflexivity).
    split; [exact E'|]. constructor; assumption.
  - subst s.
    destruct (new_star_dressed l previous (with_tape m s0) L HL)
      as (star' & n & E & _).
    rewrite E in Heq. discriminate.
Qed.

Lemma calculate_layer_news (previous : jsnum * jsnum) (l : nat) (s : State)
    (L : Layer) :
  heap s !! l = Some L ->
  exists news n,
    calculate_layer rand previous l s
    = Ok (previous_after previous news)
         (with_heap (<[l := set_stars news L]> (heap s)) (with_tape n s))
    /\ Forall (dressed (self s) L) news.
Proof.
  intros HL. unfold calculate_layer, bind, get_self, deref. rewrite HL.
  destruct (star_loop_news l (to_double (density_or_default L * area (self s)))
              0 [] previous s s (tape s) L
              (eq_sym (with_tape_self s)) HL)
    as (news & n & E & HP).
  rewrite E. cbn [heap with_tape]. rewrite HL. unfold store, ret.
  exists news, n. split; [reflexivity | exact HP].
Qed.

Lemma dressed_same (p : Parallax) (L L' : Layer) (star : Star) :
  same_settings L L' -> dressed p L star -> dressed p L' star.
Proof.
  intros (_ & _ & _ & Hc). unfold dressed, palette. rewrite Hc. tauto.
Qed.

Lemma calculate_layers_dressed (ls : list nat) :
  forall (previous : jsnum * jsnum) (s : State),
    Forall (fun l => (l < length (heap s))%nat) ls ->
    exists prev' h' n,
      calculate_layers rand previous ls s
      = Ok prev' (with_heap h' (with_tape n s))
      /\ length h' = length (heap s)
      /\ (forall l, ~ In l ls -> h' !! l = heap s !! l)
      /\ (forall l L, In l ls -> heap s !! l = Some L ->
            exists stars, h' !! l = Some (set_stars stars L)
                          /\ Forall (dressed (self s) L) stars).
Proof.
  induction ls as [|l ls IH]; intros previous s Hin.
  - exists previous, (heap s), (tape s). cbn. unfold ret.
    split; [destruct s; reflexivity|]. split; [reflexivity|].
    split; [reflexivity | intros l L []].
  - inversion Hin as [|? ? Hl Hls]; subst.
    destruct (lookup_lt_is_Some_2 _ _ Hl) as [L HL].
    destruct (calculate_layer_news previous l s L HL)
      as (news & n1 & E1 & HP).
    cbn [calculate_layers]. unfold bind at 1. rewrite E1.
    set (s1 := with_heap (<[l := set_stars news L]> (heap s))
                         (with_tape n1 s)) in *.
    destruct (IH (previous_after previous news) s1)
      as (prev' & h' & n & E & Hlen & Hout & Hdone).
    { cbn [s1 heap with_heap with_tape]. rewrite length_insert. exact Hls. }
    exists prev', h', n. split; [rewrite E; reflexivity|].
    cbn [s1 heap with_heap with_tape self] in Hlen, Hout, Hdone.
    split; [rewrite Hlen; apply length_insert|]. split.
    + intros l' Hl'. rewrite Hout by (intros H; apply Hl'; right; exact H).
      apply list_lookup_insert_ne. intros ->. apply Hl'. left. reflexivity.
    + intros l' L' Hl' HL'.
      destruct (in_dec Nat.eq_dec l' ls) as [Hi|Hni].
      * destruct (decide (l = l')) as [<-|Hne].
        -- replace L' with L in * by congruence.
           destruct (Hdone l (set_stars news L) Hi) as (stars & Hh & Hd).
           { apply list_lookup_insert_eq. exact Hl. }
           exists stars. split; [exact Hh|].
           eapply Forall_impl; [exact Hd|]. intros star.
           apply dressed_same. repeat split.
        -- apply (Hdone l' L' Hi).
           rewrite list_lookup_insert_ne by exact Hne. exact HL'.
      * destruct Hl' as [<-|Hl']; [|contradiction].
        replace L' with L in * by congruence.
        exists news. split; [|exact HP].
        rewrite Hout by exact Hni. apply list_lookup_insert_eq. exact Hl.
Qed.

End Dressing.

(** [calculate] with the colour and speed of every star it stores. *)
Lemma calculate_dressed (rand : nat -> Q) (s : State) :
  unit_interval rand ->
  Forall (fun l => (l < length (heap s))%nat) (layers (self s)) ->
  exists s',
    calculate rand s = Ok (layers (self s)) s'
    /\ forall l L, In l (layers (self s)) -> heap s !! l = Some L ->
         exists stars, heap s' !! l = Some (set_stars stars L)
                       /\ Forall (dressed (self s) L) stars.
Proof.
  intros Hr Hrefs. unfold calculate, bind, get_self. cbn [self with_calcs].
  destruct (calculate_layers_dressed rand Hr (layers (self s)) (Null, Null)
              (with_calcs (S (calcs s)) s) Hrefs)
    as (prev' & h' & n & E & _ & _ & Hdone).
  rewrite E. unfold ret. eexists. split; [reflexivity|].
  exact Hdone.
Qed.

(** X7.  Every star [calculate] stores takes its colour from the
    palette in force for its layer: the layer's own [colors] when it has
    some, the palette of the instance otherwise.  With an empty palette the
    colour is [undefined]. *)
Theorem calculate_colours_from_palette (rand : nat -> Q) (s : State) :
  unit_interval rand ->
  Forall (fun l => (l < length (heap s))%nat) (layers (self s)) ->
  exists s',
    calculate rand s = Ok (layers (self s)) s'
    /\ forall l L, In l (layers (self s)) -> heap s !! l = Some L ->
         exists L' stars,
           heap s' !! l = Some L' /\ layer_stars L' = Some stars
           /\ forall star, In star stars ->
                let pal := match layer_colors L with
                           | Some cs => cs
                           | None => colors (self s)
                           end in
                (pal = [] -> star_color star = None)
                /\ (pal <> [] ->
                    exists c, star_color star = Some c /\ In c pal).
Proof.
  intros Hr Hrefs.
  destruct (calculate_dressed rand s Hr Hrefs) as (s' & E & Hd).
  exists s'. split; [exact E|].
  intros l L Hl HL. destruct (Hd l L Hl HL) as (stars & HL' & HP).
  exists (set_stars stars L), stars.
  split; [exact HL'|]. split; [reflexivity|].
  intros star Hin. rewrite List.Forall_forall in HP.
  destruct (HP star Hin) as (H1 & H2 & _).
  split; [exact H1 | exact H2].
Qed.

Lemma calculate_colours_from_palette_witness :
  exists s' L' stars,
    calculate mid_oracle sky_state = Ok [0; 1; 2]%nat s'
    /\ heap s' !! 0%nat = Some L' /\ layer_stars L' = Some stars
    /\ forall star, In star stars ->
         exists c, star_color star = Some c /\ In c default_palette.
Proof.
  destruct (calculate_colours_from_palette mid_oracle sky_state
              mid_oracle_unit sky_refs) as (s' & E & W).
  destruct (W 0%nat _ (or_introl eq_refl) eq_refl)
    as (L' & stars & HL' & Hst & Hc).
  exists s', L', stars.
  split; [exact E|]. split; [exact HL'|]. split; [exact Hst|].
  intros star Hin. exact (proj2 (Hc star Hin) ltac:(discriminate)).
Defined.

(** X8.  Every star [calculate] stores has no horizontal speed of its
    own and a downward speed in [[0, 0.05)]. *)
Theorem calculate_star_speeds (rand : nat -> Q) (s : State) :
  unit_interval rand ->
  Forall (fun l => (l < length (heap s))%nat) (layers (self s)) ->
  exists s',
    calculate rand s = Ok (layers (self s)) s'
    /\ forall l, In l (layers (self s)) ->
         exists L' stars,
           heap s' !! l = Some L' /\ layer_stars L' = Some stars
           /\ forall star, In star stars ->
                vec_x (star_speed star) = 0
                /\ 0 <= vec_y (star_speed star)
                /\ vec_y (star_speed star) < 5 # 100.
Proof.
  intros Hr Hrefs.
  destruct (calculate_dressed rand s Hr Hrefs) as (s' & E & Hd).
  exists s'. split; [exact E|].
  intros l Hl.
  rewrite List.Forall_forall in Hrefs.
  destruct (lookup_lt_is_Some_2 _ _ (Hrefs l Hl)) as [L HL].
  destruct (Hd l L Hl HL) as (stars & HL' & HP).
  exists (set_stars stars L), stars.
  split; [exact HL'|]. split; [reflexivity|].
  intros star Hin. rewrite List.Forall_forall in HP.
  destruct (HP star Hin) as (_ & _ & H3 & H4 & H5).
  repeat split; assumption.
Qed.

Lemma calculate_star_speeds_witness :
  exists s' L' stars,
    calculate mid_oracle sky_state = Ok [0; 1; 2]%nat s'
    /\ heap s' !! 2%nat = Some L' /\ layer_stars L' = Some stars
    /\ forall star, In star stars -> vec_y (star_speed star) < 5 # 100.
Proof.
  destruct (calculate_star_speeds mid_oracle sky_state mid_oracle_unit
              sky_refs) as (s' & E & W).
  destruct (W 2%nat ltac:(cbn; tauto)) as (L' & stars & HL' & Hst & Hv).
  exists s', L', stars.
  split; [exact E|]. split; [exact HL'|]. split; [exact Hst|].
  intros star Hin. exact (proj2 (proj2 (Hv star Hin))).
Defined.

Lemma Qmult_neg_nonneg (d a : Q) : d <= 0 -> 0 <= a -> d * a <= 0.
Proof.
  intros Hd Ha.
  assert (H : 0 <= - d * a).
  { apply Qmult_le_0_compat; [|exact Ha].
    apply (Qopp_le_compat d 0). exact Hd. }
  apply Qopp_le_compat in H.
  assert (E : - (- d * a) == d * a) by ring.
  rewrite E in H. exact H.
Qed.

(** The count of a layer, case by case on its [density]. *)
Lemma count_cases (p : Parallax) (L : Layer) (n : nat) :
  n = star_count p L ->
  let area := to_double (inject_Z (width p * height p)) in
  let turns :=
    fun density : Q => Z.to_nat (Qceiling (to_double (density * area))) in
  (layer_density L = None -> n = turns (to_double (1 # 5000)))
  /\ (forall d, layer_density L = Some d -> d == 0 ->
        n = turns (to_double (1 # 5000)))
  /\ (forall d, layer_density L = Some d -> ~ d == 0 -> n = turns d).
Proof.
  intros -> area0 turns. unfold star_count.
  destruct (density_cases L) as (D1 & D2 & D3).
  split; [|split].
  - intros Hd. rewrite (D1 Hd). reflexivity.
  - intros d Hd E0. rewrite (D2 d Hd E0). reflexivity.
  - intros d Hd E0. rewrite (D3 d Hd E0). reflexivity.
Qed.

(** X9.  Edge cases of the star count.  A layer whose [density] is 0
    is treated as one without density: it gets the stars of density 1/5000.
    A layer with a negative density gets an empty array, not [undefined], and
    so does every layer when the container has width or height 0. *)
Theorem calculate_density_edges (rand : nat -> Q) (s : State) :
  Forall (fun l => (l < length (heap s))%nat) (layers (self s)) ->
  exists s',
    calculate rand s = Ok (layers (self s)) s'
    /\ forall l L, In l (layers (self s)) -> heap s !! l = Some L ->
         exists L' stars,
           heap s' !! l = Some L' /\ layer_stars L' = Some stars
           /\ (forall d, layer_density L = Some d -> d == 0 ->
                 length stars
                 = Z.to_nat
                     (Qceiling
                        (to_double
                           (to_double (1 # 5000)
                            * to_double (inject_Z (width (self s)
                                                   * height (self s)))))))
           /\ (forall d, layer_density L = Some d -> d < 0 ->
                 (0 <= width (self s) * height (self s))%Z -> stars = [])
           /\ ((width (self s) * height (self s) = 0)%Z -> stars = []).
Proof.
  intros Hrefs.
  destruct (calculate_run rand s Hrefs)
    as (s' & E & _ & _ & HS & _ & Hseed).
  exists s'. split; [exact E|].
  intros l L Hl HL.
  destruct (Hseed l Hl) as (L' & stars & HL' & Hst & Hlen & _).
  destruct (Forall2_lookup_l _ _ _ _ _ HS HL) as (L2 & HL2 & HLL).
  replace L2 with L' in HLL by congruence.
  unfold star_count in Hlen. rewrite (density_same L L' HLL) in Hlen.
  exists L', stars. split; [exact HL'|]. split; [exact Hst|].
  assert (Hempty : density_or_default L * area (self s) <= 0 -> stars = []).
  { intros Hle. apply to_double_nonpos in Hle.
    pose proof (ceiling_le _ 0 Hle) as Hc.
    destruct stars; [reflexivity | cbn [length] in Hlen; lia]. }
  destruct (count_cases (self s) L (length stars)) as (_ & C0 & _).
  { unfold star_count. exact Hlen. }
  destruct (density_cases L) as (_ & _ & D3).
  split; [exact C0|]. split.
  - intros d Hd Hneg Harea. apply Hempty.
    rewrite (D3 d Hd) by (intros E0; rewrite E0 in Hneg; discriminate Hneg).
    apply Qmult_neg_nonneg; [apply Qlt_le_weak; exact Hneg|].
    unfold area. apply to_double_nonneg.
    change 0 with (inject_Z 0). rewrite <- Zle_Qle. exact Harea.
  - intros Ha. apply Hempty. unfold area. rewrite Ha.
    change (to_double (inject_Z 0)) with 0.
    rewrite Qmult_0_r. apply Qle_refl.
Qed.


Lemma flat_refs : Forall (fun l => (l < length (heap flat_state))%nat)
                         (layers (self flat_state)).
Proof. repeat constructor. Qed.

Lemma calculate_density_edges_witness :
  exists s' L' stars,
    calculate mid_oracle flat_state = Ok [0; 1; 2]%nat s'
    /\ heap s' !! 0%nat = Some L' /\ layer_stars L' = Some stars
    /\ stars = [].
Proof.
  destruct (calculate_density_edges mid_oracle flat_state flat_refs)
    as (s' & E & W).
  destruct (W 0%nat _ (or_introl eq_refl) eq_refl)
    as (L' & stars & HL' & Hst & _ & _ & Hz).
  exists s', L', stars.
  split; [exact E|]. split; [exact HL'|]. split; [exact Hst|].
  exact (Hz eq_refl).
Defined.


(** ** Further properties: [update] and [render] *)

Lemma ready_frame (s s' : State) :
  self s' = self s -> Forall2 layer_frame (heap s) (heap s') ->
  (ready s <-> ready s').
Proof.
  intros Hself Hheap. unfold ready. rewrite Hself. split; intros H l Hl.
  - destruct (H l Hl) as (L & stars & HL & Hst).
    destruct (Forall2_lookup_l _ _ _ _ _ Hheap HL) as (L' & HL' & _ & Hf).
    unfold stars_frame in Hf. rewrite Hst in Hf.
    destruct (layer_stars L') as [stars'|] eqn:Hst'; [|destruct Hf].
    exists L', stars'. split; assumption.
  - destruct (H l Hl) as (L' & stars' & HL' & Hst').
    destruct (Forall2_lookup_r _ _ _ _ _ Hheap HL') as (L & HL & _ & Hf).
    unfold stars_frame in Hf. rewrite Hst' in Hf.
    destruct (layer_stars L) as [stars|] eqn:Hst; [|destruct Hf].
    exists L, stars. split; assumption.
Qed.

Lemma ready_moved (s s' : State) :
  self s' = self s -> Forall2 layer_frame (heap s) (heap s') ->
  ready s -> ready s'.
Proof. intros Hself Hheap. apply (ready_frame s s' Hself Hheap). Qed.

Section Seeded.

Variable rand : nat -> Q.

(** The outer loop of [update] over layers that all hold a speed and a
    star array: it returns, having changed the store and the number of draws
    only. *)
Lemma update_layers_ok (ls : list nat) :
  forall s : State,
    (forall l, In l ls -> exists L speed stars,
          heap s !! l = Some L /\ layer_speed L = Some speed
          /\ layer_stars L = Some stars) ->
    exists h' n,
      forM_ (update_layer rand) ls s = Ok tt (with_heap h' (with_tape n s))
      /\ Forall2 layer_frame (heap s) h'.
Proof.
  induction ls as [|l ls IH]; intros s Hready.
  - exists (heap s), (tape s). cbn. unfold ret.
    split; [destruct s; reflexivity | apply heap_frame_refl].
  - destruct (Hready l (or_introl eq_refl))
      as (L & speed & stars & HL & Hsp & Hst).
    destruct (update_layer_run rand l s L speed stars HL Hsp Hst)
      as (stars' & n1 & E1 & _).
    pose proof (update_layer_frame rand l s) as [_ Hf1].
    rewrite E1 in Hf1. cbn [final heap with_heap with_tape] in Hf1.
    set (s1 := with_heap (<[l := set_stars stars' L]> (heap s))
                         (with_tape n1 s)) in *.
    destruct (IH s1) as (h' & n & E & Hf).
    { intros l' Hl'. destruct (Hready l' (or_intror Hl'))
        as (L0 & speed0 & stars0 & HL0 & Hsp0 & Hst0).
      destruct (Forall2_lookup_l _ _ _ _ _ Hf1 HL0)
        as (L1 & HL1 & (_ & Hsp1 & _) & Hfr).
      unfold stars_frame in Hfr. rewrite Hst0 in Hfr.
      destruct (layer_stars L1) as [stars1|] eqn:Hst1; [|destruct Hfr].
      exists L1, speed0, stars1.
      split; [exact HL1|]. split; [congruence | exact Hst1]. }
    exists h', n. cbn [forM_]. unfold bind. rewrite E1.
    split; [exact E|].
    eapply heap_frame_trans; [exact Hf1 | exact Hf].
Qed.

Lemma update_layers_ok_inv (ls : list nat) :
  forall s s' : State,
    forM_ (update_layer rand) ls s = Ok tt s' ->
    forall l, In l ls -> exists L stars,
        heap s !! l = Some L /\ layer_stars L = Some stars.
Proof.
  induction ls as [|l ls IH]; intros s s' E l' Hl'; [destruct Hl'|].
  cbn [forM_] in E. unfold bind in E.
  pose proof (update_layer_frame rand l s) as [_ Hf1].
  destruct (update_layer rand l s) as [[] s1|e s1] eqn:E1; [|discriminate].
  cbn [final] in Hf1.
  destruct Hl' as [<-|Hl'].
  - unfold update_layer, bind, deref, stars_of in E1.
    destruct (heap s !! l) as [L|]; [|discriminate].
    destruct (layer_stars L) as [stars|] eqn:Hst; [|discriminate].
    exists L, stars. split; [reflexivity | exact Hst].
  - destruct (IH s1 s' E l' Hl') as (L1 & stars1 & HL1 & Hst1).
    destruct (Forall2_lookup_r _ _ _ _ _ Hf1 HL1) as (L & HL & _ & Hfr).
    unfold stars_frame in Hfr. rewrite Hst1 in Hfr.
    destruct (layer_stars L) as [stars|] eqn:Hst; [|destruct Hfr].
    exists L, stars. split; assumption.
Qed.

(** A turn of the inner loop writes to its own layer object only. *)
Lemma update_at_other (l l' i : nat) (s s' : State) :
  l <> l' -> update_at rand l i s = Ok tt s' -> heap s' !! l' = heap s !! l'.
Proof.
  intros Hne E. unfold update_at, bind, get_self, deref, stars_of in E.
  destruct (heap s !! l) as [L|]; [|discriminate].
  destruct (layer_stars L) as [stars|]; [|discriminate].
  unfold ret in E. destruct (stars !! i) as [a|]; [|discriminate].
  pose proof (update_star_cases rand (self s) L a s) as Hc.
  destruct (update_star rand (self s) L a s) as [b s1|e s1]; [|discriminate].
  destruct Hc as [[n ->] _]. injection E as <-.
  cbn [heap with_heap with_tape]. apply list_lookup_insert_ne. exact Hne.
Qed.

Lemma update_layer_other (l l' : nat) (s s' : State) :
  l <> l' -> update_layer rand l s = Ok tt s' -> heap s' !! l' = heap s !! l'.
Proof.
  intros Hne E. unfold update_layer, bind, deref, stars_of in E.
  destruct (heap s !! l) as [L|]; [|discriminate].
  destruct (layer_stars L) as [stars|]; [|discriminate].
  unfold ret in E. revert s s' E.
  generalize (seq 0 (length stars)) as todo.
  induction todo as [|i todo IH]; intros s s' E.
  - injection E as <-. reflexivity.
  - cbn [forM_] in E. unfold bind in E.
    destruct (update_at rand l i s) as [[] s1|e s1] eqn:E1; [|discriminate].
    rewrite (IH s1 s' E). exact (update_at_other l l' i s s1 Hne E1).
Qed.

(** On a layer without [speed], the inner loop of [update] throws at
    the first star it finds inside. *)
Lemma update_from_stuck (l : nat) (todo : list Star) :
  forall (done : list Star) (s : State) (L : Layer),
    heap s !! l = Some L -> layer_speed L = None ->
    layer_stars L = Some (done ++ todo) ->
    (exists a, In a todo /\ isInside (self s) (star_x a) (star_y a) = true) ->
    exists s',
      forM_ (update_at rand l) (seq (length done) (length todo)) s
      = Throw TypeError s'.
Proof.
  induction todo as [|a todo IH]; intros done s L HL Hsp Hst (a0 & Hin & Hins);
    [destruct Hin|].
  assert (Ha : (done ++ a :: todo) !! length done = Some a)
    by (apply list_lookup_middle; reflexivity).
  cbn [length seq forM_]. unfold bind at 1.
  unfold update_at, bind, get_self, deref, stars_of. rewrite HL, Hst.
  unfold ret. rewrite Ha. unfold update_star at 1.
  destruct (isInside (self s) (star_x a) (star_y a)) eqn:Hia.
  - rewrite Hsp. exists s. reflexivity.
  - destruct Hin as [<-|Hin]; [congruence|].
    unfold bind.
    destruct (random_ok rand 0 (width (self s)) Undefined None s)
      as (x & n1 & ->).
    unfold ret, store. cbn [heap with_tape].
    rewrite insert_app_r_alt, Nat.sub_diag by lia.
    cbn [insert list_insert].
    set (b := mkStar x 1 (star_color a) (star_speed a)).
    set (L1 := set_stars (done ++ b :: todo) L).
    set (s1 := with_heap (<[l := L1]> (heap s)) (with_tape n1 s)).
    destruct (IH (done ++ [b]) s1 L1) as (s' & E).
    { cbn [s1 heap with_heap with_tape].
      apply list_lookup_insert_eq. eapply lookup_lt_Some. exact HL. }
    { exact Hsp. }
    { cbn [L1 layer_stars set_stars]. rewrite <- app_assoc. reflexivity. }
    { exists a0. split; [exact Hin | exact Hins]. }
    rewrite length_app, Nat.add_1_r in E. cbn [length] in E.
    exists s'. exact E.
Qed.

Lemma update_layer_stuck (l : nat) (s : State) (L : Layer)
    (stars : list Star) (a : Star) :
  heap s !! l = Some L -> layer_speed L = None ->
  layer_stars L = Some stars ->
  In a stars -> isInside (self s) (star_x a) (star_y a) = true ->
  exists s', update_layer rand l s = Throw TypeError s'.
Proof.
  intros HL Hsp Hst Hin Hins.
  destruct (update_from_stuck l stars [] s L HL Hsp Hst
              (ex_intro _ a (conj Hin Hins))) as (s' & E).
  exists s'. unfold update_layer, bind, deref, stars_of. rewrite HL, Hst.
  unfold ret. exact E.
Qed.

(** When the outer loop of [update] returns, no layer without [speed]
    held a star inside. *)
Lemma update_layers_speed_inv (ls : list nat) :
  forall s s' : State,
    forM_ (update_layer rand) ls s = Ok tt s' ->
    forall l L stars a,
      In l ls -> heap s !! l = Some L -> layer_speed L = None ->
      layer_stars L = Some stars -> In a stars ->
      isInside (self s) (star_x a) (star_y a) = false.
Proof.
  induction ls as [|l0 ls IH]; intros s s' E l L stars a Hl HL Hsp Hst Hin;
    [destruct Hl|].
  cbn [forM_] in E. unfold bind in E.
  pose proof (update_layer_frame rand l0 s) as [Hself _].
  destruct (update_layer rand l0 s) as [[] s1|e s1] eqn:E1; [|discriminate].
  cbn [final] in Hself.
  destruct (decide (l0 = l)) as [->|Hne].
  - destruct (isInside (self s) (star_x a) (star_y a)) eqn:Hins;
      [|reflexivity].
    destruct (update_layer_stuck l s L stars a HL Hsp Hst Hin Hins)
      as (s2 & E2).
    congruence.
  - destruct Hl as [Hl|Hl]; [contradiction|].
    rewrite <- Hself.
    apply (IH s1 s' E l L stars a Hl); try assumption.
    rewrite (update_layer_other l0 l s s1 Hne E1). exact HL.
Qed.

Lemma paint_all (f : Star -> draw) (stars : list Star) :
  forall s : State,
    forM_ (fun star => paint (f star)) stars s
    = Ok tt (with_canvas (canvas s ++ map f stars) s).
Proof.
  induction stars as [|star stars IH]; intros s; cbn [forM_ map].
  - unfold ret. rewrite app_nil_r. destruct s; reflexivity.
  - unfold bind, paint at 1. rewrite IH.
    cbn [canvas with_canvas]. rewrite <- app_assoc. reflexivity.
Qed.

Lemma render_layer_run (l : nat) (s : State) (L : Layer)
    (stars : list Star) :
  heap s !! l = Some L -> layer_stars L = Some stars ->
  render_layer l s
  = Ok tt (with_canvas (canvas s ++ layer_fills (heap s) l) s).
Proof.
  intros HL Hst. unfold render_layer, bind, deref, stars_of, layer_fills.
  rewrite HL, Hst. unfold ret. apply paint_all.
Qed.

Lemma render_layers_run (ls : list nat) :
  forall s : State,
    (forall l, In l ls -> exists L stars,
          heap s !! l = Some L /\ layer_stars L = Some stars) ->
    forM_ render_layer ls s
    = Ok tt (with_canvas (canvas s ++ flat_map (layer_fills (heap s)) ls) s).
Proof.
  induction ls as [|l ls IH]; intros s Hready; cbn [forM_ flat_map].
  - unfold ret. rewrite app_nil_r. destruct s; reflexivity.
  - destruct (Hready l (or_introl eq_refl)) as (L & stars & HL & Hst).
    unfold bind. rewrite (render_layer_run l s L stars HL Hst).
    rewrite IH by (intros l' Hl'; apply Hready; right; exact Hl').
    cbn [canvas heap with_canvas]. rewrite <- app_assoc. reflexivity.
Qed.

Lemma render_layers_ok_inv (ls : list nat) :
  forall s s' : State,
    forM_ render_layer ls s = Ok tt s' ->
    forall l, In l ls -> exists L stars,
        heap s !! l = Some L /\ layer_stars L = Some stars.
Proof.
  induction ls as [|l ls IH]; intros s s' E l' Hl'; [destruct Hl'|].
  cbn [forM_] in E. unfold bind in E.
  destruct (heap s !! l) as [L|] eqn:HL.
  - destruct (layer_stars L) as [stars|] eqn:Hst.
    + rewrite (render_layer_run l s L stars HL Hst) in E.
      destruct Hl' as [<-|Hl']; [exists L, stars; split; assumption|].
      exact (IH _ s' E l' Hl').
    + unfold render_layer, bind, deref, stars_of in E.
      rewrite HL, Hst in E. discriminate.
  - unfold render_layer, bind, deref in E. rewrite HL in E. discriminate.
Qed.

End Seeded.

Lemma render_paints_in_order_run (s : State) :
  ready s ->
  render s
  = Ok tt (with_canvas
             (canvas s ++ flat_map (layer_fills (heap s)) (layers (self s)))
             s).
Proof.
  intros Hready. unfold render, bind, get_self.
  exact (render_layers_run (layers (self s)) s Hready).
Qed.

(** X11.  [render] returns normally exactly when every layer of
    [this.layers] holds a star array.  [update] needs the star arrays too, and
    a [speed] in every layer that holds a star inside the box; it returns when
    every layer holds a speed and a star array.  On a freshly constructed
    instance, before [calculate], both throw. *)
Theorem update_render_need_stars (rand : nat -> Q) (s : State) :
  ((exists s', render s = Ok tt s') <-> ready s)
  /\ ((exists s', update rand s = Ok tt s') ->
      ready s
      /\ forall l L stars a,
           In l (layers (self s)) -> heap s !! l = Some L ->
           layer_stars L = Some stars -> In a stars ->
           isInside (self s) (star_x a) (star_y a) = true ->
           exists speed, layer_speed L = Some speed)
  /\ (ready s -> moving s -> exists s', update rand s = Ok tt s').
Proof.
  split; [split|split].
  - intros [s' E]. unfold render, bind, get_self in E.
    exact (render_layers_ok_inv _ s s' E).
  - intros Hready. eexists. unfold render, bind, get_self.
    apply render_layers_run. exact Hready.
  - intros [s' E]. unfold update, bind, get_self in E. split.
    + exact (update_layers_ok_inv rand _ s s' E).
    + intros l L stars a Hl HL Hst Hin Hins.
      destruct (layer_speed L) as [speed|] eqn:Hsp; [exists speed; reflexivity|].
      pose proof (update_layers_speed_inv rand _ s s' E l L stars a
                    Hl HL Hsp Hst Hin) as Hout.
      congruence.
  - intros Hready Hmoving.
    destruct (update_layers_ok rand (layers (self s)) s) as (h' & n & E & _).
    { intros l Hl. destruct (Hready l Hl) as (L & stars & HL & Hst).
      destruct (Hmoving l Hl) as (L0 & speed & HL0 & Hsp).
      replace L0 with L in Hsp by congruence.
      exists L, speed, stars. repeat split; assumption. }
    eexists. unfold update, bind, get_self. exact E.
Qed.

(** On [sky]: once seeded, [update] returns; before [calculate],
    [render] throws.  With its first layer stripped of its [speed], the
    seeded [sky] makes [update] throw. *)
Lemma update_render_need_stars_witness :
  (exists s', update mid_oracle sky_seeded = Ok tt s')
  /\ ~ (exists s', render sky_state = Ok tt s')
  /\ ~ (exists s', update mid_oracle sky_slow = Ok tt s').
Proof.
  destruct (update_render_need_stars mid_oracle sky_seeded) as (_ & _ & U).
  destruct (update_render_need_stars mid_oracle sky_state) as ([R _] & _).
  destruct (update_render_need_stars mid_oracle sky_slow) as (_ & N & _).
  split; [|split].
  - apply U; [exact sky_seeded_ready|].
    intros l Hl. destruct (sky_seeded_moving l Hl) as (L & speed & _ & HL & Hsp & _).
    exists L, speed. split; assumption.
  - intros H. destruct (R H 0%nat (or_introl eq_refl)) as (L & stars & HL & Hst).
    injection HL as <-. discriminate Hst.
  - intros H. destruct (N H) as [_ Hspeed].
    destruct (Hspeed 0%nat _ _ _ (or_introl eq_refl) eq_refl eq_refl
                (or_introl eq_refl) eq_refl) as [speed Hsp].
    discriminate Hsp.
Defined.

(** X12.  [render] paints one square per star, layer after layer in
    the order of [this.layers] and star after star in the order of the array,
    each with the colour and position of the star and the size of its layer;
    it changes nothing but the canvas. *)
Theorem render_paints_in_order (s : State) :
  ready s ->
  render s
  = Ok tt (with_canvas
             (canvas s ++ flat_map (layer_fills (heap s)) (layers (self s)))
             s).
Proof.
  intros Hready. unfold render, bind, get_self.
  apply render_layers_run. exact Hready.
Qed.

Lemma render_paints_in_order_witness :
  exists s', render sky_seeded = Ok tt s'
             /\ length (canvas s') = 9%nat
             /\ heap s' = heap sky_seeded.
Proof.
  pose proof (render_paints_in_order sky_seeded sky_seeded_ready) as E.
  eexists. split; [exact E|]. split; reflexivity.
Defined.

(** ** Further properties: the animation loop *)

Lemma refs_of_ready (s : State) :
  ready s -> Forall (fun l => (l < length (heap s))%nat) (layers (self s)).
Proof.
  intros Hready. apply List.Forall_forall. intros l Hl.
  destruct (Hready l Hl) as (L & stars & HL & _).
  eapply lookup_lt_Some. exact HL.
Qed.

Lemma ready_of_seeded (rand : nat -> Q) (p : Parallax) (s : State) :
  layers (self s) = layers p ->
  (forall l, In l (layers p) -> seeded rand p (heap s) l) -> ready s.
Proof.
  intros Hl Hseed l Hin. rewrite Hl in Hin.
  destruct (Hseed l Hin) as (L & stars & HL & Hst & _).
  exists L, stars. split; assumption.
Qed.

(** A layer keeps its [speed] as long as its settings are kept. *)
Lemma moving_settings (s s' : State) :
  layers (self s') = layers (self s) ->
  Forall2 same_settings (heap s) (heap s') ->
  moving s -> moving s'.
Proof.
  intros Hl Hheap H l Hin. rewrite Hl in Hin.
  destruct (H l Hin) as (L & speed & HL & Hsp).
  destruct (Forall2_lookup_l _ _ _ _ _ Hheap HL) as (L' & HL' & _ & Hsp' & _).
  exists L', speed. split; [exact HL' | congruence].
Qed.

Lemma moving_moved (s s' : State) :
  self s' = self s -> Forall2 layer_frame (heap s) (heap s') ->
  moving s -> moving s'.
Proof.
  intros Hself Hheap. apply moving_settings; [rewrite Hself; reflexivity|].
  eapply Forall2_impl; [exact Hheap|]. intros L L' [HS _]. exact HS.
Qed.

(** The two conditions together, layer by layer. *)
Lemma ready_moving (s : State) :
  ready s -> moving s ->
  forall l, In l (layers (self s)) ->
            exists L speed stars, heap s !! l = Some L
                                  /\ layer_speed L = Some speed
                                  /\ layer_stars L = Some stars.
Proof.
  intros Hready Hmoving l Hl.
  destruct (Hready l Hl) as (L & stars & HL & Hst).
  destruct (Hmoving l Hl) as (L0 & speed & HL0 & Hsp).
  replace L0 with L in Hsp by congruence.
  exists L, speed, stars. repeat split; assumption.
Qed.

(** [calculate] changes the store, the number of draws and its own
    counter, nothing else. *)
Lemma calculate_shape (rand : nat -> Q) (s : State) :
  Forall (fun l => (l < length (heap s))%nat) (layers (self s)) ->
  exists h' n,
    calculate rand s
    = Ok (layers (self s))
         (with_heap h' (with_tape n (with_calcs (S (calcs s)) s)))
    /\ Forall2 same_settings (heap s) h'
    /\ (forall l, In l (layers (self s)) -> seeded rand (self s) h' l).
Proof.
  intros Hrefs. unfold calculate, bind, get_self. cbn [self with_calcs].
  destruct (calculate_layers_run rand (layers (self s)) (Null, Null)
              (with_calcs (S (calcs s)) s) Hrefs)
    as (prev' & h' & n & E & HS & _ & Hseed).
  rewrite E. unfold ret. exists h', n.
  split; [reflexivity|]. split; [exact HS | exact Hseed].
Qed.

Section Animation.

Variable rand : nat -> Q.

(** One frame on a running instance whose layers hold a speed and
    their stars: it returns, has queued the next frame, and has only moved
    stars and painted. *)
Lemma loop_run (s : State) :
  ready s -> moving s -> running (self s) = true ->
  exists h' n c,
    loop rand s
    = Ok tt (mkState (self s) h' n c (S (raf s)) (measured s) (calcs s))
    /\ Forall2 layer_frame (heap s) h'.
Proof.
  intros Hready Hmoving Hrun. unfold loop, bind at 1, get_self. rewrite Hrun.
  unfold bind at 1. unfold bind at 1. unfold clear, bind at 1, get_self, paint.
  set (s1 := with_canvas _ _).
  assert (Hr1 : ready s1) by exact Hready.
  assert (Hm1 : moving s1) by exact Hmoving.
  destruct (update_layers_ok rand (layers (self s1)) s1
              (ready_moving s1 Hr1 Hm1))
    as (h' & n & E & Hf).
  unfold bind at 1. unfold update, bind at 1, get_self. rewrite E.
  set (s2 := with_heap h' (with_tape n s1)).
  assert (Hr2 : ready s2).
  { apply (ready_moved s1 s2); [reflexivity | exact Hf | exact Hr1]. }
  rewrite (render_paints_in_order_run s2 Hr2).
  eexists h', n, _. split; [reflexivity | exact Hf].
Qed.

(** The same frame when no layer object is listed twice: every star
    makes one step. *)
Lemma loop_step (s : State) :
  NoDup (layers (self s)) ->
  (forall l, In l (layers (self s)) ->
             exists L speed stars, heap s !! l = Some L
                                   /\ layer_speed L = Some speed
                                   /\ layer_stars L = Some stars) ->
  running (self s) = true ->
  exists h' n c,
    loop rand s
    = Ok tt (mkState (self s) h' n c (S (raf s)) (measured s) (calcs s))
    /\ Forall2 layer_frame (heap s) h'
    /\ (forall l L speed stars,
           In l (layers (self s)) -> heap s !! l = Some L ->
           layer_speed L = Some speed -> layer_stars L = Some stars ->
           exists stars',
             h' !! l = Some (set_stars stars' L)
             /\ Forall2 (fun a b => same_look a b
                                    /\ star_step rand (self s) speed a b)
                        stars stars').
Proof.
  intros Hnd Hall Hrun. unfold loop, bind at 1, get_self. rewrite Hrun.
  unfold bind at 1. unfold bind at 1. unfold clear, bind at 1, get_self, paint.
  set (s1 := with_canvas _ _).
  assert (Hall1 : forall l, In l (layers (self s1)) ->
             exists L speed stars, heap s1 !! l = Some L
                                   /\ layer_speed L = Some speed
                                   /\ layer_stars L = Some stars)
    by exact Hall.
  destruct (update_layers_run rand (layers (self s1)) s1 Hnd Hall1)
    as (h' & n & E & _ & Hin).
  pose proof (update_layers_frame rand (layers (self s1)) s1) as [_ Hf].
  rewrite E in Hf. cbn [final heap with_heap with_tape] in Hf.
  unfold bind at 1. unfold update, bind at 1, get_self. rewrite E.
  set (s2 := with_heap h' (with_tape n s1)).
  assert (Hr2 : ready s2).
  { intros l Hl. destruct (Hall l Hl) as (L & speed & stars & HL & Hsp & Hst).
    destruct (Hin l L speed stars Hl HL Hsp Hst) as (stars' & HL' & _).
    exists (set_stars stars' L), stars'. split; [exact HL' | reflexivity]. }
  rewrite (render_paints_in_order_run s2 Hr2).
  eexists h', n, _. split; [reflexivity|]. split; [exact Hf | exact Hin].
Qed.

(** One frame, running or not. *)
Lemma loop_ready (s : State) :
  ready s -> moving s ->
  exists s', loop rand s = Ok tt s' /\ ready s' /\ moving s'
             /\ self s' = self s /\ calcs s' = calcs s.
Proof.
  intros Hready Hmoving. destruct (running (self s)) eqn:Hrun.
  - destruct (loop_run s Hready Hmoving Hrun) as (h' & n & c & E & Hf).
    eexists. split; [exact E|].
    split; [apply (ready_moved s); [reflexivity | exact Hf | exact Hready]|].
    split; [apply (moving_moved s); [reflexivity | exact Hf | exact Hmoving]|].
    split; reflexivity.
  - exists s. unfold loop, bind, get_self. rewrite Hrun.
    split; [reflexivity|]. split; [exact Hready|].
    split; [exact Hmoving | split; reflexivity].
Qed.

(** [start] on an instance that has not been paused: the stars are
    generated, then the first frame runs. *)
Lemma start_fresh_run (s : State) :
  Forall (fun l => (l < length (heap s))%nat) (layers (self s)) ->
  moving s ->
  restarted (self s) = false ->
  exists s',
    start rand s = Ok tt s' /\ ready s' /\ moving s'
    /\ self s' = with_running true (self s)
    /\ raf s' = S (raf s) /\ calcs s' = S (calcs s).
Proof.
  intros Hrefs Hmoving Hres. unfold start, bind at 1, get_self.
  unfold bind at 1, put_self. rewrite Hres. cbn [negb].
  set (s0 := with_self (with_running true (self s)) s).
  destruct (calculate_shape rand s0 Hrefs)
    as (h1 & n1 & E1 & HS & Hseed).
  unfold bind at 1. unfold bind at 1. rewrite E1.
  unfold bind at 1, get_self.
  set (s1 := with_heap h1 (with_tape n1 (with_calcs (S (calcs s0)) s0))).
  set (s2 := with_self (with_restarted false (self s1)) s1).
  assert (Hself2 : self s2 = with_running true (self s)).
  { cbn. unfold with_restarted, with_running. cbn.
    rewrite Hres. reflexivity. }
  assert (Hr2 : ready s2).
  { apply (ready_of_seeded rand (self s0)); [|exact Hseed].
    rewrite Hself2. reflexivity. }
  assert (Hm2 : moving s2).
  { apply (moving_settings s s2); [rewrite Hself2; reflexivity | exact HS|].
    exact Hmoving. }
  destruct (loop_run s2 Hr2 Hm2) as (h' & n & c & E & Hf).
  { rewrite Hself2. reflexivity. }
  cbn [put_self]. fold s2. rewrite E.
  eexists. split; [reflexivity|].
  split; [apply (ready_moved s2); [reflexivity | exact Hf | exact Hr2]|].
  split; [apply (moving_moved s2); [reflexivity | exact Hf | exact Hm2]|].
  split; [exact Hself2|]. split; reflexivity.
Qed.

(** [start] on an instance that has been paused: one frame. *)
Lemma start_resumed_run (s : State) :
  ready s -> moving s -> restarted (self s) = true ->
  exists s',
    start rand s = Ok tt s' /\ ready s' /\ moving s'
    /\ self s' = with_running true (self s)
    /\ raf s' = S (raf s) /\ calcs s' = calcs s.
Proof.
  intros Hready Hmoving Hres. rewrite (start_after_pause rand s Hres).
  set (s0 := with_self (with_running true (self s)) s).
  destruct (loop_run s0 Hready Hmoving eq_refl) as (h' & n & c & E & Hf).
  rewrite E. eexists. split; [reflexivity|].
  split; [apply (ready_moved s0); [reflexivity | exact Hf | exact Hready]|].
  split; [apply (moving_moved s0); [reflexivity | exact Hf | exact Hmoving]|].
  repeat split.
Qed.

Lemma start_ready (s : State) :
  ready s -> moving s ->
  exists s', start rand s = Ok tt s' /\ ready s' /\ moving s'
             /\ self s' = with_running true (self s)
             /\ raf s' = S (raf s).
Proof.
  intros Hready Hmoving. destruct (restarted (self s)) eqn:Hres.
  - destruct (start_resumed_run s Hready Hmoving Hres)
      as (s' & E & H1 & H2 & H3 & H4 & _).
    exists s'. repeat split; assumption.
  - destruct (start_fresh_run s (refs_of_ready s Hready) Hmoving Hres)
      as (s' & E & H1 & H2 & H3 & H4 & _).
    exists s'. repeat split; assumption.
Qed.

Lemma frame_ready (s : State) :
  ready s -> moving s ->
  exists s', frame rand s = Ok tt s' /\ ready s' /\ moving s'.
Proof.
  intros Hready Hmoving. unfold frame. destruct (raf s) as [|k].
  - exists s. split; [reflexivity | split; assumption].
  - destruct (loop_ready (with_raf k s) Hready Hmoving)
      as (s' & E & Hr & Hm & _).
    exists s'. repeat split; assumption.
Qed.

Lemma perform_ready (c : call) (s : State) :
  ready s -> moving s ->
  exists s', perform rand c s = Ok tt s' /\ ready s' /\ moving s'.
Proof.
  intros Hready Hmoving. destruct c; cbn [perform].
  - destruct (start_ready s Hready Hmoving) as (s' & E & Hr & Hm & _).
    exists s'. repeat split; assumption.
  - eexists. split; [reflexivity | split; assumption].
  - apply frame_ready; assumption.
  - destruct (update_layers_ok rand (layers (self s)) s
                (ready_moving s Hready Hmoving))
      as (h' & n & E & Hf).
    eexists. split; [unfold update, bind, get_self; exact E|].
    split; [apply (ready_moved s); [reflexivity | exact Hf | exact Hready]|].
    apply (moving_moved s); [reflexivity | exact Hf | exact Hmoving].
  - rewrite (render_paints_in_order_run s Hready).
    eexists. split; [reflexivity | split; assumption].
  - eexists. split; [reflexivity | split; assumption].
Qed.

Lemma runs_ready (cs : list call) :
  forall s, ready s -> moving s -> runs rand cs s.
Proof.
  induction cs as [|c cs IH]; intros s Hready Hmoving; cbn [runs]; [exact I|].
  destruct (perform_ready c s Hready Hmoving) as (s' & E & Hr & Hm).
  exists s'. split; [exact E | apply IH; assumption].
Qed.

End Animation.

(** X13.  Once the layers hold their stars, an instance whose layers
    all have a [speed] throws no more: every sequence of calls of [start],
    [pause], [update], [render], [clear] and of animation frames returns
    normally, call after call.  [calculate] brings such an instance into that
    state.  A layer without [speed] breaks this: see [sky_slow]. *)
Theorem seeded_instance_never_throws (rand : nat -> Q) (s : State) :
  (ready s -> moving s -> forall cs, runs rand cs s)
  /\ (Forall (fun l => (l < length (heap s))%nat) (layers (self s)) ->
      moving s ->
      exists s', calculate rand s = Ok (layers (self s)) s'
                 /\ forall cs, runs rand cs s')
  /\ ~ runs mid_oracle [CallUpdate] sky_slow.
Proof.
  split; [|split].
  - intros Hready Hmoving cs. apply runs_ready; assumption.
  - intros Hrefs Hmoving.
    destruct (calculate_run rand s Hrefs)
      as (s' & E & Hself & _ & HS & _ & Hseed).
    exists s'. split; [exact E|]. intros cs.
    apply runs_ready.
    + apply (ready_of_seeded rand (self s)); [rewrite Hself; reflexivity|].
      exact Hseed.
    + apply (moving_settings s s'); [rewrite Hself; reflexivity | exact HS|].
      exact Hmoving.
  - intros (s' & E & _). vm_compute in E. discriminate E.
Qed.

Lemma sky_seeded_speeds : moving sky_seeded.
Proof.
  intros l Hl.
  destruct (sky_seeded_moving l Hl) as (L & speed & _ & HL & Hsp & _).
  exists L, speed. split; assumption.
Qed.

Lemma seeded_instance_never_throws_witness :
  runs mid_oracle [CallStart; CallFrame; CallPause; CallFrame; CallStart;
                   CallUpdate; CallRender] sky_seeded.
Proof.
  destruct (seeded_instance_never_throws mid_oracle sky_seeded) as [W _].
  exact (W sky_seeded_ready sky_seeded_speeds _).
Defined.

(** X14.  A star that [update] finds outside is sent, after one draw
    [r], to [y = 1] at the integer [x = floor (r * (width + 1))] of
    [[0, width]], whether its layer has a [speed] or not; its colour and speed
    stay.  There it is inside again unless the draw gave [x = 0], which lies
    on the excluded left boundary: such a star is sent back once more by the
    next [update]. *)
Theorem respawn_inside_unless_zero (rand : nat -> Q) (p : Parallax)
    (L : Layer) (a : Star) (s : State) :
  unit_interval rand ->
  (0 <= width p)%Z -> (0 <= height p)%Z ->
  isInside p (star_x a) (star_y a) = false ->
  let k := (Qfloor (rand (tape s) * inject_Z (width p - 0 + 1)) + 0)%Z in
  exists b,
    update_star rand p L a s = Ok b (with_tape (S (tape s)) s)
    /\ star_x b == inject_Z k /\ (0 <= k <= width p)%Z
    /\ star_y b = 1
    /\ star_color b = star_color a /\ star_speed b = star_speed a
    /\ (isInside p (star_x b) (star_y b) = true <-> (0 < k)%Z).
Proof.
  intros Hr Hw Hh Hout k. unfold update_star. rewrite Hout.
  unfold bind. rewrite random_run. cbn zeta. cbn [ToNumber]. unfold ret.
  eexists. split; [reflexivity|]. cbn [star_x star_y star_color star_speed].
  pose proof (base_draw_range rand Hr 0 (width p) (tape s) Hw) as [Hlo Hhi].
  pose proof (split_base (base_draw rand 0 (width p) (tape s)) 0) as E.
  change (base_draw rand 0 (width p) (tape s)) with k in *.
  split; [exact E|]. split; [split; assumption|].
  split; [reflexivity|]. split; [reflexivity|]. split; [reflexivity|].
  unfold isInside, fadeDistance.
  rewrite !andb_true_iff, !Qlt_bool_iff, E.
  change 0 with (inject_Z 0). rewrite <- !Zlt_Qlt.
  change 10 with (inject_Z 10). rewrite <- !inject_Z_plus.
  change 1 with (inject_Z 1). rewrite <- !Zlt_Qlt.
  lia.
Qed.

(** On [sky] with the draw 1/2, a star found at [(5, 200)] is sent to
    [(50, 1)], inside. *)
Lemma respawn_inside_unless_zero_witness :
  exists b,
    update_star mid_oracle sky twin_layer (mkStar 5 200 None (mkVec 0 0))
                sky_state = Ok b (with_tape 1 sky_state)
    /\ star_x b == 50 /\ star_y b = 1
    /\ isInside sky (star_x b) (star_y b) = true.
Proof.
  destruct (respawn_inside_unless_zero mid_oracle sky twin_layer
              (mkStar 5 200 None (mkVec 0 0)) sky_state mid_oracle_unit
              ltac:(vm_compute; discriminate) ltac:(vm_compute; discriminate)
              eq_refl) as (b & E & Hx & _ & Hy & _ & _ & Hin).
  exists b. split; [exact E|]. split; [exact Hx|]. split; [exact Hy|].
  apply Hin. reflexivity.
Defined.

Section Queue.

Variable rand : nat -> Q.

(** A frame on a paused instance only leaves the queue. *)
Lemma paused_frame (s : State) :
  running (self s) = false ->
  frame rand s = Ok tt (with_raf (Nat.pred (raf s)) s).
Proof.
  intros Hrun. unfold frame. destruct (raf s) as [|k] eqn:Hraf.
  - cbn [Nat.pred]. rewrite <- Hraf. destruct s; reflexivity.
  - unfold loop, bind, get_self. cbn [self with_raf]. rewrite Hrun.
    reflexivity.
Qed.

Lemma paused_frames (n : nat) :
  forall s, running (self s) = false ->
            runs rand (repeat CallFrame n) s
            /\ drive rand (repeat CallFrame n) s = with_raf (raf s - n) s.
Proof.
  induction n as [|n IH]; intros s Hrun; cbn [repeat runs drive perform].
  - split; [exact I|]. rewrite Nat.sub_0_r. destruct s; reflexivity.
  - rewrite (paused_frame s Hrun). cbn [final].
    destruct (IH (with_raf (Nat.pred (raf s)) s) Hrun) as [Hruns Hdrive].
    split; [eexists; split; [reflexivity | exact Hruns]|].
    rewrite Hdrive. cbn [raf with_raf]. unfold with_raf. cbn.
    f_equal. lia.
Qed.

(** A frame on a running instance whose layers hold a speed and their
    stars queues its successor: the queue keeps its length. *)
Lemma frame_running (s : State) (k : nat) :
  ready s -> moving s -> running (self s) = true -> raf s = S k ->
  exists s', frame rand s = Ok tt s' /\ ready s' /\ moving s'
             /\ self s' = self s /\ raf s' = S k.
Proof.
  intros Hready Hmoving Hrun Hraf. unfold frame. rewrite Hraf.
  destruct (loop_run rand (with_raf k s) Hready Hmoving Hrun)
    as (h' & n & c & E & Hf).
  rewrite E. eexists. split; [reflexivity|].
  split; [apply (ready_moved (with_raf k s));
          [reflexivity | exact Hf | exact Hready]|].
  split; [apply (moving_moved (with_raf k s));
          [reflexivity | exact Hf | exact Hmoving]|].
  split; reflexivity.
Qed.

Lemma frames_running (n : nat) :
  forall s k, ready s -> moving s -> running (self s) = true -> raf s = S k ->
              runs rand (repeat CallFrame n) s
              /\ raf (drive rand (repeat CallFrame n) s) = S k
              /\ running (self (drive rand (repeat CallFrame n) s)) = true.
Proof.
  induction n as [|n IH]; intros s k Hready Hmoving Hrun Hraf;
    cbn [repeat runs drive perform].
  - split; [exact I|]. split; assumption.
  - destruct (frame_running s k Hready Hmoving Hrun Hraf)
      as (s' & E & Hr' & Hm' & Hself & Hraf').
    rewrite E. cbn [final].
    destruct (IH s' k Hr' Hm') as (H1 & H2 & H3);
      [rewrite Hself; exact Hrun | exact Hraf' |].
    split; [exists s'; split; [reflexivity | exact H1]|].
    split; assumption.
Qed.

End Queue.

(** X15.  [pause] takes effect at once: the frames still queued when it
    is called return without clearing, moving or painting anything and
    without queuing a successor, so the queue drains and nothing else in the
    state changes. *)
Theorem pause_drains_the_queue (rand : nat -> Q) (s : State) (n : nat) :
  runs rand (CallPause :: repeat CallFrame n) s
  /\ drive rand (CallPause :: repeat CallFrame n) s
     = with_raf (raf s - n) (final (pause s)).
Proof.
  assert (Hp : running (self (final (pause s))) = false) by reflexivity.
  destruct (paused_frames rand n (final (pause s)) Hp) as [Hruns Hdrive].
  split.
  - cbn [runs perform]. eexists. split; [reflexivity | exact Hruns].
  - cbn [drive perform]. exact Hdrive.
Qed.

(** X16.  Every [start] on a seeded instance whose layers have a
    [speed] queues one more animation callback, and a callback run while the instance is running queues its
    successor: the queue never shrinks again.  So a second [start] (also one
    following a [pause] whose pending frame has not run yet) leaves one more
    loop running than before. *)
Theorem start_adds_a_loop (rand : nat -> Q) (s : State) :
  unit_interval rand ->
  ready s -> moving s ->
  exists s1,
    start rand s = Ok tt s1
    /\ raf s1 = S (raf s)
    /\ running (self s1) = true
    /\ forall n, runs rand (repeat CallFrame n) s1
                 /\ raf (drive rand (repeat CallFrame n) s1) = S (raf s).
Proof.
  intros _ Hready Hmoving.
  destruct (start_ready rand s Hready Hmoving)
    as (s1 & E & Hr1 & Hm1 & Hself & Hraf).
  exists s1. split; [exact E|]. split; [exact Hraf|].
  assert (Hrun : running (self s1) = true) by (rewrite Hself; reflexivity).
  split; [exact Hrun|].
  intros n.
  destruct (frames_running rand n s1 (raf s) Hr1 Hm1 Hrun Hraf)
    as (H1 & H2 & _).
  split; assumption.
Qed.

Lemma start_adds_a_loop_witness :
  exists s1,
    start mid_oracle (final (pause sky_seeded)) = Ok tt s1
    /\ raf s1 = 1%nat
    /\ raf (drive mid_oracle [CallFrame; CallFrame] s1) = 1%nat.
Proof.
  destruct (start_adds_a_loop mid_oracle (final (pause sky_seeded))
              mid_oracle_unit sky_seeded_ready sky_seeded_speeds)
    as (s1 & E & Hraf & _ & W).
  exists s1. split; [exact E|]. split; [exact Hraf|].
  exact (proj2 (W 2%nat)).
Defined.

(** X17.  As long as [pause] has never been called, every [start]
    (on layers that have a [speed]) generates the stars anew: two calls of [start] in a row run [calculate]
    twice and leave two animation callbacks queued. *)
Theorem start_without_pause_reseeds (rand : nat -> Q) (s : State) :
  unit_interval rand ->
  Forall (fun l => (l < length (heap s))%nat) (layers (self s)) ->
  moving s ->
  restarted (self s) = false ->
  exists s1 s2,
    start rand s = Ok tt s1
    /\ calcs s1 = S (calcs s) /\ raf s1 = S (raf s)
    /\ restarted (self s1) = false
    /\ start rand s1 = Ok tt s2
    /\ calcs s2 = S (S (calcs s)) /\ raf s2 = S (S (raf s))
    /\ restarted (self s2) = false.
Proof.
  intros _ Hrefs Hmoving Hres.
  destruct (start_fresh_run rand s Hrefs Hmoving Hres)
    as (s1 & E1 & Hr1 & Hm1 & Hself1 & Hraf1 & Hcalcs1).
  assert (Hres1 : restarted (self s1) = false)
    by (rewrite Hself1; exact Hres).
  destruct (start_fresh_run rand s1 (refs_of_ready s1 Hr1) Hm1 Hres1)
    as (s2 & E2 & _ & _ & Hself2 & Hraf2 & Hcalcs2).
  exists s1, s2.
  split; [exact E1|]. split; [exact Hcalcs1|]. split; [exact Hraf1|].
  split; [exact Hres1|]. split; [exact E2|].
  split; [rewrite Hcalcs2, Hcalcs1; reflexivity|].
  split; [rewrite Hraf2, Hraf1; reflexivity|].
  rewrite Hself2. exact Hres1.
Qed.

Lemma sky_speeds : moving sky_state.
Proof.
  intros l [<-|[<-|[<-|[]]]]; eexists _, _; split; reflexivity.
Qed.

Lemma start_without_pause_reseeds_witness :
  exists s1 s2,
    start mid_oracle sky_state = Ok tt s1
    /\ start mid_oracle s1 = Ok tt s2
    /\ calcs s2 = 2%nat /\ raf s2 = 2%nat.
Proof.
  destruct (start_without_pause_reseeds mid_oracle sky_state mid_oracle_unit
              sky_refs sky_speeds eq_refl)
    as (s1 & s2 & E1 & _ & _ & _ & E2 & Hc & Hq & _).
  exists s1, s2. split; [exact E1|]. split; [exact E2|].
  split; [exact Hc | exact Hq].
Defined.

(** X18.  [resize] adopts the size the host currently computes for the
    container and generates the stars for that size, as many per layer as
    [calculate] gives for it; it returns nothing, keeps the layers, the
    palette and the running and restarted flags, queues no frame and paints
    nothing. *)
Theorem resize_adopts_measured_size (rand : nat -> Q) (s : State) :
  Forall (fun l => (l < length (heap s))%nat) (layers (self s)) ->
  let w := fst (measured s) in
  let h := snd (measured s) in
  let area := to_double (inject_Z (w * h)) in
  let turns :=
    fun density : Q => Z.to_nat (Qceiling (to_double (density * area))) in
  exists s',
    resize rand s = Ok tt s'
    /\ width (self s') = w /\ height (self s') = h
    /\ self s' = with_size w h (self s)
    /\ raf s' = raf s /\ canvas s' = canvas s
    /\ calcs s' = S (calcs s)
    /\ forall l L, In l (layers (self s)) -> heap s !! l = Some L ->
         exists L' stars,
           heap s' !! l = Some L' /\ layer_stars L' = Some stars
           /\ (layer_density L = None ->
               length stars = turns (to_double (1 # 5000)))
           /\ (forall d, layer_density L = Some d -> d == 0 ->
               length stars = turns (to_double (1 # 5000)))
           /\ (forall d, layer_density L = Some d -> ~ d == 0 ->
               length stars = turns d).
Proof.
  intros Hrefs w h area0 turns. unfold resize, bind at 1.
  set (s0 := with_self (with_size w h (self s)) s).
  destruct (calculate_shape rand s0 Hrefs) as (h' & n & E & HS & Hseed).
  unfold bind. fold w h s0. rewrite E. unfold ret.
  eexists. split; [reflexivity|].
  split; [reflexivity|]. split; [reflexivity|]. split; [reflexivity|].
  split; [reflexivity|]. split; [reflexivity|]. split; [reflexivity|].
  intros l L Hl HL.
  destruct (Hseed l Hl) as (L' & stars & HL' & Hst & Hlen & _).
  destruct (Forall2_lookup_l _ _ _ _ _ HS HL) as (L2 & HL2 & HLL).
  cbn [heap with_heap with_tape with_calcs] in HL'.
  replace L2 with L' in HLL by congruence.
  exists L', stars. split; [exact HL'|]. split; [exact Hst|].
  apply (count_cases (self s0) L).
  rewrite Hlen. unfold star_count. rewrite (density_same L L' HLL).
  reflexivity.
Qed.

Lemma sky_shrunk_refs :
  Forall (fun l => (l < length (heap sky_shrunk))%nat)
         (layers (self sky_shrunk)).
Proof. repeat constructor. Qed.

(** The seeded [sky] shrunk to 50 by 40: one star in the first layer,
    where it held three. *)
Lemma resize_adopts_measured_size_witness :
  exists s' L' stars,
    resize mid_oracle sky_shrunk = Ok tt s'
    /\ width (self s') = 50%Z /\ height (self s') = 40%Z
    /\ heap s' !! 0%nat = Some L' /\ layer_stars L' = Some stars
    /\ length stars = 1%nat.
Proof.
  pose proof (resize_adopts_measured_size mid_oracle sky_shrunk
                sky_shrunk_refs) as W.
  cbv zeta in W. destruct W as (s' & E & Hw & Hh & _ & _ & _ & _ & W).
  destruct (W 0%nat _ (or_introl eq_refl) eq_refl)
    as (L' & stars & HL' & Hst & Hlen & _).
  exists s', L', stars.
  split; [exact E|]. split; [exact Hw|]. split; [exact Hh|].
  split; [exact HL'|]. split; [exact Hst|].
  rewrite (Hlen eq_refl). reflexivity.
Defined.

(** ** [pause], [start] and [resize] *)

Lemma isInside_box (p p' : Parallax) (x y : Q) :
  width p' = width p -> height p' = height p ->
  isInside p' x y = isInside p x y.
Proof. intros Hw Hh. unfold isInside. rewrite Hw, Hh. reflexivity. Qed.

(** One step of [update], spelled out. *)
Lemma step_explicit (rand : nat -> Q) (p p' : Parallax) (speed : Vec)
    (a b : Star) :
  unit_interval rand -> (0 <= width p)%Z ->
  width p' = width p -> height p' = height p ->
  same_look a b -> star_step rand p' speed a b ->
  star_color b = star_color a /\ star_speed b = star_speed a
  /\ if isInside p (star_x a) (star_y a)
     then star_x b = star_x a + (vec_x speed + vec_x (star_speed a))
          /\ star_y b = star_y a + (vec_y speed + vec_y (star_speed a))
     else star_y b = 1
          /\ exists k : Z, (0 <= k <= width p)%Z /\ star_x b == inject_Z k.
Proof.
  intros Hr Hw Ew Eh [Hc Hs] Hstep.
  split; [exact Hc|]. split; [exact Hs|].
  unfold star_step in Hstep. rewrite (isInside_box p p' _ _ Ew Eh) in Hstep.
  destruct (isInside p (star_x a) (star_y a)); [exact Hstep|].
  destruct Hstep as [Hy [m Hx]]. split; [exact Hy|].
  rewrite Ew in Hx.
  exists (base_draw rand 0 (width p) m).
  split; [apply base_draw_range; assumption|].
  rewrite Hx. apply split_base.
Qed.

Section Resume.

Variable rand : nat -> Q.

(** [pause] followed by [start], on an instance that lists no layer
    object twice and whose layers hold a speed and their stars: one frame,
    in which every star makes one step. *)
Lemma cycle_run (s : State) :
  NoDup (layers (self s)) ->
  (forall l, In l (layers (self s)) ->
             exists L speed stars, heap s !! l = Some L
                                   /\ layer_speed L = Some speed
                                   /\ layer_stars L = Some stars) ->
  exists s2,
    start rand (final (pause s)) = Ok tt s2
    /\ calcs s2 = calcs s
    /\ layers (self s2) = layers (self s)
    /\ width (self s2) = width (self s)
    /\ height (self s2) = height (self s)
    /\ (forall l L speed stars,
           In l (layers (self s)) -> heap s !! l = Some L ->
           layer_speed L = Some speed -> layer_stars L = Some stars ->
           exists stars',
             heap s2 !! l = Some (set_stars stars' L)
             /\ Forall2 (fun a b => same_look a b
                                    /\ star_step rand (self s) speed a b)
                        stars stars').
Proof.
  intros Hnd Hall.
  set (sp := final (pause s)).
  assert (Hres : restarted (self sp) = true) by reflexivity.
  rewrite (start_after_pause rand sp Hres).
  set (s0 := with_self (with_running true (self sp)) sp).
  destruct (loop_step rand s0 Hnd Hall eq_refl)
    as (h' & n & c & E & _ & Hin).
  rewrite E. eexists. split; [reflexivity|].
  repeat (split; [reflexivity|]). exact Hin.
Qed.

(** The conditions of [cycle_run] hold again after the cycle, hence
    after any number of cycles; [calculate] has not been called. *)
Lemma cycles_run (k : nat) :
  forall s : State,
    NoDup (layers (self s)) ->
    (forall l, In l (layers (self s)) ->
               exists L speed stars, heap s !! l = Some L
                                     /\ layer_speed L = Some speed
                                     /\ layer_stars L = Some stars) ->
    let sk := drive rand (cycles k) s in
    calcs sk = calcs s
    /\ layers (self sk) = layers (self s)
    /\ width (self sk) = width (self s)
    /\ height (self sk) = height (self s)
    /\ (forall l, In l (layers (self s)) ->
                  exists L speed stars, heap sk !! l = Some L
                                        /\ layer_speed L = Some speed
                                        /\ layer_stars L = Some stars).
Proof.
  induction k as [|k IH]; intros s Hnd Hall; cbn [cycles drive perform].
  - repeat (split; [reflexivity|]). exact Hall.
  - destruct (cycle_run s Hnd Hall) as (s2 & E & Hc & Hl & Hw & Hh & Hin).
    change (pause s) with (Ok tt (final (pause s))). cbn [final].
    rewrite E. cbn [final].
    assert (Hall2 : forall l, In l (layers (self s2)) ->
               exists L speed stars, heap s2 !! l = Some L
                                     /\ layer_speed L = Some speed
                                     /\ layer_stars L = Some stars).
    { intros l Hl'. rewrite Hl in Hl'.
      destruct (Hall l Hl') as (L & speed & stars & HL & Hsp & Hst).
      destruct (Hin l L speed stars Hl' HL Hsp Hst) as (stars' & HL' & _).
      exists (set_stars stars' L), speed, stars'.
      split; [exact HL'|]. split; [exact Hsp | reflexivity]. }
    destruct (IH s2) as (Kc & Kl & Kw & Kh & Kall);
      [rewrite Hl; exact Hnd | exact Hall2 |].
    split; [congruence|]. split; [congruence|]. split; [congruence|].
    split; [congruence|].
    intros l Hl'. apply Kall. rewrite Hl. exact Hl'.
Qed.

End Resume.

(** C9.  [pause] leaves the stars where they are, and the [start] that
    follows it does not call [calculate]: it runs one frame on the stars as
    they are.  With no layer object listed twice and every layer holding a
    speed and its stars, every star has then made exactly one step of
    [update] from the position it had, keeping its colour and speed; this
    holds for the first and for every later [pause ()], [start ()] cycle.
    After a [pause] no sequence of calls of [start], [pause], [update],
    [render], [clear] and animation frames calls [calculate].  [resize]
    adopts the measured size and calls [calculate], exactly once, whatever it
    finds; it returns nothing, and the stars it leaves do not depend on the
    arrays that were there. *)
Theorem pause_resume_keeps_stars_resize_reseeds (rand : nat -> Q)
    (s : State) :
  let stepped := fun (speed : Vec) (a b : Star) =>
    star_color b = star_color a /\ star_speed b = star_speed a
    /\ if isInside (self s) (star_x a) (star_y a)
       then star_x b = star_x a + (vec_x speed + vec_x (star_speed a))
            /\ star_y b = star_y a + (vec_y speed + vec_y (star_speed a))
       else star_y b = 1
            /\ exists k : Z,
                 (0 <= k <= width (self s))%Z /\ star_x b == inject_Z k in
  (unit_interval rand ->
   (0 <= width (self s))%Z ->
   List.NoDup (layers (self s)) ->
   (forall l, In l (layers (self s)) ->
              exists L speed stars, heap s !! l = Some L
                                    /\ layer_speed L = Some speed
                                    /\ layer_stars L = Some stars) ->
   forall k : nat,
     let sk := drive rand (cycles k) s in
     exists s1 s2,
       pause sk = Ok tt s1
       /\ heap s1 = heap sk /\ tape s1 = tape sk
       /\ start rand s1 = Ok tt s2
       /\ calcs s2 = calcs s
       /\ forall l L speed stars,
            In l (layers (self s)) -> heap sk !! l = Some L ->
            layer_speed L = Some speed -> layer_stars L = Some stars ->
            exists L' stars',
              heap s2 !! l = Some L' /\ layer_stars L' = Some stars'
              /\ layer_speed L' = Some speed
              /\ length stars' = length stars
              /\ forall i a, stars !! i = Some a ->
                   exists b, stars' !! i = Some b /\ stepped speed a b)
  /\ (forall cs : list call,
        calcs (drive rand (CallPause :: cs) s) = calcs s
        /\ restarted (self (drive rand (CallPause :: cs) s)) = true)
  /\ calcs (final (resize rand s)) = S (calcs s)
  /\ (Forall (fun l => (l < length (heap s))%nat) (layers (self s)) ->
      exists s',
        resize rand s = Ok tt s'
        /\ calcs s' = S (calcs s)
        /\ width (self s') = fst (measured s)
        /\ height (self s') = snd (measured s)
        /\ (forall l, In l (layers (self s)) ->
              exists L' stars,
                heap s' !! l = Some L' /\ layer_stars L' = Some stars)
        /\ forall h, Forall2 same_settings (heap s) h ->
             exists s2,
               resize rand (with_heap h s) = Ok tt s2
               /\ forall l, In l (layers (self s)) ->
                            heap s2 !! l = heap s' !! l).
Proof.
  intros stepped. split; [|split; [|split]].
  - intros Hr Hw Hnd Hall k sk.
    apply NoDup_ListNoDup in Hnd.
    destruct (cycles_run rand k s Hnd Hall) as (Kc & Kl & Kw & Kh & Kall).
    fold sk in Kc, Kl, Kw, Kh, Kall.
    destruct (cycle_run rand sk) as (s2 & E & Hc & _ & _ & _ & Hin).
    { rewrite Kl. exact Hnd. }
    { intros l Hl. apply Kall. rewrite <- Kl. exact Hl. }
    exists (final (pause sk)), s2.
    split; [reflexivity|]. split; [reflexivity|]. split; [reflexivity|].
    split; [exact E|]. split; [congruence|].
    intros l L speed stars Hl HL Hsp Hst.
    destruct (Hin l L speed stars) as (stars' & HL' & HF); try assumption.
    { rewrite Kl. exact Hl. }
    exists (set_stars stars' L), stars'.
    split; [exact HL'|]. split; [reflexivity|]. split; [exact Hsp|].
    split; [symmetry; exact (Forall2_length _ _ _ HF)|].
    intros i a Ha.
    destruct (Forall2_lookup_l _ _ _ _ _ HF Ha) as (b & Hb & Hlook & Hstep).
    exists b. split; [exact Hb|].
    exact (step_explicit rand (self s) (self sk) speed a b Hr Hw Kw Kh
             Hlook Hstep).
  - intros cs. cbn [drive perform].
    assert (Hp : restarted (self (final (pause s))) = true) by reflexivity.
    pose proof (drive_after_pause rand cs _ Hp) as (H1 & H2 & _).
    split; [exact H2 | exact H1].
  - unfold resize, bind.
    pose proof (calculate_counted rand
                  (with_self (with_size (fst (measured s)) (snd (measured s))
                                        (self s)) s)) as [_ Hc].
    destruct (calculate rand _) as [ls s1|e s1]; exact Hc.
  - intros Hrefs.
    set (s0 := with_self (with_size (fst (measured s)) (snd (measured s))
                                    (self s)) s).
    destruct (calculate_run rand s0 Hrefs)
      as (s' & E & Hself & Hcalcs & _ & _ & Hseed).
    exists s'. unfold resize, bind. fold s0. rewrite E.
    split; [reflexivity|]. split; [exact Hcalcs|].
    split; [rewrite Hself; reflexivity|].
    split; [rewrite Hself; reflexivity|]. split.
    + intros l Hl. destruct (Hseed l Hl) as (L' & stars & HL' & Hst & _).
      exists L', stars. split; assumption.
    + intros h Hh.
      destruct (calculate_forgets rand s0 h Hh Hrefs)
        as (s1 & s2 & E1 & E2 & _ & Hsame).
      exists s2.
      change (with_self (with_size (fst (measured (with_heap h s)))
                                   (snd (measured (with_heap h s)))
                                   (self (with_heap h s))) (with_heap h s))
        with (with_heap h s0).
      rewrite E2. split; [reflexivity|].
      replace s' with s1 by congruence. exact Hsame.
Qed.

(** On the seeded [sky], in its second [pause ()], [start ()] cycle:
    [start] returns without a further call of [calculate], and the first
    star of the first layer, inside at [(55, 56)] after one earlier step
    down, moves on by [1/2 + 1/40]. *)
Lemma pause_resume_keeps_stars_resize_reseeds_witness :
  exists s1 s2,
    pause (drive mid_oracle (cycles 1) sky_seeded) = Ok tt s1
    /\ start mid_oracle s1 = Ok tt s2
    /\ calcs s2 = calcs sky_seeded
    /\ exists L' stars' b,
         heap s2 !! 0%nat = Some L' /\ layer_stars L' = Some stars'
         /\ stars' !! 0%nat = Some b
         /\ star_y b == 56 + (1 # 2) + (1 # 40) + ((1 # 2) + (1 # 40)).
Proof.
  pose proof (pause_resume_keeps_stars_resize_reseeds mid_oracle sky_seeded)
    as W.
  cbv zeta in W. destruct W as (W & _).
  destruct (W mid_oracle_unit ltac:(vm_compute; discriminate)
              sky_seeded_distinct sky_seeded_moving 1%nat)
    as (s1 & s2 & E1 & _ & _ & E2 & Hc & Hstars).
  exists s1, s2. split; [exact E1|]. split; [exact E2|]. split; [exact Hc|].
  destruct (Hstars 0%nat _ _ _ (or_introl eq_refl) eq_refl eq_refl eq_refl)
    as (L' & stars' & HL' & Hst' & _ & _ & Hi).
  destruct (Hi 0%nat _ eq_refl) as (b & Hb & _ & _ & Hstep).
  exists L', stars', b.
  split; [exact HL'|]. split; [exact Hst'|]. split; [exact Hb|].
  match type of Hstep with
  | if ?c then _ else _ =>
      assert (Hins : c = true) by (vm_compute; reflexivity);
      rewrite Hins in Hstep
  end.
  destruct Hstep as [_ Hy]. rewrite Hy. vm_compute. reflexivity.
Defined.
